(** * consolidate_appointments_all_fields.py: a shallow embedding

    The script polls a master spreadsheet for a catalog of source sheets,
    fingerprints every data row of every source with SHA-256, and prepends
    the rows it has not delivered yet to a destination sheet, remembering
    the delivered fingerprints in a JSON ledger on disk.

    Conventions of the embedding:
    - a Python [str] is a Rocq [string] holding its UTF-8 bytes, so that
      [s.encode('utf-8')] is the identity and ["".join] is concatenation;
      [str.strip] and [\S] know the whitespace characters of Unicode by
      their encodings, [\d] and [int] its decimal digits (Unicode 14.0, the
      version of Python 3.11), and [int] refuses more than 4300 digits;
    - a Python [dict] is a stdpp [gmap], a Python [set] a [gset];
    - the remote spreadsheet service, the ledger file and a trace are one
      explicit [world], threaded through a state-and-exception monad; a tab
      is an unbounded grid of cells, a read returns the cells of its range
      without trailing blanks, and every request can fail, with [HttpError]
      when the service refuses it and with another exception when it gets
      no answer;
    - the trace records the requests that change a spreadsheet, the saves
      of the ledger, the pauses, two progress lines of the loop (a source
      is taken up, rows are found new) and the prints of
      [prepare_target_sheet]; other console output is left out;
    - [main] is cut after a number of turns of its endless loop; loading
      the credentials is left out.

    The first part holds the definitions, function by function as in the
    script; the second part the properties. *)

From Stdlib Require Import ZArith List String Ascii Bool Lia DecimalString.
From Stdlib Require DecimalZ DecimalPos.
From stdpp Require Import gmap strings list.

Import ListNotations.
Local Open Scope string_scope.
Local Open Scope list_scope.

(** ** Bytes of a string *)

Definition byte_of (c : ascii) : Z := Z.of_N (N_of_ascii c).

Definition bytes_of (s : string) : list Z := map byte_of (list_ascii_of_string s).

(** ** hashlib.sha256 (FIPS 180-4), on 32-bit words kept in [Z] *)

Module SHA256.
Local Open Scope Z_scope.

(** Wrap-around to 32 bits (the words are never negative). *)
Definition w32 (x : Z) : Z := Z.land x 0xffffffff.
Definition add32 (x y : Z) : Z := w32 (x + y).
Definition rotr (n x : Z) : Z := w32 (Z.lor (Z.shiftr x n) (Z.shiftl x (32 - n))).
Definition not32 (x : Z) : Z := Z.lxor x 0xffffffff.

Definition Ch (x y z : Z) : Z := Z.lxor (Z.land x y) (Z.land (not32 x) z).
Definition Maj (x y z : Z) : Z :=
  Z.lxor (Z.lxor (Z.land x y) (Z.land x z)) (Z.land y z).
Definition Sigma0 (x : Z) : Z := Z.lxor (Z.lxor (rotr 2 x) (rotr 13 x)) (rotr 22 x).
Definition Sigma1 (x : Z) : Z := Z.lxor (Z.lxor (rotr 6 x) (rotr 11 x)) (rotr 25 x).
Definition sigma0 (x : Z) : Z := Z.lxor (Z.lxor (rotr 7 x) (rotr 18 x)) (Z.shiftr x 3).
Definition sigma1 (x : Z) : Z := Z.lxor (Z.lxor (rotr 17 x) (rotr 19 x)) (Z.shiftr x 10).

(** The largest [r] between [lo] and [hi] with [r ^ k <= n], by bisection. *)
Fixpoint root_between (fuel : nat) (k n lo hi : Z) : Z :=
  match fuel with
  | O => lo
  | S fuel' =>
      let mid := (lo + hi) / 2 in
      if mid ^ k <=? n then root_between fuel' k n mid hi else root_between fuel' k n lo mid
  end.

(** The first 32 bits of the fractional part of the [k]-th root of [p]. *)
Definition root_fraction (k p : Z) : Z :=
  w32 (root_between 40 k (p * 2 ^ (32 * k)) 0 (2 ^ 36)).

Definition is_prime (n : nat) : bool :=
  forallb (fun d => negb (Nat.eqb (n mod d) 0)) (seq 2 (n - 2)).

(** The first sixty-four primes, 2 to 311. *)
Definition primes : list Z := map Z.of_nat (List.filter is_prime (seq 2 310)).

(** Round constants: from the cube roots of the first sixty-four primes. *)
Definition K : list Z := Eval vm_compute in map (root_fraction 3) primes.

(** Initial hash value: from the square roots of the first eight primes. *)
Definition H0 : list Z := Eval vm_compute in map (root_fraction 2) (firstn 8 primes).

(** Big-endian encoding of [x] on [n] bytes. *)
Fixpoint be_bytes (n : nat) (x : Z) : list Z :=
  match n with
  | O => []
  | S n' => Z.land (Z.shiftr x (8 * Z.of_nat n')) 0xff :: be_bytes n' x
  end.

(** The message, a [1] bit, zero bytes up to 56 modulo 64, the bit length. *)
Definition pad (msg : list Z) : list Z :=
  let len := Z.of_nat (length msg) in
  msg ++ [0x80] ++ repeat 0 (Z.to_nat ((55 - len) mod 64)) ++ be_bytes 8 (8 * len).

Fixpoint be_words (fuel : nat) (bs : list Z) : list Z :=
  match fuel with
  | O => []
  | S fuel' =>
      match bs with
      | b0 :: b1 :: b2 :: b3 :: rest =>
          Z.lor (Z.shiftl b0 24) (Z.lor (Z.shiftl b1 16) (Z.lor (Z.shiftl b2 8) b3))
          :: be_words fuel' rest
      | _ => []
      end
  end.

(** Message schedule: [win] holds the last sixteen words, oldest first. *)
Fixpoint schedule (n : nat) (win : list Z) : list Z :=
  match n with
  | O => []
  | S n' =>
      let w := add32 (add32 (sigma1 (nth 14 win 0)) (nth 9 win 0))
                     (add32 (sigma0 (nth 1 win 0)) (nth 0 win 0)) in
      w :: schedule n' (tl win ++ [w])
  end.

Definition round (st : list Z) (kw : Z * Z) : list Z :=
  match st with
  | [a; b; c; d; e; f; g; h] =>
      let t1 := add32 (add32 (add32 h (Sigma1 e)) (add32 (Ch e f g) (fst kw))) (snd kw) in
      let t2 := add32 (Sigma0 a) (Maj a b c) in
      [add32 t1 t2; a; b; c; add32 d t1; e; f; g]
  | _ => st
  end.

Definition compress (h : list Z) (block : list Z) : list Z :=
  let w := block ++ schedule 48 block in
  zip_with add32 h (fold_left round (combine K w) h).

Fixpoint blocks (fuel : nat) (ws : list Z) : list (list Z) :=
  match fuel with
  | O => []
  | S fuel' =>
      match ws with
      | [] => []
      | _ => firstn 16 ws :: blocks fuel' (skipn 16 ws)
      end
  end.

Definition digest (msg : list Z) : list Z :=
  let bs := pad msg in
  let ws := be_words (length bs) bs in
  fold_left compress (blocks (length ws) ws) H0.

Definition hex_digit (d : Z) : ascii :=
  if d <? 10 then ascii_of_N (Z.to_N (48 + d)) else ascii_of_N (Z.to_N (87 + d)).

Fixpoint hex_word (n : nat) (x : Z) : string :=
  match n with
  | O => EmptyString
  | S n' => String (hex_digit (Z.land (Z.shiftr x (4 * Z.of_nat n')) 0xf)) (hex_word n' x)
  end.

Definition hexdigest (msg : list Z) : string :=
  String.concat "" (map (hex_word 8) (digest msg)).
End SHA256.

(** [hashlib.sha256(s.encode('utf-8')).hexdigest()] *)
Definition sha256_hexdigest (s : string) : string := SHA256.hexdigest (bytes_of s).

(** ** Rows and fingerprints *)

Abbreviation row := (list string) (only parsing).

(** [get_row_hash]: the cells are strings already, so [map(str, row)] is the
    row itself. *)
Definition get_row_hash (r : row) : string :=
  let row_str := String.concat "" r in
  sha256_hexdigest row_str.

(** ** Text primitives of Python used by the script *)

Definition string_of_bytes (bs : list Z) : string :=
  string_of_list_ascii (map (fun b => ascii_of_N (Z.to_N b)) bs).

(** [str.isspace] for the one-byte characters: TAB..CR, FS..US and SPACE. *)
Definition is_space1 (b : Z) : bool :=
  ((9 <=? b) && (b <=? 13) || (28 <=? b) && (b <=? 32))%Z.

(** ... for U+0085 and U+00A0 ... *)
Definition is_space2 (b0 b1 : Z) : bool :=
  ((b0 =? 0xC2) && ((b1 =? 0x85) || (b1 =? 0xA0)))%Z.

(** ... and for U+1680, U+2000..U+200A, U+2028, U+2029, U+202F, U+205F and
    U+3000. *)
Definition is_space3 (b0 b1 b2 : Z) : bool :=
  ((b0 =? 0xE1) && (b1 =? 0x9A) && (b2 =? 0x80)
   || (b0 =? 0xE2) && (b1 =? 0x80)
      && ((0x80 <=? b2) && (b2 <=? 0x8A) || (b2 =? 0xA8) || (b2 =? 0xA9) || (b2 =? 0xAF))
   || (b0 =? 0xE2) && (b1 =? 0x81) && (b2 =? 0x9F)
   || (b0 =? 0xE3) && (b1 =? 0x80) && (b2 =? 0x80))%Z.

(** Number of bytes of the whitespace character that starts [bs]; [0] when
    [bs] does not start with whitespace. *)
Definition space_len (bs : list Z) : nat :=
  match bs with
  | b0 :: b1 :: b2 :: _ =>
      if is_space1 b0 then 1 else if is_space2 b0 b1 then 2
      else if is_space3 b0 b1 b2 then 3 else 0
  | [b0; b1] => if is_space1 b0 then 1 else if is_space2 b0 b1 then 2 else 0
  | [b0] => if is_space1 b0 then 1 else 0
  | [] => 0
  end%nat.

(** The same for the character that ends a byte sequence given reversed. *)
Definition space_len_end (rbs : list Z) : nat :=
  match rbs with
  | x1 :: x2 :: x3 :: _ =>
      if is_space1 x1 then 1 else if is_space2 x2 x1 then 2
      else if is_space3 x3 x2 x1 then 3 else 0
  | [x1; x2] => if is_space1 x1 then 1 else if is_space2 x2 x1 then 2 else 0
  | [x1] => if is_space1 x1 then 1 else 0
  | [] => 0
  end%nat.

Fixpoint drop_while_len (fuel : nat) (len : list Z -> nat) (bs : list Z) : list Z :=
  match fuel with
  | O => bs
  | S fuel' =>
      match len bs with
      | O => bs
      | n => drop_while_len fuel' len (skipn n bs)
      end
  end.

(** [s.strip()] *)
Definition strip (s : string) : string :=
  let bs := bytes_of s in
  let l := drop_while_len (length bs) space_len bs in
  let r := drop_while_len (length l) space_len_end (rev l) in
  string_of_bytes (rev r).

(** [needle in hay] *)
Fixpoint contains (needle hay : string) : bool :=
  String.prefix needle hay
  || match hay with
     | EmptyString => false
     | String _ hay' => contains needle hay'
     end.

Fixpoint string_drop (n : nat) (s : string) : string :=
  match n, s with
  | S n', String _ s' => string_drop n' s'
  | _, _ => s
  end.

(** The longest prefix of [s] whose characters all satisfy [cls]. *)
Fixpoint span (cls : ascii -> bool) (s : string) : string :=
  match s with
  | String c s' => if cls c then String c (span cls s') else EmptyString
  | EmptyString => EmptyString
  end.

(** [re.search(lit + "([cls]+)", s)]: group 1 of the leftmost match. *)
Fixpoint search_after (lit : string) (cls : ascii -> bool) (s : string) : option string :=
  let here :=
    if String.prefix lit s
    then match span cls (string_drop (String.length lit) s) with
         | EmptyString => None
         | run => Some run
         end
    else None in
  match here, s with
  | Some run, _ => Some run
  | None, String _ s' => search_after lit cls s'
  | None, EmptyString => None
  end.

Definition in_range (lo hi c : ascii) : bool :=
  (N_of_ascii lo <=? N_of_ascii c)%N && (N_of_ascii c <=? N_of_ascii hi)%N.

(** The character class [[a-zA-Z0-9-_]]. *)
Definition id_char (c : ascii) : bool :=
  in_range "a" "z" c || in_range "A" "Z" c || in_range "0" "9" c
  || Ascii.eqb c "-" || Ascii.eqb c "_".

(** The code point that starts a byte sequence and the number of bytes that
    encode it; [None] where the bytes are no UTF-8. *)
Definition continuation (b : Z) : bool := ((0x80 <=? b) && (b <=? 0xBF))%Z.

Definition code_point (bs : list Z) : option (Z * nat) :=
  match bs with
  | [] => None
  | b0 :: rest =>
      if (b0 <? 0x80)%Z then Some (b0, 1%nat)
      else if (b0 <? 0xC2)%Z then None
      else if (b0 <? 0xE0)%Z then
        match rest with
        | b1 :: _ =>
            if continuation b1 then Some (((b0 - 0xC0) * 64 + (b1 - 0x80))%Z, 2%nat) else None
        | _ => None
        end
      else if (b0 <? 0xF0)%Z then
        match rest with
        | b1 :: b2 :: _ =>
            let cp := ((b0 - 0xE0) * 4096 + (b1 - 0x80) * 64 + (b2 - 0x80))%Z in
            if continuation b1 && continuation b2
               && (0x800 <=? cp)%Z && negb ((0xD800 <=? cp) && (cp <=? 0xDFFF))%Z
            then Some (cp, 3%nat)
            else None
        | _ => None
        end
      else if (b0 <? 0xF5)%Z then
        match rest with
        | b1 :: b2 :: b3 :: _ =>
            let cp := ((b0 - 0xF0) * 262144 + (b1 - 0x80) * 4096
                       + (b2 - 0x80) * 64 + (b3 - 0x80))%Z in
            if continuation b1 && continuation b2 && continuation b3
               && (0x10000 <=? cp)%Z && (cp <=? 0x10FFFF)%Z
            then Some (cp, 4%nat)
            else None
        | _ => None
        end
      else None
  end.

(** The decimal digits of Unicode 14.0, the characters that [\d] matches in a
    [str] pattern and that [int] reads: they come in runs of ten, from a
    digit zero to a digit nine. These are the code points of the zeros. *)
Definition decimal_zeros : list Z :=
  [0x30; 0x660; 0x6f0; 0x7c0; 0x966; 0x9e6; 0xa66; 0xae6; 0xb66; 0xbe6; 0xc66; 0xce6;
   0xd66; 0xde6; 0xe50; 0xed0; 0xf20; 0x1040; 0x1090; 0x17e0; 0x1810; 0x1946; 0x19d0;
   0x1a80; 0x1a90; 0x1b50; 0x1bb0; 0x1c40; 0x1c50; 0xa620; 0xa8d0; 0xa900; 0xa9d0;
   0xa9f0; 0xaa50; 0xabf0; 0xff10; 0x104a0; 0x10d30; 0x11066; 0x110f0; 0x11136;
   0x111d0; 0x112f0; 0x11450; 0x114d0; 0x11650; 0x116c0; 0x11730; 0x118e0; 0x11950;
   0x11c50; 0x11d50; 0x11da0; 0x16a60; 0x16ac0; 0x16b50; 0x1d7ce; 0x1d7d8; 0x1d7e2;
   0x1d7ec; 0x1d7f6; 0x1e140; 0x1e2f0; 0x1e950; 0x1fbf0]%Z.

(** The value of a decimal digit, [None] for any other character. *)
Definition decimal_value (cp : Z) : option Z :=
  match find (fun zero => (zero <=? cp) && (cp <? zero + 10))%Z decimal_zeros with
  | Some zero => Some (cp - zero)%Z
  | None => None
  end.

(** The values of the decimal digits that start a byte sequence: the run
    that [\d*] matches there. *)
Fixpoint decimal_run (fuel : nat) (bs : list Z) : list Z :=
  match fuel with
  | O => []
  | S fuel' =>
      match code_point bs with
      | Some (cp, n) =>
          match decimal_value cp with
          | Some d => d :: decimal_run fuel' (skipn n bs)
          | None => []
          end
      | None => []
      end
  end.

(** [re.search(lit + "(\d+)", s)]: the digits of group 1 of the leftmost
    match, by their values. *)
Fixpoint search_decimals_after (lit : string) (s : string) : option (list Z) :=
  let here :=
    if String.prefix lit s
    then let bs := bytes_of (string_drop (String.length lit) s) in
         match decimal_run (length bs) bs with
         | [] => None
         | run => Some run
         end
    else None in
  match here, s with
  | Some run, _ => Some run
  | None, String _ s' => search_decimals_after lit s'
  | None, EmptyString => None
  end.

(** ** Exceptions *)

Inductive exn :=
| HttpError            (* googleapiclient.errors.HttpError: the service refuses a request *)
| TransportError       (* any other exception of execute(): the request gets no answer *)
| ValueError
| IndexError | FileNotFoundError | UnicodeDecodeError | JSONDecodeError.

Inductive outcome (A : Type) :=
| Ret (a : A)
| Raise (e : exn).
Arguments Ret {A} a.
Arguments Raise {A} e.

(** The number that a run of digits denotes. *)
Definition decimal_number (digits : list Z) : Z :=
  fold_left (fun acc d => (10 * acc + d)%Z) digits 0%Z.

(** [sys.get_int_max_str_digits()], by default. *)
Definition int_max_str_digits : nat := 4300.

(** [int(s)] on a run of decimal digits: longer runs than the limit are
    refused. *)
Definition int_of_decimals (digits : list Z) : outcome Z :=
  if (int_max_str_digits <? length digits)%nat then Raise ValueError
  else Ret (decimal_number digits).

(** The longest prefix of [bs] that holds no whitespace character: [\S*]. *)
Fixpoint nonspace_run (bs : list Z) : list Z :=
  match bs with
  | [] => []
  | b :: bs' => match space_len bs with O => b :: nonspace_run bs' | _ => [] end
  end.

(** [re.search(r'(https?://\S+)', s)]: group 1 of the leftmost match. *)
Fixpoint search_http_url (s : string) : option string :=
  let after scheme :=
    if String.prefix scheme s
    then match nonspace_run (bytes_of (string_drop (String.length scheme) s)) with
         | [] => None
         | run => Some (scheme +:+ string_of_bytes run)
         end
    else None in
  let here := match after "https://" with Some u => Some u | None => after "http://" end in
  match here, s with
  | Some u, _ => Some u
  | None, String _ s' => search_http_url s'
  | None, EmptyString => None
  end.

(** ** Address resolver *)

(** [extract_spreadsheet_info_from_url]: the spreadsheet id ([None] when
    neither pattern matches) and the gid, [0] by default; the [ValueError]
    of [int] leaves the function. *)
Definition extract_spreadsheet_info_from_url (url : string) : outcome (option string * Z) :=
  let spreadsheet_id :=
    match search_after "/spreadsheets/d/" id_char url with
    | Some m => Some m
    | None => search_after "id=" id_char url
    end in
  match search_decimals_after "gid=" url with
  | Some m =>
      match int_of_decimals m with
      | Ret gid => Ret (spreadsheet_id, gid)
      | Raise e => Raise e
      end
  | None => Ret (spreadsheet_id, 0%Z)
  end.

(** ** Configuration *)

Definition MASTER_SPREADSHEET_ID := "1JycrOH4URGHtLKDQhlP3Sf50-0rJtpqvih7NWvqR4Qo".
Definition MASTER_SHEET_NAME := "Active Clients".
Definition COMPANY_COLUMN_NAME := "Company".
Definition URL_COLUMN_NAME := "Appointment Spreadsheet:".
Definition TARGET_SPREADSHEET_ID := "1Gk7SYNBXebnlgq4aH85PgxPo_BLVq9MkpcSi7ntq320".
Definition TARGET_SHEET_NAME := "Sheet1".

(** ** The world: remote spreadsheets, the ledger file, the event trace *)

(** A tab of a spreadsheet: its numeric id, its title and its cells, a
    finite prefix of an unbounded grid whose other cells are blank. *)
Record sheet := Sheet { sheetId : Z; title : string; cells : list row }.

(** What [processed_rows.json] holds, told apart by what [os.path.exists],
    the text-mode [open] and [json.load] make of it. A document that
    [json.load] accepts is taken to have the shape [save_processed_hashes]
    writes, a dict from source keys to lists of fingerprints. *)
Inductive ledger_file :=
| Absent                                  (* os.path.exists(...) is False *)
| Undecodable                             (* bytes that are no text: read() raises UnicodeDecodeError *)
| Malformed                               (* text that is no JSON document: JSONDecodeError *)
| Stored (d : gmap string (list string)). (* the document json.dump wrote for d *)

(** The A1 ranges the script reads, all of them anchored in column A. *)
Record range := Range { skip_rows : nat; max_rows : option nat; max_cols : option nat }.

Definition ROW_1 := Range 0 (Some 1%nat) None.                   (* 1:1 *)
Definition A2_ZZ := Range 1 None (Some 702%nat).                 (* A2:ZZ *)
Definition A1_A1 := Range 0 (Some 1%nat) (Some 1%nat).           (* A1:A1 *)
Definition A_A := Range 0 None (Some 1%nat).                     (* A:A *)
Definition A_Q := Range 0 None (Some 17%nat).                    (* A:Q *)

(** The requests sent to the service; [faulty] says which of them fail. At
    a request it says that the service refuses it ([HttpError]); at
    [Transport c] it says that the request [c] gets no answer at all (a
    time-out, a lost connection: an exception of [execute()] that is no
    [HttpError]). *)
Inductive call :=
| SpreadsheetsGet (id : string)
| ValuesGet (id tab : string) (rng : range)
| ValuesUpdate (id tab : string) (first_row : nat)
| BatchUpdate (id : string)
| Transport (c : call).

Inductive event :=
| Checking (ss_index : nat)                                (* a source is taken up *)
| Found (new_rows : nat)                                   (* rows of a source found new *)
| Updated (id tab : string) (first_row : nat) (values : list row)
| InsertedRows (id : string) (sheet_id : Z) (startIndex endIndex : nat)
| AddedSheet (id tab : string)
| Saved (hashes : gmap string (list string))               (* the ledger file is rewritten *)
| Slept (seconds : Z)
| Printed (line : nat).             (* a print of prepare_target_sheet, by its line *)

(** The state outside the process: the spreadsheets by id, the requests
    that fail, the ledger file, and what the process has done so far. *)
Record world := World {
  drive : gmap string (list sheet);
  faulty : call -> bool;
  file : ledger_file;
  trace : list event
}.

(** Computations that read and change the world and may raise. *)
Definition M (A : Type) : Type := world -> outcome A * world.

#[global] Instance M_ret : MRet M := fun A a w => (Ret a, w).

#[global] Instance M_bind : MBind M := fun A B k m w =>
  match m w with
  | (Ret a, w') => k a w'
  | (Raise e, w') => (Raise e, w')
  end.

Definition raise {A} (e : exn) : M A := fun w => (Raise e, w).

(** What a function that touches nothing returns or raises. *)
Definition lift {A} (o : outcome A) : M A := fun w => (o, w).

(** [try: m except <the exceptions h accepts>: handler] *)
Definition try_except {A} (m : M A) (h : exn -> option (M A)) : M A := fun w =>
  match m w with
  | (Raise e, w') => match h e with Some handler => handler w' | None => (Raise e, w') end
  | r => r
  end.

Definition except_HttpError {A} (handler : M A) (e : exn) : option (M A) :=
  match e with HttpError => Some handler | _ => None end.

Definition except_JSONDecodeError {A} (handler : M A) (e : exn) : option (M A) :=
  match e with JSONDecodeError => Some handler | _ => None end.

Definition except_Exception {A} (handler : M A) (e : exn) : option (M A) := Some handler.

Definition emit (e : event) : M unit := fun w =>
  (Ret tt, World (drive w) (faulty w) (file w) (trace w ++ [e])).

Definition set_drive (d : gmap string (list sheet)) : M unit := fun w =>
  (Ret tt, World d (faulty w) (file w) (trace w)).

Definition set_file (f : ledger_file) : M unit := fun w =>
  (Ret tt, World (drive w) (faulty w) f (trace w)).

(** [time.sleep] *)
Definition sleep (seconds : Z) : M unit := emit (Slept seconds).

Fixpoint for_each {A S} (body : S -> A -> M S) (l : list A) (s : S) : M S :=
  match l with
  | [] => mret s
  | x :: l' => s' ← body s x; for_each body l' s'
  end.

(** ** The spreadsheet service (an in-memory stand-in) *)

(** Trailing blanks are left out of what the service returns. *)
Fixpoint trim_end {A} (blank : A -> bool) (l : list A) : list A :=
  match l with
  | [] => []
  | x :: l' =>
      match trim_end blank l' with
      | [] => if blank x then [] else [x]
      | t => x :: t
      end
  end.

Definition blank_cell (c : string) : bool := String.eqb c "".
Definition is_nil {A} (l : list A) : bool := match l with [] => true | _ => false end.
Definition blank_row (r : row) : bool := is_nil r.

Definition take_opt {A} (n : option nat) (l : list A) : list A :=
  match n with Some k => firstn k l | None => l end.

(** The ['values'] of a range, [[]] when the key is absent. *)
Definition read_range (rng : range) (g : list row) : list row :=
  trim_end blank_row
    (map (fun r => trim_end blank_cell (take_opt (max_cols rng) r))
         (take_opt (max_rows rng) (skipn (skip_rows rng) g))).

Definition overwrite_cells (new old : row) : row := new ++ skipn (length new) old.

Fixpoint overwrite_rows (values : list row) (g : list row) : list row :=
  match values with
  | [] => g
  | v :: vs => overwrite_cells v (hd [] g) :: overwrite_rows vs (tl g)
  end.

(** Writing [values] from row [first_row] (0-based) on, column A. *)
Fixpoint write_rows (first_row : nat) (values : list row) (g : list row) : list row :=
  match first_row with
  | O => overwrite_rows values g
  | S n => hd [] g :: write_rows n values (tl g)
  end.

(** [insertDimension] of rows [startIndex .. endIndex - 1]. *)
Definition insert_rows (startIndex endIndex : nat) (g : list row) : list row :=
  let g' := g ++ repeat [] (startIndex - length g) in
  firstn startIndex g' ++ repeat [] (endIndex - startIndex) ++ skipn startIndex g'.

Definition find_tab (tab : string) (ss : list sheet) : option sheet :=
  find (fun sh => String.eqb (title sh) tab) ss.

(** Applies [f] to the first tab that satisfies [p]; [None] without one. *)
Fixpoint update_tab (p : sheet -> bool) (f : list row -> list row) (ss : list sheet)
  : option (list sheet) :=
  match ss with
  | [] => None
  | sh :: ss' =>
      if p sh then Some (Sheet (sheetId sh) (title sh) (f (cells sh)) :: ss')
      else cons sh <$> update_tab p f ss'
  end.

(** A request fails when the world says so or when it names a spreadsheet
    or a tab that does not exist. *)
Definition request {A} (c : call) (id : string) (k : list sheet -> option (M A)) : M A :=
  fun w =>
    if faulty w (Transport c) then (Raise TransportError, w)
    else if faulty w c then (Raise HttpError, w)
    else match drive w !! id with
         | Some ss => match k ss with Some m => m w | None => (Raise HttpError, w) end
         | None => (Raise HttpError, w)
         end.

(** [spreadsheets().get(spreadsheetId=id).execute()['sheets']] *)
Definition spreadsheets_get (id : string) : M (list sheet) :=
  request (SpreadsheetsGet id) id (fun ss => Some (mret ss)).

(** [values().get(spreadsheetId=id, range=tab!rng).execute().get('values', [])] *)
Definition values_get (id tab : string) (rng : range) : M (list row) :=
  request (ValuesGet id tab rng) id (fun ss =>
    sh ← find_tab tab ss; Some (mret (read_range rng (cells sh)))).

(** [values().update(spreadsheetId=id, range=tab!A<first_row+1>, RAW, values)] *)
Definition values_update (id tab : string) (first_row : nat) (values : list row) : M unit :=
  request (ValuesUpdate id tab first_row) id (fun ss =>
    ss' ← update_tab (fun sh => String.eqb (title sh) tab) (write_rows first_row values) ss;
    Some (fun w => (set_drive (<[id := ss']> (drive w));; emit (Updated id tab first_row values)) w)).

(** [batchUpdate] with one [insertDimension] request on rows. *)
Definition batch_insert_rows (id : string) (sheet_id : Z) (startIndex endIndex : nat) : M unit :=
  request (BatchUpdate id) id (fun ss =>
    ss' ← update_tab (fun sh => Z.eqb (sheetId sh) sheet_id) (insert_rows startIndex endIndex) ss;
    Some (fun w => (set_drive (<[id := ss']> (drive w));;
                    emit (InsertedRows id sheet_id startIndex endIndex)) w)).

(** The id the service gives a new tab: any id not in use. *)
Definition fresh_sheet_id (ss : list sheet) : Z :=
  (1 + fold_right Z.max 0 (map sheetId ss))%Z.

(** [batchUpdate] with one [addSheet] request. *)
Definition batch_add_sheet (id tab : string) : M unit :=
  request (BatchUpdate id) id (fun ss =>
    match find_tab tab ss with
    | Some _ => None
    | None => Some (fun w =>
        (set_drive (<[id := ss ++ [Sheet (fresh_sheet_id ss) tab []]]> (drive w));;
         emit (AddedSheet id tab)) w)
    end).

(** ** The fingerprint ledger on disk *)

(** [with open(PROCESSED_HASHES_FILE, 'r') as f: json.load(f)] *)
Definition json_load : M (gmap string (list string)) := fun w =>
  match file w with
  | Stored d => (Ret d, w)
  | Malformed => (Raise JSONDecodeError, w)
  | Undecodable => (Raise UnicodeDecodeError, w)
  | Absent => (Raise FileNotFoundError, w)
  end.

Definition path_exists : M bool := fun w =>
  (Ret (match file w with Absent => false | _ => true end), w).

Definition load_processed_hashes : M (gmap string (list string)) :=
  present ← path_exists;
  if negb present then mret ∅
  else try_except json_load (except_JSONDecodeError (mret ∅)).

Definition save_processed_hashes (hashes : gmap string (list string)) : M unit :=
  set_file (Stored hashes);; emit (Saved hashes).

(** ** Address resolver, remote part *)

Definition truthy (s : string) : bool := negb (String.eqb s "").

Definition get_sheet_name_from_gid (spreadsheet_id : string) (gid : Z) : M (option string) :=
  try_except
    (meta ← spreadsheets_get spreadsheet_id;
     match find (fun sh => Z.eqb (sheetId sh) gid) meta with
     | Some sh => mret (Some (title sh))
     | None =>
         match meta with
         | sh :: _ => mret (Some (title sh))
         | [] => raise IndexError
         end
     end)
    (except_HttpError (mret None)).

(** ** Source catalog *)

Record source_info := SourceInfo { url : string; name : string }.

Definition enumerate {A} (start : nat) (l : list A) : list (nat * A) :=
  combine (seq start (length l)) l.

(** One turn of the loop over [enumerate(headers)]; [-1] stands for a column
    that was not found, and a later match replaces an earlier one. *)
Definition note_column (idx : Z * Z) (ih : nat * string) : Z * Z :=
  let header := snd ih in
  let i := Z.of_nat (fst ih) in
  (if String.eqb (strip header) COMPANY_COLUMN_NAME then i else fst idx,
   if String.eqb (strip header) URL_COLUMN_NAME then i else snd idx).

Definition find_columns (headers : row) : Z * Z :=
  fold_left note_column (enumerate 0 headers) ((-1)%Z, (-1)%Z).

(** One master row: the (url, company name) it contributes, if any. *)
Definition source_of_row (company_col_idx url_col_idx : nat) (r : row)
  : option (string * string) :=
  if blank_row r then None
  else if (length r <=? Nat.max company_col_idx url_col_idx)%nat then None
  else
    let company_name := strip (nth company_col_idx r "") in
    let cell_url_data := nth url_col_idx r "" in
    if negb (truthy company_name) || negb (truthy cell_url_data) then None
    else
      let url :=
        if contains "http" cell_url_data && contains "spreadsheets" cell_url_data
        then strip cell_url_data
        else match search_http_url cell_url_data with Some m => m | None => "" end in
      if truthy url then Some (url, company_name) else None.

(** Duplicated URLs are dropped, the first occurrence stays. *)
Definition unique_sources (urls_with_names : list (string * string)) : list source_info :=
  snd (fold_left
         (fun acc un =>
            if bool_decide (fst un ∈ fst acc) then acc
            else ({[fst un]} ∪ fst acc, snd acc ++ [SourceInfo (fst un) (snd un)]))
         urls_with_names ((∅ : gset string), [])).

Definition get_source_sheet_urls : M (list source_info) :=
  found ← try_except
    (header_res ← values_get MASTER_SPREADSHEET_ID MASTER_SHEET_NAME ROW_1;
     let headers := hd [] header_res in
     let idx := find_columns headers in
     if Z.eqb (fst idx) (-1) then mret None
     else if Z.eqb (snd idx) (-1) then mret None
     else
       values ← values_get MASTER_SPREADSHEET_ID MASTER_SHEET_NAME A2_ZZ;
       mret (Some (Z.to_nat (fst idx), Z.to_nat (snd idx), values)))
    (except_HttpError (mret None));
  match found with
  | None => mret []
  | Some (company_col_idx, url_col_idx, values) =>
      mret (unique_sources (omap (source_of_row company_col_idx url_col_idx) values))
  end.

(** ** Destination sheet *)

Definition prepare_target_sheet (headers : row) : M unit :=
  meta ← spreadsheets_get TARGET_SPREADSHEET_ID;
  (if negb (existsb (fun sh => String.eqb (title sh) TARGET_SHEET_NAME) meta)
   then batch_add_sheet TARGET_SPREADSHEET_ID TARGET_SHEET_NAME;; emit (Printed 221)
   else mret tt);;
  res ← try_except
    (values ← values_get TARGET_SPREADSHEET_ID TARGET_SHEET_NAME A1_A1; mret (Some values))
    (except_HttpError (emit (Printed 230);; mret None));
  match res with
  | None => mret tt
  | Some [] =>
      values_update TARGET_SPREADSHEET_ID TARGET_SHEET_NAME 0 [headers];; emit (Printed 242)
  | Some _ => emit (Printed 244)
  end.

Definition get_sheet_id_from_name (spreadsheet_id sheet_name : string) : M Z :=
  try_except
    (meta ← spreadsheets_get spreadsheet_id;
     match find_tab sheet_name meta with
     | Some sh => mret (sheetId sh)
     | None => mret 0%Z
     end)
    (except_HttpError (mret 0%Z)).

Definition append_rows (rows : list row) : M unit :=
  match rows with
  | [] => mret tt
  | _ =>
      try_except
        (current_values ← values_get TARGET_SPREADSHEET_ID TARGET_SHEET_NAME A_A;
         match current_values with
         | [] => values_update TARGET_SPREADSHEET_ID TARGET_SHEET_NAME 1 rows
         | _ =>
             sheet_id ← get_sheet_id_from_name TARGET_SPREADSHEET_ID TARGET_SHEET_NAME;
             batch_insert_rows TARGET_SPREADSHEET_ID sheet_id 1 (1 + length rows);;
             values_update TARGET_SPREADSHEET_ID TARGET_SHEET_NAME 1 rows
         end)
        (except_Exception (mret tt))
  end.

Definition fetch_entire_sheet (spreadsheet_id sheet_name : string) : M (list row) :=
  try_except (values_get spreadsheet_id sheet_name A_Q) (except_HttpError (mret [])).

(** [get_all_sheet_titles]: the title of every tab, none when the request
    fails. *)
Definition get_all_sheet_titles (spreadsheet_id : string) : M (list string) :=
  try_except
    (meta ← spreadsheets_get spreadsheet_id; mret (map title meta))
    (except_HttpError (mret [])).

(** ** The consolidation cycle *)

(** The variables [main] keeps across the sources of one run. *)
Record run_state := RunState {
  processed_hashes : gmap string (list string);
  all_new_rows_for_upload : list row;
  master_header_with_company : option row;
  newly_processed_this_run : gmap string (list string);
  headers_prepared_this_run : bool
}.

(** [str(gid)] *)
Definition str_of_int (z : Z) : string := NilZero.string_of_int (Z.to_int z).

(** [f"{ss_id}_{gid}"] *)
Definition source_key_of (ss_id : string) (gid : Z) : string :=
  ss_id +:+ "_" +:+ str_of_int gid.

(** [if k not in d: d[k] = []] *)
Definition setdefault_empty (k : string) (d : gmap string (list string))
  : gmap string (list string) :=
  match d !! k with Some _ => d | None => <[k := []]> d end.

(** [d[k].append(x)] *)
Definition append_at (k : string) (x : string) (d : gmap string (list string))
  : gmap string (list string) :=
  <[k := default [] (d !! k) ++ [x]]> d.

(** Lines 411-415: every data row whose fingerprint is not in the set built
    from the persisted list is new; its fingerprint joins the pending list. *)
Definition scan_data_rows (source_key : string) (existing_hashes_for_source : gset string)
    (data_rows : list row) (newly_processed : gmap string (list string))
  : list row * gmap string (list string) :=
  fold_left
    (fun acc r =>
       let row_hash := get_row_hash r in
       if bool_decide (row_hash ∈ existing_hashes_for_source) then acc
       else (fst acc ++ [r], append_at source_key row_hash (snd acc)))
    data_rows ([], newly_processed).

(** Lines 427-429. *)
Definition padded_with_company (header : row) (company_name : string) (r : row) : row :=
  let padded_row := r ++ repeat "" (length header - length r) in
  padded_row ++ [company_name].

(** One turn of the loop of lines 449-453. *)
Definition commit_one (acc : gmap string (list string)) (kv : string * list string)
  : gmap string (list string) :=
  match snd kv with
  | [] => acc
  | new_hashes =>
      <[fst kv := default [] (setdefault_empty (fst kv) acc !! fst kv) ++ new_hashes]> acc
  end.

(** Lines 449-453: the pending fingerprints join the ledger. *)
Definition commit (newly_processed hashes : gmap string (list string))
  : gmap string (list string) :=
  fold_left commit_one (map_to_list newly_processed) hashes.

(** Lines 436-459: the batch write and what follows it. *)
Definition flush (st : run_state) : M run_state :=
  prepared ←
    match headers_prepared_this_run st, master_header_with_company st with
    | false, Some headers => prepare_target_sheet headers;; mret true
    | prepared, _ => mret prepared
    end;
  append_rows (all_new_rows_for_upload st);;
  let hashes := commit (newly_processed_this_run st) (processed_hashes st) in
  save_processed_hashes hashes;;
  mret (RunState hashes [] (master_header_with_company st) ∅ prepared).

(** Lines 398-429, on the rows fetched from one source: the state they
    leave and the rows found new. *)
Definition collect (company_name source_key : string) (rows : list row) (st : run_state)
  : run_state * list row :=
  let header := hd [] rows in
  let data_rows := tl rows in
  let hashes := setdefault_empty source_key (processed_hashes st) in
  let existing_hashes_for_source : gset string :=
    list_to_set (default [] (hashes !! source_key)) in
  let scanned :=
    scan_data_rows source_key existing_hashes_for_source data_rows
      (setdefault_empty source_key (newly_processed_this_run st)) in
  match fst scanned with
  | [] =>
      (RunState hashes (all_new_rows_for_upload st) (master_header_with_company st)
         (snd scanned) (headers_prepared_this_run st), [])
  | newly_found_rows =>
      (RunState hashes
         (all_new_rows_for_upload st
          ++ map (padded_with_company header company_name) newly_found_rows)
         (match master_header_with_company st with
          | Some h => Some h
          | None => Some (header ++ ["Company Name"])
          end)
         (snd scanned) (headers_prepared_this_run st),
       newly_found_rows)
  end.

(** Lines 382-396: what the loop reads of a source, its key and its rows;
    [None] for a source that one of the first three [continue] statements
    skips. *)
Definition read_source (info : source_info) : M (option (string * list row)) :=
  ss_id_gid ← lift (extract_spreadsheet_info_from_url (url info));
  let gid := snd ss_id_gid in
  match fst ss_id_gid with
  | None => mret None
  | Some ss_id =>
      sheet_name ← get_sheet_name_from_gid ss_id gid;
      match sheet_name with
      | None => mret None
      | Some sheet_name =>
          if negb (truthy sheet_name) then mret None
          else
            rows ← fetch_entire_sheet ss_id sheet_name;
            if (length rows <=? 1)%nat then mret None
            else mret (Some (source_key_of ss_id gid, rows))
      end
  end.

(** The body of the loop over [enumerate(source_infos, start=1)]; each
    [continue] is a branch that hands the state on without reaching the
    batch write logic. *)
Definition process_source (total : nat) (st : run_state) (item : nat * source_info)
  : M run_state :=
  let ss_index := fst item in
  let company_name := name (snd item) in
  emit (Checking ss_index);;
  fetched ← read_source (snd item);
  match fetched with
  | None => mret st
  | Some (source_key, rows) =>
      let collected := collect company_name source_key rows st in
      let st' := fst collected in
      match snd collected with
      | [] => sleep 3;; mret st'
      | newly_found_rows =>
          emit (Found (length newly_found_rows));;
          sleep 3;;
          if negb (is_nil (all_new_rows_for_upload st'))
             && ((ss_index mod 25 =? 0)%nat || (ss_index =? total)%nat)
          then flush st'
          else mret st'
      end
  end.

(** The [for] loop of one run. *)
Definition run_sources (hashes : gmap string (list string)) (source_infos : list source_info)
  : M run_state :=
  for_each (process_source (length source_infos)) (enumerate 1 source_infos)
    (RunState hashes [] None ∅ false).

(** One turn of the [while True] loop of [main]. *)
Definition cycle : M unit :=
  hashes ← load_processed_hashes;
  source_infos ← get_source_sheet_urls;
  match source_infos with
  | [] => sleep (4 * 60 * 60)
  | _ => run_sources hashes source_infos;; sleep (4 * 60 * 60)
  end.

(** [main], cut after a number of turns of its endless loop. *)
Fixpoint poll (turns : nat) : M unit :=
  match turns with
  | O => mret tt
  | S n => cycle;; poll n
  end.

Definition main (turns : nat) : M unit :=
  if negb (truthy TARGET_SPREADSHEET_ID) then mret tt else poll turns.

(** ** Vocabulary of the statements *)

(** The rows of a fetch that [collect] finds new: those whose fingerprint is
    not in the list persisted for the source. *)
Definition new_rows (persisted : list string) (data_rows : list row) : list row :=
  filter (fun r => get_row_hash r ∉ persisted) data_rows.

(** The padding as the specification words it: up to a given column count,
    the one of the captured destination header. *)
Definition padded_to_columns (columns : nat) (company_name : string) (r : row) : row :=
  (r ++ repeat "" (columns - length r)) ++ [company_name].

(** The spreadsheets and the ledger file of two worlds agree. *)
Definition same_stores (w w' : world) : Prop := drive w' = drive w /\ file w' = file w.

(** The worlds agree on the requests that fail and on every spreadsheet but
    the destination. *)
Definition same_sources (w w' : world) : Prop :=
  faulty w' = faulty w
  /\ forall id, id <> TARGET_SPREADSHEET_ID -> drive w' !! id = drive w !! id.

(** A computation that changes no spreadsheet but the destination. *)
Definition keeps_sources {A} (m : M A) : Prop := forall w, same_sources w (snd (m w)).

(** A computation that changes nothing and whose result depends only on the
    requests that fail and on the spreadsheets other than the destination. *)
Definition reads_sources {A} (m : M A) : Prop :=
  (forall w, snd (m w) = w)
  /\ (forall w w', same_sources w w' -> fst (m w') = fst (m w)).

(** The source is not the destination spreadsheet itself. *)
Definition apart (info : source_info) : Prop :=
  forall gid, extract_spreadsheet_info_from_url (url info)
              <> Ret (Some TARGET_SPREADSHEET_ID, gid).

(** The fingerprints a dict lists for a key, none when the key is absent. *)
Definition listed (d : gmap string (list string)) (k : string) : list string :=
  default [] (d !! k).

(** The ledger that a later cycle loads from the file of [w]. *)
Definition stored (w : world) : gmap string (list string) :=
  match file w with Stored d => d | _ => ∅ end.

(** What holds between the sources of a run: the sources taken up so far
    were read without an exception, the fingerprint of each of their data
    rows is persisted or pending, an empty batch has no fingerprint pending,
    and the ledger in memory lists what the file lists. *)
Definition covered (w0 : world) (done : list source_info)
    (hashes pending : gmap string (list string)) : Prop :=
  forall info k rows r,
    info ∈ done -> fst (read_source info w0) = Ret (Some (k, rows)) -> r ∈ tl rows ->
    get_row_hash r ∈ listed hashes k ++ listed pending k.

Record run_inv (w0 : world) (done : list source_info) (st : run_state) (w : world) : Prop := {
  inv_sources : same_sources w0 w;
  inv_read : forall info, info ∈ done -> exists v, fst (read_source info w0) = Ret v;
  inv_covered : covered w0 done (processed_hashes st) (newly_processed_this_run st);
  inv_pending : all_new_rows_for_upload st = [] ->
    forall k, listed (newly_processed_this_run st) k = [];
  inv_file : file w <> Undecodable;
  inv_stored : forall k, listed (processed_hashes st) k = listed (stored w) k
}.

(** The events of a cycle that finds nothing new and writes nothing. *)
Definition idle_event (e : event) : Prop :=
  match e with Checking _ | Slept _ => True | _ => False end.

Record idle_inv (w1 : world) (st : run_state) (w : world) : Prop := {
  idle_drive : drive w = drive w1;
  idle_faulty : faulty w = faulty w1;
  idle_file : file w = file w1;
  idle_trace : exists t, trace w = trace w1 ++ t /\ Forall idle_event t;
  idle_batch : all_new_rows_for_upload st = [];
  idle_ledger : forall k, listed (processed_hashes st) k = listed (stored w1) k
}.

(** ** Vocabulary of the further properties *)

(** Every character of [s] is in the class. *)
Definition all_chars (cls : ascii -> bool) (s : string) : bool :=
  forallb cls (list_ascii_of_string s).

(** [s] starts with a character of the class. *)
Definition starts_with_class (cls : ascii -> bool) (s : string) : bool :=
  match s with String c _ => cls c | EmptyString => false end.

(** The ASCII digits, and the values of a string of them. *)
Definition ascii_digit (c : ascii) : bool := in_range "0" "9" c.

Definition ascii_digit_values (digits : string) : list Z :=
  map (fun c => (byte_of c - 48)%Z) (list_ascii_of_string digits).

(** [s] starts with a decimal digit, of whatever script. *)
Definition starts_with_decimal (s : string) : bool :=
  negb (is_nil (decimal_run 1 (bytes_of s))).

(** [z] is the position of the last header that reads [name] once stripped,
    [-1] when no header does. *)
Definition last_match (name : string) (headers : row) (z : Z) : Prop :=
  (z = (-1)%Z /\ name ∉ map strip headers)
  \/ exists j : nat, z = Z.of_nat j /\ map strip headers !! j = Some name
       /\ forall j' : nat, (j < j')%nat -> map strip headers !! j' <> Some name.

(** The pair that stands for the dict [{'url': u, 'name': n}]. *)
Definition source_of_pair (un : string * string) : source_info :=
  SourceInfo (fst un) (snd un).

(** The cell A1 of a grid, blank outside the stored cells. *)
Definition cell_A1 (g : list row) : string := hd "" (hd [] g).

(** The cells of a tab of a spreadsheet, none for a tab that is not there. *)
Definition tab_cells (tab : string) (ss : list sheet) : list row :=
  default [] (cells <$> find_tab tab ss).

(** The world after the print of the given line of [prepare_target_sheet]. *)
Definition printed (line : nat) (w : world) : world :=
  World (drive w) (faulty w) (file w) (trace w ++ [Printed line]).

(** A computation that takes every world to one related to it by [R]. *)
Definition preserves {A} (R : world -> world -> Prop) (m : M A) : Prop :=
  forall w, R w (snd (m w)).

(** The ledger file of two worlds is the same. *)
Definition same_file (w w' : world) : Prop := file w' = file w.

(** What identifies a tab and heads it: its id, its title and its first
    row. *)
Definition headline (sh : sheet) : Z * string * row :=
  (sheetId sh, title sh, hd [] (cells sh)).

(** The tabs of every spreadsheet are the same, with the same first rows. *)
Definition same_headlines (w w' : world) : Prop :=
  map headline <$> drive w' = map headline <$> drive w.


(** The index of a source at which the loop may flush. *)
Definition flush_point (total ss_index : nat) : Prop :=
  (ss_index mod 25 = 0 \/ ss_index = total)%nat.

(** Taking up the source [info] as number [ss_index] of [total] reaches the
    batch write: the index is a flush point, the source is read, and some
    of its rows are found new. *)
Definition reaches_flush (total ss_index : nat) (info : source_info) (st : run_state)
    (w : world) : Prop :=
  flush_point total ss_index
  /\ exists source_key rows,
       fst (read_source info w) = Ret (Some (source_key, rows))
       /\ snd (collect (name info) source_key rows st) <> [].

(** How many fingerprints a dict holds, over all its keys. *)
Definition pending_count (d : gmap string (list string)) : nat :=
  map_fold (fun _ l n => (length l + n)%nat) 0%nat d.

(** ** Worlds used in the examples *)

Definition sheet_url (id : string) : string :=
  "https://docs.google.com/spreadsheets/d/" +:+ id +:+ "/edit#gid=0".

(** A master tab that lists the given (company, spreadsheet id) pairs. *)
Definition master_listing (companies : list (string * string)) : list sheet :=
  [Sheet 0 MASTER_SHEET_NAME
     ([COMPANY_COLUMN_NAME; URL_COLUMN_NAME]
      :: map (fun c => [fst c; sheet_url (snd c)]) companies)].

Definition no_fault (c : call) : bool := false.

Definition world_of (master target : list sheet) (sources : list (string * list sheet))
    (faults : call -> bool) (f : ledger_file) : world :=
  World (<[MASTER_SPREADSHEET_ID := master]>
           (<[TARGET_SPREADSHEET_ID := target]> (list_to_map sources)))
        faults f [].

Definition one_tab (g : list row) : list sheet := [Sheet 0 "Appointments" g].

Definition target_cells (w : world) : option (list row) :=
  ss ← drive w !! TARGET_SPREADSHEET_ID; cells <$> find_tab TARGET_SHEET_NAME ss.

(** Two sources; the first holds one appointment, the second only its
    header row. *)
Definition quiet_last_source : world :=
  world_of (master_listing [("Acme", "srcA"); ("Bolt", "srcB")])
    [Sheet 0 TARGET_SHEET_NAME []]
    [("srcA", one_tab [["Name"; "Date"]; ["Ann"; "Mon"]]);
     ("srcB", one_tab [["Name"; "Date"]])]
    no_fault Absent.

(** One source with one appointment, a destination that has its header. *)
Definition one_appointment (faults : call -> bool) (f : ledger_file) : world :=
  world_of (master_listing [("Acme", "srcA")])
    [Sheet 0 TARGET_SHEET_NAME [["Name"; "Date"; "Company Name"]; ["Old"; "Sun"; "Acme"]]]
    [("srcA", one_tab [["Name"; "Date"]; ["Ann"; "Mon"]])]
    faults f.

(** The data write into the destination fails, nothing else does. *)
Definition write_fails (c : call) : bool :=
  match c with
  | ValuesUpdate id _ 1 => String.eqb id TARGET_SPREADSHEET_ID
  | _ => false
  end.

(** The structural edit of the destination fails, nothing else does. *)
Definition insert_fails (c : call) : bool :=
  match c with
  | BatchUpdate id => String.eqb id TARGET_SPREADSHEET_ID
  | _ => false
  end.

(** One source whose column A is unused: its header row and its data rows
    start with a blank cell. The destination holds the given rows. *)
Definition blank_column_source (data target : list row) (f : ledger_file) : world :=
  world_of (master_listing [("Acme", "srcA")])
    [Sheet 0 TARGET_SHEET_NAME target]
    [("srcA", one_tab ([""; "Name"] :: data))]
    no_fault f.

(** The destination header that such a source gives. *)
Definition unused_column_header : row := [""; "Name"; "Company Name"].

(** The world after a first cycle, over a source that holds the row of Ann
    and an empty destination, and the world after a second cycle, over the
    source with one more row, the destination that the first cycle left,
    and its ledger file. *)
Definition first_delivery : world :=
  snd (cycle (blank_column_source [[""; "Ann"]] [] Absent)).

Definition second_delivery : world :=
  snd (cycle (blank_column_source [[""; "Ann"]; [""; "Bob"]]
                [unused_column_header; [""; "Ann"; "Acme"]] (file first_delivery))).

(** Two sources whose header rows differ in width. *)
Definition two_widths : world :=
  world_of (master_listing [("Acme", "srcA"); ("Bolt", "srcB")])
    [Sheet 0 TARGET_SHEET_NAME []]
    [("srcA", one_tab [["Name"; "Date"; "Phone"]; ["Ann"]]);
     ("srcB", one_tab [["Name"]; ["Bob"]])]
    no_fault Absent.

(** A master tab without the company column. *)
Definition no_company_column : world :=
  world_of [Sheet 0 MASTER_SHEET_NAME
              [["Client"; URL_COLUMN_NAME]; ["Acme"; sheet_url "srcA"]]]
    [Sheet 0 TARGET_SHEET_NAME []]
    [("srcA", one_tab [["Name"; "Date"]; ["Ann"; "Mon"]])]
    no_fault Absent.

(** [n] sources, each with a header row and one appointment of its own. *)
Definition numbered (n : nat) : list nat := seq 1 n.
Definition source_id (i : nat) : string := "src" +:+ str_of_int (Z.of_nat i).

Definition many_sources (n : nat) : world :=
  world_of
    (master_listing (map (fun i => ("Company " +:+ str_of_int (Z.of_nat i), source_id i))
                         (numbered n)))
    [Sheet 0 TARGET_SHEET_NAME []]
    (map (fun i => (source_id i,
                    one_tab [["Name"]; ["Client " +:+ str_of_int (Z.of_nat i)]]))
         (numbered n))
    no_fault Absent.

(** [n] sources with one appointment each, then one source that holds only
    its header row. *)
Definition sources_then_quiet (n : nat) : world :=
  world_of
    (master_listing (map (fun i => ("Company " +:+ str_of_int (Z.of_nat i), source_id i))
                         (numbered (S n))))
    [Sheet 0 TARGET_SHEET_NAME []]
    (map (fun i => (source_id i,
                    one_tab (["Name"]
                             :: if (i <=? n)%nat
                                then [["Client " +:+ str_of_int (Z.of_nat i)]] else [])))
         (numbered (S n)))
    no_fault Absent.

(** The world as a later cycle meets it, with a trace of its own. *)
Definition later (w : world) : world := World (drive w) (faulty w) (file w) [].

(** How many rows a trace reports as found new. *)
Definition rows_found_new (t : list event) : nat :=
  fold_right (fun e n => match e with Found k => (k + n)%nat | _ => n end) 0%nat t.

(** The outline of a trace: which source was taken up, when rows were
    written below the destination's header, when the ledger was saved. *)
Inductive mark := Source (ss_index : nat) | Write (rows : nat) | Persist.

Definition mark_of (e : event) : option mark :=
  match e with
  | Checking i => Some (Source i)
  | Updated id _ 1 values =>
      if String.eqb id TARGET_SPREADSHEET_ID then Some (Write (length values)) else None
  | Saved _ => Some Persist
  | _ => None
  end.

Definition outline (t : list event) : list mark := omap mark_of t.

(** A run state with one row in the batch and its fingerprint pending. *)
Definition one_pending : run_state :=
  RunState ∅ [["Ann"; "Mon"; "Acme"]] (Some ["Name"; "Date"; "Company Name"])
    {["srcA_0" := [get_row_hash ["Ann"; "Mon"]]]} false.

(** What [m] returns in [w], [a] when it raises. *)
Definition result_or {A} (a : A) (m : M A) (w : world) : A :=
  match fst (m w) with Ret x => x | Raise _ => a end.

(** * Properties *)

(** The digest agrees with hashlib on the empty message, on a one-block
    message and on a two-block message. *)
Example sha256_empty :
  sha256_hexdigest "" = "e3b0c44298fc1c149afbf4c8996fb92427ae41e4649b934ca495991b7852b855".
Proof. vm_compute. reflexivity. Qed.

Example sha256_abc :
  sha256_hexdigest "abc" = "ba7816bf8f01cfea414140de5dae2223b00361a396177a9cb410ff61f20015ad".
Proof. vm_compute. reflexivity. Qed.

Example sha256_two_blocks :
  sha256_hexdigest "abcdbcdecdefdefgefghfghighijhijkijkljklmklmnlmnomnopnopq"
  = "248d6a61d20638b8e5c026930c3e6039a33ce45964ff2167f6ecedd419db06c1".
Proof. vm_compute. reflexivity. Qed.

Example extract_normal :
  extract_spreadsheet_info_from_url
    "https://docs.google.com/spreadsheets/d/1AbC-d_9/edit#gid=42"
  = Ret (Some "1AbC-d_9", 42%Z).
Proof. vm_compute. reflexivity. Qed.

Example extract_alternate :
  extract_spreadsheet_info_from_url "https://drive.google.com/open?id=xyz"
  = Ret (Some "xyz", 0%Z).
Proof. vm_compute. reflexivity. Qed.

Example strip_example : strip "  Company	 " = "Company".
Proof. vm_compute. reflexivity. Qed.

Example search_http_url_example :
  search_http_url "see https://x.y/z now" = Some "https://x.y/z".
Proof. vm_compute. reflexivity. Qed.

(** ** Fingerprints *)

Lemma get_row_hash_concat (r1 r2 : row) :
  String.concat "" r1 = String.concat "" r2 -> get_row_hash r1 = get_row_hash r2.
Proof. unfold get_row_hash. intros ->. reflexivity. Qed.

(** What the loop of lines 411-415 computes, with an arbitrary start. *)
Lemma scan_data_rows_from (source_key : string) (existing : gset string)
    (data_rows found : list row) (pending : gmap string (list string)) :
  fold_left
    (fun acc r =>
       if bool_decide (get_row_hash r ∈ existing) then acc
       else (fst acc ++ [r], append_at source_key (get_row_hash r) (snd acc)))
    data_rows (found, pending)
  = (found ++ filter (fun r => get_row_hash r ∉ existing) data_rows,
     fold_left (fun m h => append_at source_key h m)
       (map get_row_hash (filter (fun r => get_row_hash r ∉ existing) data_rows)) pending).
Proof.
  revert found pending.
  induction data_rows as [|r rows IH]; intros found pending; simpl.
  - rewrite app_nil_r. reflexivity.
  - rewrite filter_cons. case_bool_decide as Hin.
    + rewrite decide_False by (intros Hn; exact (Hn Hin)). apply IH.
    + rewrite decide_True by exact Hin. rewrite IH. simpl.
      rewrite <- app_assoc. reflexivity.
Qed.

Lemma append_at_all (source_key : string) (hs : list string) :
  forall pending : gmap string (list string),
    hs <> [] ->
    fold_left (fun m h => append_at source_key h m) hs pending
    = <[source_key := default [] (pending !! source_key) ++ hs]> pending.
Proof.
  induction hs as [|h hs IH]; intros pending Hne; [congruence|].
  simpl. destruct hs as [|h' hs].
  - reflexivity.
  - rewrite IH by discriminate. unfold append_at.
    rewrite lookup_insert_eq, insert_insert_eq. simpl.
    rewrite <- app_assoc. reflexivity.
Qed.

Lemma scan_data_rows_new (source_key : string) (existing : gset string)
    (data_rows : list row) (pending : gmap string (list string)) :
  fst (scan_data_rows source_key existing data_rows pending)
  = filter (fun r => get_row_hash r ∉ existing) data_rows.
Proof. unfold scan_data_rows. rewrite scan_data_rows_from. reflexivity. Qed.

Lemma scan_data_rows_pending (source_key : string) (existing : gset string)
    (data_rows : list row) (pending : gmap string (list string)) (old : list string) :
  pending !! source_key = Some old ->
  snd (scan_data_rows source_key existing data_rows pending) !! source_key
  = Some (old ++ map get_row_hash (filter (fun r => get_row_hash r ∉ existing) data_rows)).
Proof.
  intros Hold. unfold scan_data_rows. rewrite scan_data_rows_from. simpl.
  destruct (map get_row_hash (filter (fun r => get_row_hash r ∉ existing) data_rows))
    as [|h hs] eqn:E.
  - simpl. rewrite app_nil_r. exact Hold.
  - rewrite append_at_all by discriminate.
    rewrite lookup_insert_eq, Hold. reflexivity.
Qed.

Lemma setdefault_empty_lookup (k : string) (d : gmap string (list string)) :
  setdefault_empty k d !! k = Some (default [] (d !! k)).
Proof.
  unfold setdefault_empty. destruct (d !! k) as [l|] eqn:E; simpl.
  - exact E.
  - apply lookup_insert_eq.
Qed.

Lemma filter_ext_elem {A} (P Q : A -> Prop) `{!forall x, Decision (P x)}
    `{!forall x, Decision (Q x)} (l : list A) :
  (forall x, P x <-> Q x) -> filter P l = filter Q l.
Proof.
  intros Hiff. induction l as [|x l IH]; [reflexivity|].
  rewrite !filter_cons. destruct (decide (P x)) as [p|p], (decide (Q x)) as [q|q].
  - f_equal. exact IH.
  - destruct q. apply Hiff. exact p.
  - destruct p. apply Hiff. exact q.
  - exact IH.
Qed.

Lemma collect_found (company_name source_key : string) (rows : list row) (st : run_state) :
  snd (collect company_name source_key rows st)
  = new_rows (default [] (processed_hashes st !! source_key)) (tl rows).
Proof.
  unfold collect, new_rows. rewrite scan_data_rows_new, setdefault_empty_lookup. simpl.
  rewrite (filter_ext_elem _ (fun r => get_row_hash r ∉ default [] (processed_hashes st !! source_key))).
  2:{ intros r. rewrite elem_of_list_to_set. reflexivity. }
  destruct (filter _ (tl rows)); reflexivity.
Qed.

Lemma collect_batch (company_name source_key : string) (rows : list row) (st : run_state) :
  all_new_rows_for_upload (fst (collect company_name source_key rows st))
  = all_new_rows_for_upload st
    ++ map (padded_with_company (hd [] rows) company_name)
           (new_rows (default [] (processed_hashes st !! source_key)) (tl rows)).
Proof.
  rewrite <- (collect_found company_name). unfold collect.
  destruct (fst (scan_data_rows _ _ _ _)); simpl.
  - rewrite app_nil_r. reflexivity.
  - reflexivity.
Qed.

Lemma collect_pending (company_name source_key : string) (rows : list row) (st : run_state) :
  newly_processed_this_run (fst (collect company_name source_key rows st)) !! source_key
  = Some (default [] (newly_processed_this_run st !! source_key)
          ++ map get_row_hash
               (new_rows (default [] (processed_hashes st !! source_key)) (tl rows))).
Proof.
  rewrite <- (collect_found company_name).
  assert (Hp := scan_data_rows_pending source_key
    (list_to_set (default [] (setdefault_empty source_key (processed_hashes st) !! source_key)))
    (tl rows) _ _ (setdefault_empty_lookup source_key (newly_processed_this_run st))).
  unfold collect.
  rewrite scan_data_rows_new in *.
  destruct (filter _ (tl rows)) eqn:E; simpl; exact Hp.
Qed.

(** C10: rows whose cells concatenate to the same text get the same
    fingerprint, so once the fingerprint of one of them is in the list
    persisted for a source, the other is not among the rows [collect] finds
    new there. The witness below takes the distinct rows ['ab', ''] and
    ['a', 'b']. *)
Theorem colliding_rows_share_fingerprint (r1 r2 : row) (company_name source_key : string)
    (rows : list row) (st : run_state) :
  String.concat "" r1 = String.concat "" r2 ->
  get_row_hash r1 ∈ default [] (processed_hashes st !! source_key) ->
  get_row_hash r1 = get_row_hash r2
  /\ r2 ∉ snd (collect company_name source_key rows st).
Proof.
  intros Hcat Hin. pose proof (get_row_hash_concat r1 r2 Hcat) as Hh.
  split; [exact Hh|].
  rewrite collect_found. unfold new_rows. rewrite list_elem_of_filter.
  intros [Hnew _]. apply Hnew. rewrite <- Hh. exact Hin.
Qed.

(** The rows ['ab', ''] and ['a', 'b'] are such a pair. *)
Lemma colliding_rows_witness :
  ["ab"; ""] <> ["a"; "b"]
  /\ get_row_hash ["ab"; ""] = get_row_hash ["a"; "b"]
  /\ ["a"; "b"] ∉ snd (collect "Acme" "srcA_0" [["Name"; "Date"]; ["a"; "b"]]
                         (RunState {["srcA_0" := [get_row_hash ["ab"; ""]]]} [] None ∅ false)).
Proof.
  split; [discriminate|].
  apply (colliding_rows_share_fingerprint ["ab"; ""] ["a"; "b"]).
  - reflexivity.
  - cbn [processed_hashes]. rewrite lookup_singleton_eq. simpl. left.
Defined.

(** C2, as stated, fails: a row that occurs twice in one fetch is found new
    twice, is pushed into the batch twice, and its fingerprint is pending
    twice. *)
Lemma repeated_row_flagged_twice :
  let collected :=
    collect "Acme" "srcA_0" [["Name"]; ["Ann"]; ["Ann"]] (RunState ∅ [] None ∅ false) in
  snd collected = [["Ann"]; ["Ann"]]
  /\ all_new_rows_for_upload (fst collected) = [["Ann"; "Acme"]; ["Ann"; "Acme"]]
  /\ newly_processed_this_run (fst collected) !! "srcA_0"
     = Some [get_row_hash ["Ann"]; get_row_hash ["Ann"]].
Proof. vm_compute. repeat split. Qed.

(** C2, amended: the rows found new in a fetch are exactly the data rows
    whose fingerprint is not in the list persisted for the source, one entry
    per occurrence; each of them adds one row to the batch and one
    fingerprint to the source's pending list, which is kept apart from the
    persisted list (the latter is left as it was). *)
Theorem every_new_occurrence_is_flagged (company_name source_key : string)
    (header : row) (data_rows : list row) (st : run_state) :
  let persisted := default [] (processed_hashes st !! source_key) in
  let collected := collect company_name source_key (header :: data_rows) st in
  let found := filter (fun r => get_row_hash r ∉ persisted) data_rows in
  snd collected = found
  /\ length (all_new_rows_for_upload (fst collected))
     = (length (all_new_rows_for_upload st) + length found)%nat
  /\ newly_processed_this_run (fst collected) !! source_key
     = Some (default [] (newly_processed_this_run st !! source_key) ++ map get_row_hash found)
  /\ processed_hashes (fst collected) !! source_key = Some persisted.
Proof.
  cbv zeta. repeat split.
  - apply collect_found.
  - rewrite collect_batch. rewrite length_app, length_map. reflexivity.
  - apply collect_pending.
  - unfold collect.
    destruct (fst (scan_data_rows _ _ _ _)); simpl; apply setdefault_empty_lookup.
Qed.

(** C4, as stated, fails: the destination header is captured from the first
    source (four columns with the company column), and the row of the second,
    narrower source reaches the destination with two cells: it was padded
    neither to the four columns of that header nor to the three it has
    without the company column. *)
Lemma narrow_source_not_padded_to_destination_header :
  target_cells (snd (cycle two_widths))
  = Some [["Name"; "Date"; "Phone"; "Company Name"];
          ["Ann"; ""; ""; "Acme"];
          ["Bob"; "Bolt"]]
  /\ padded_to_columns 4 "Bolt" ["Bob"] <> ["Bob"; "Bolt"]
  /\ padded_to_columns 3 "Bolt" ["Bob"] <> ["Bob"; "Bolt"].
Proof. split; [vm_compute; reflexivity|]. split; discriminate. Qed.

(** C4, amended: every row found new is pushed into the batch padded on the
    right with empty cells up to the column count of the header row of its
    own source, followed by the source's display name; a row at least as long
    as that header is pushed unchanged before the name. *)
Theorem new_rows_padded_to_source_header (company_name source_key : string)
    (header : row) (data_rows : list row) (st : run_state) :
  all_new_rows_for_upload (fst (collect company_name source_key (header :: data_rows) st))
  = all_new_rows_for_upload st
    ++ map (fun r => (r ++ repeat "" (length header - length r)) ++ [company_name])
           (snd (collect company_name source_key (header :: data_rows) st))
  /\ forall r : row,
       (length r <= length header ->
        length (r ++ repeat "" (length header - length r)) = length header)
       /\ (length header <= length r -> r ++ repeat "" (length header - length r) = r).
Proof.
  split.
  - rewrite collect_batch, collect_found. reflexivity.
  - intros r. split; intros Hle.
    + rewrite length_app, repeat_length. lia.
    + replace (length header - length r)%nat with 0%nat by lia. apply app_nil_r.
Qed.

(** ** The ledger file *)

Lemma load_absent (w : world) : file w = Absent -> load_processed_hashes w = (Ret ∅, w).
Proof.
  intros Hf. unfold load_processed_hashes, path_exists, mbind, M_bind. rewrite Hf. reflexivity.
Qed.

Lemma load_malformed (w : world) :
  file w = Malformed -> load_processed_hashes w = (Ret ∅, w).
Proof.
  intros Hf. unfold load_processed_hashes, path_exists, mbind, M_bind. rewrite Hf. simpl.
  unfold try_except, json_load. rewrite Hf. reflexivity.
Qed.

Lemma load_stored (w : world) (d : gmap string (list string)) :
  file w = Stored d -> load_processed_hashes w = (Ret d, w).
Proof.
  intros Hf. unfold load_processed_hashes, path_exists, mbind, M_bind. rewrite Hf. simpl.
  unfold try_except, json_load. rewrite Hf. reflexivity.
Qed.

(** C8 fails on the code: a ledger file whose bytes cannot be decoded as text
    makes [json.load] raise [UnicodeDecodeError], which the handler for
    [JSONDecodeError] does not catch; the exception leaves
    [load_processed_hashes] and ends the cycle and the polling loop. *)
Theorem undecodable_ledger_is_fatal (d : gmap string (list sheet)) (faults : call -> bool)
    (t : list event) (turns : nat) :
  let w := World d faults Undecodable t in
  load_processed_hashes w = (Raise UnicodeDecodeError, w)
  /\ cycle w = (Raise UnicodeDecodeError, w)
  /\ main (S turns) w = (Raise UnicodeDecodeError, w).
Proof. cbv zeta. repeat split. Qed.

(** ** The poll scheduler *)

(** C9, as stated, fails: the cycle that finds no source and the cycle that
    passes over a catalog of one source end with the same sleep of 14400
    seconds, so the former is not the shorter one. *)
Lemma empty_catalog_sleep_not_shorter :
  fst (get_source_sheet_urls no_company_column) = Ret []
  /\ last (trace (snd (cycle no_company_column))) = Some (Slept 14400)
  /\ fst (get_source_sheet_urls (one_appointment no_fault Absent))
     = Ret [SourceInfo (sheet_url "srcA") "Acme"]
  /\ last (trace (snd (cycle (one_appointment no_fault Absent)))) = Some (Slept 14400)
  /\ ~ (14400 < 14400)%Z.
Proof. repeat split; try (vm_compute; reflexivity). lia. Qed.

(** C9, amended: a cycle that returns ends with a sleep of 4 * 60 * 60
    seconds, the same interval whether it found no source or passed over the
    whole catalog. *)
Theorem cycle_sleeps_four_hours (w w' : world) :
  cycle w = (Ret tt, w') -> last (trace w') = Some (Slept (4 * 60 * 60)).
Proof.
  unfold cycle, mbind, M_bind.
  destruct (load_processed_hashes w) as [[hashes|e] w1]; [|discriminate].
  destruct (get_source_sheet_urls w1) as [[[|s sources]|e] w2]; [| |discriminate].
  - unfold sleep, emit. intros [= <-]. simpl. apply last_snoc.
  - destruct (run_sources hashes (s :: sources) w2) as [[st|e] w3]; [|discriminate].
    unfold sleep, emit. intros [= <-]. simpl. apply last_snoc.
Qed.

(** Both kinds of cycle, on the catalog without a company column and on the
    catalog of one source. *)
Lemma cycle_sleeps_four_hours_witness :
  last (trace (snd (cycle no_company_column))) = Some (Slept (4 * 60 * 60))
  /\ last (trace (snd (cycle (one_appointment no_fault Absent)))) = Some (Slept (4 * 60 * 60)).
Proof.
  split.
  - apply (cycle_sleeps_four_hours no_company_column). vm_compute. reflexivity.
  - apply (cycle_sleeps_four_hours (one_appointment no_fault Absent)). vm_compute. reflexivity.
Defined.

(** ** The source catalog *)

(** Reading from the service leaves the world as it was. *)
Lemma values_get_pure (id tab : string) (rng : range) (w : world) :
  snd (values_get id tab rng w) = w.
Proof.
  unfold values_get, request.
  destruct (faulty w (Transport _)); [reflexivity|].
  destruct (faulty w _); [reflexivity|].
  destruct (drive w !! id) as [ss|]; [|reflexivity].
  destruct (find_tab tab ss); reflexivity.
Qed.

Lemma load_processed_hashes_pure (w : world) : snd (load_processed_hashes w) = w.
Proof.
  destruct (file w) as [| | |d] eqn:E.
  - rewrite load_absent by exact E. reflexivity.
  - unfold load_processed_hashes, path_exists, mbind, M_bind, try_except, json_load.
    rewrite E. simpl. rewrite E. reflexivity.
  - rewrite load_malformed by exact E. reflexivity.
  - rewrite (load_stored w d) by exact E. reflexivity.
Qed.

Lemma note_columns_company (headers : row) :
  forall (n : nat) (idx : Z * Z),
    COMPANY_COLUMN_NAME ∉ map strip headers ->
    fst (fold_left note_column (combine (seq n (length headers)) headers) idx) = fst idx.
Proof.
  induction headers as [|h hs IH]; intros n idx Hno; [reflexivity|].
  simpl. rewrite IH.
  - simpl. destruct (String.eqb_spec (strip h) COMPANY_COLUMN_NAME) as [E|E]; [|reflexivity].
    destruct Hno. simpl. rewrite E. left.
  - intros Hin. apply Hno. simpl. right. exact Hin.
Qed.

Lemma note_columns_url (headers : row) :
  forall (n : nat) (idx : Z * Z),
    URL_COLUMN_NAME ∉ map strip headers ->
    snd (fold_left note_column (combine (seq n (length headers)) headers) idx) = snd idx.
Proof.
  induction headers as [|h hs IH]; intros n idx Hno; [reflexivity|].
  simpl. rewrite IH.
  - simpl. destruct (String.eqb_spec (strip h) URL_COLUMN_NAME) as [E|E]; [|reflexivity].
    destruct Hno. simpl. rewrite E. left.
  - intros Hin. apply Hno. simpl. right. exact Hin.
Qed.

Lemma catalog_empty_without_column (w : world) (header_res : list row) :
  fst (values_get MASTER_SPREADSHEET_ID MASTER_SHEET_NAME ROW_1 w) = Ret header_res ->
  COMPANY_COLUMN_NAME ∉ map strip (hd [] header_res)
  \/ URL_COLUMN_NAME ∉ map strip (hd [] header_res) ->
  get_source_sheet_urls w = (Ret [], w).
Proof.
  intros Hfst Hno.
  assert (Hget : values_get MASTER_SPREADSHEET_ID MASTER_SHEET_NAME ROW_1 w = (Ret header_res, w)).
  { pose proof (values_get_pure MASTER_SPREADSHEET_ID MASTER_SHEET_NAME ROW_1 w) as Hpure.
    destruct (values_get MASTER_SPREADSHEET_ID MASTER_SHEET_NAME ROW_1 w) as [o w'].
    simpl in Hfst, Hpure. subst. reflexivity. }
  unfold get_source_sheet_urls, mbind, M_bind, try_except. rewrite Hget.
  unfold find_columns, enumerate.
  destruct (Z.eqb_spec
    (fst (fold_left note_column (combine (seq 0 (length (hd [] header_res))) (hd [] header_res))
            ((-1)%Z, (-1)%Z))) (-1)) as [Ec|Ec]; [reflexivity|].
  destruct (Z.eqb_spec
    (snd (fold_left note_column (combine (seq 0 (length (hd [] header_res))) (hd [] header_res))
            ((-1)%Z, (-1)%Z))) (-1)) as [Eu|Eu]; [reflexivity|].
  destruct Hno as [Hno|Hno].
  - destruct Ec. rewrite note_columns_company by exact Hno. reflexivity.
  - destruct Eu. rewrite note_columns_url by exact Hno. reflexivity.
Qed.

(** C7: when the header row read from the master tab has no cell that is,
    once stripped, the company column name, or none that is the URL column
    name, the catalog is empty, and the cycle leaves every spreadsheet (the
    destination among them) and the ledger file as they were: all it adds to
    the trace is a sleep. *)
Theorem missing_column_fails_closed (w : world) (header_res : list row) :
  fst (values_get MASTER_SPREADSHEET_ID MASTER_SHEET_NAME ROW_1 w) = Ret header_res ->
  COMPANY_COLUMN_NAME ∉ map strip (hd [] header_res)
  \/ URL_COLUMN_NAME ∉ map strip (hd [] header_res) ->
  get_source_sheet_urls w = (Ret [], w)
  /\ drive (snd (cycle w)) = drive w
  /\ file (snd (cycle w)) = file w
  /\ (trace (snd (cycle w)) = trace w
      \/ trace (snd (cycle w)) = trace w ++ [Slept (4 * 60 * 60)]).
Proof.
  intros Hget Hno.
  pose proof (catalog_empty_without_column w header_res Hget Hno) as Hcat.
  split; [exact Hcat|].
  unfold cycle, mbind, M_bind.
  pose proof (load_processed_hashes_pure w) as Hload.
  destruct (load_processed_hashes w) as [[hashes|e] w1]; simpl in Hload; subst w1.
  - rewrite Hcat. simpl. repeat split. right. reflexivity.
  - simpl. repeat split. left. reflexivity.
Qed.

(** A master tab whose header row reads Client, Appointment Spreadsheet:. *)
Lemma missing_column_witness :
  get_source_sheet_urls no_company_column = (Ret [], no_company_column)
  /\ drive (snd (cycle no_company_column)) = drive no_company_column
  /\ file (snd (cycle no_company_column)) = file no_company_column
  /\ (trace (snd (cycle no_company_column)) = trace no_company_column
      \/ trace (snd (cycle no_company_column))
         = trace no_company_column ++ [Slept (4 * 60 * 60)]).
Proof.
  apply (missing_column_fails_closed no_company_column [["Client"; URL_COLUMN_NAME]]).
  - vm_compute. reflexivity.
  - left. intros H. apply list_elem_of_In in H. vm_compute in H.
    destruct H as [H|[H|[]]]; discriminate H.
Defined.

(** ** The destination sheet *)

Lemma request_ok {A} (c : call) (id : string) (k : list sheet -> option (M A))
    (w : world) (ss : list sheet) (m : M A) :
  faulty w (Transport c) = false -> faulty w c = false ->
  drive w !! id = Some ss -> k ss = Some m ->
  request c id k w = m w.
Proof. intros Ht Hf Hd Hk. unfold request. rewrite Ht, Hf, Hd, Hk. reflexivity. Qed.

Lemma values_get_ok (id tab : string) (rng : range) (w : world) (ss : list sheet) (sh : sheet) :
  faulty w (Transport (ValuesGet id tab rng)) = false ->
  faulty w (ValuesGet id tab rng) = false -> drive w !! id = Some ss ->
  find_tab tab ss = Some sh ->
  values_get id tab rng w = (Ret (read_range rng (cells sh)), w).
Proof.
  intros Hc Hf Hd Ht. unfold values_get.
  erewrite request_ok; [reflexivity|exact Hc|exact Hf|exact Hd|]. rewrite Ht. reflexivity.
Qed.

Lemma get_sheet_id_from_name_ok (id tab : string) (w : world) (ss : list sheet) (sh : sheet) :
  faulty w (Transport (SpreadsheetsGet id)) = false ->
  faulty w (SpreadsheetsGet id) = false -> drive w !! id = Some ss ->
  find_tab tab ss = Some sh ->
  get_sheet_id_from_name id tab w = (Ret (sheetId sh), w).
Proof.
  intros Hc Hf Hd Ht.
  unfold get_sheet_id_from_name, try_except, mbind, M_bind, spreadsheets_get.
  erewrite request_ok; [|exact Hc|exact Hf|exact Hd|reflexivity]. simpl. rewrite Ht.
  reflexivity.
Qed.

Lemma batch_insert_rows_ok (id : string) (sheet_id : Z) (startIndex endIndex : nat)
    (w : world) (ss ss' : list sheet) :
  faulty w (Transport (BatchUpdate id)) = false ->
  faulty w (BatchUpdate id) = false -> drive w !! id = Some ss ->
  update_tab (fun s => Z.eqb (sheetId s) sheet_id) (insert_rows startIndex endIndex) ss = Some ss' ->
  batch_insert_rows id sheet_id startIndex endIndex w
  = (Ret tt, World (<[id := ss']> (drive w)) (faulty w) (file w)
               (trace w ++ [InsertedRows id sheet_id startIndex endIndex])).
Proof.
  intros Hc Hf Hd Hup. unfold batch_insert_rows.
  erewrite request_ok; [|exact Hc|exact Hf|exact Hd|rewrite Hup; reflexivity]. reflexivity.
Qed.

Lemma values_update_ok (id tab : string) (first_row : nat) (values : list row)
    (w : world) (ss ss' : list sheet) :
  faulty w (Transport (ValuesUpdate id tab first_row)) = false ->
  faulty w (ValuesUpdate id tab first_row) = false -> drive w !! id = Some ss ->
  update_tab (fun s => String.eqb (title s) tab) (write_rows first_row values) ss = Some ss' ->
  values_update id tab first_row values w
  = (Ret tt, World (<[id := ss']> (drive w)) (faulty w) (file w)
               (trace w ++ [Updated id tab first_row values])).
Proof.
  intros Hc Hf Hd Hup. unfold values_update.
  erewrite request_ok; [|exact Hc|exact Hf|exact Hd|rewrite Hup; reflexivity]. reflexivity.
Qed.

(** Changing the cells of the tab found by title. *)
Lemma update_tab_by_title (tab : string) (f : list row -> list row) (ss : list sheet) :
  forall sh : sheet,
    find_tab tab ss = Some sh ->
    exists ss',
      update_tab (fun s => String.eqb (title s) tab) f ss = Some ss'
      /\ find_tab tab ss' = Some (Sheet (sheetId sh) (title sh) (f (cells sh)))
      /\ map sheetId ss' = map sheetId ss.
Proof.
  induction ss as [|s ss IH]; intros sh Hfind; [discriminate|].
  unfold find_tab in *. simpl in *.
  destruct (String.eqb (title s) tab) eqn:E.
  - injection Hfind as <-. eexists. split; [reflexivity|]. simpl. rewrite E. auto.
  - destruct (IH sh Hfind) as (ss' & Hup & Hf' & Hids). rewrite Hup. simpl.
    eexists. split; [reflexivity|]. simpl. rewrite E. split; [exact Hf'|].
    f_equal. exact Hids.
Qed.

(** Changing the cells of the tab found by id reaches the tab of that title
    when no two tabs share an id. *)
Lemma update_tab_by_id (tab : string) (f : list row -> list row) (ss : list sheet) :
  forall sh : sheet,
    NoDup (map sheetId ss) ->
    find_tab tab ss = Some sh ->
    exists ss',
      update_tab (fun s => Z.eqb (sheetId s) (sheetId sh)) f ss = Some ss'
      /\ find_tab tab ss' = Some (Sheet (sheetId sh) (title sh) (f (cells sh)))
      /\ map sheetId ss' = map sheetId ss.
Proof.
  induction ss as [|s ss IH]; intros sh Hnd Hfind; [discriminate|].
  apply NoDup_cons in Hnd. destruct Hnd as [Hnotin Hnd].
  unfold find_tab in *. simpl in *.
  destruct (String.eqb (title s) tab) eqn:E.
  - injection Hfind as <-. rewrite Z.eqb_refl.
    eexists. split; [reflexivity|]. simpl. rewrite E. auto.
  - destruct (Z.eqb_spec (sheetId s) (sheetId sh)) as [Eid|Eid].
    + destruct Hnotin. rewrite Eid. apply list_elem_of_In, in_map.
      apply find_some in Hfind. apply Hfind.
    + destruct (IH sh Hnd Hfind) as (ss' & Hup & Hf' & Hids). rewrite Hup. simpl.
      eexists. split; [reflexivity|]. simpl. rewrite E. split; [exact Hf'|].
      f_equal. exact Hids.
Qed.

Lemma overwrite_blank_rows (batch olds : list row) :
  overwrite_rows batch (repeat [] (length batch) ++ olds) = batch ++ olds.
Proof.
  induction batch as [|r batch IH]; [reflexivity|].
  simpl. unfold overwrite_cells. rewrite skipn_nil, app_nil_r. f_equal. exact IH.
Qed.

(** Inserting as many blank rows below the header as the batch has rows and
    writing the batch from row 2 on puts the batch between the header and the
    rows that were there. *)
Lemma insert_then_write (header : row) (olds batch : list row) :
  write_rows 1 batch (insert_rows 1 (1 + length batch) (header :: olds))
  = header :: batch ++ olds.
Proof.
  unfold insert_rows. simpl. rewrite app_nil_r. simpl.
  replace (length batch - 0)%nat with (length batch) by lia.
  rewrite overwrite_blank_rows. reflexivity.
Qed.

Lemma trim_end_keeps (A : Type) (blank : A -> bool) (x : A) (l : list A) :
  blank x = false -> trim_end blank (x :: l) <> [].
Proof. intros Hx. simpl. rewrite Hx. destruct (trim_end blank l); discriminate. Qed.

(** The read of column A is not empty when the first cell of the header row
    is not blank. *)
Lemma first_column_of_headed_sheet (c : string) (header : row) (olds : list row) :
  c <> "" -> read_range A_A ((c :: header) :: olds) <> [].
Proof.
  intros Hc. unfold read_range. simpl. apply trim_end_keeps.
  unfold blank_row, blank_cell.
  destruct (String.eqb_spec c "") as [E|_]; [contradiction|]. reflexivity.
Qed.

(** [append_rows] on a destination tab whose first column holds a value, the
    test of line 260 for a destination that is not empty. *)
Lemma append_rows_inserts (w : world) (ss : list sheet) (sh : sheet)
    (header : row) (olds batch : list row) :
  (forall c, faulty w c = false) ->
  drive w !! TARGET_SPREADSHEET_ID = Some ss ->
  NoDup (map sheetId ss) ->
  find_tab TARGET_SHEET_NAME ss = Some sh ->
  cells sh = header :: olds ->
  read_range A_A (header :: olds) <> [] ->
  exists w',
    append_rows batch w = (Ret tt, w')
    /\ target_cells w' = Some (header :: batch ++ olds)
    /\ (batch <> [] ->
        trace w' = trace w
                   ++ [InsertedRows TARGET_SPREADSHEET_ID (sheetId sh) 1 (1 + length batch);
                       Updated TARGET_SPREADSHEET_ID TARGET_SHEET_NAME 1 batch]).
Proof.
  intros Hok Hd Hnd Hfind Hcells HcolA.
  destruct batch as [|r batch].
  - exists w. split; [reflexivity|]. split; [|congruence].
    unfold target_cells. rewrite Hd. simpl. rewrite Hfind. simpl. rewrite Hcells. reflexivity.
  - set (rows := r :: batch).
    destruct (update_tab_by_id TARGET_SHEET_NAME (insert_rows 1 (1 + length rows)) ss sh
                Hnd Hfind) as (ss1 & Hup1 & Hfind1 & Hids1).
    destruct (update_tab_by_title TARGET_SHEET_NAME (write_rows 1 rows) ss1 _ Hfind1)
      as (ss2 & Hup2 & Hfind2 & Hids2).
    cbn [cells sheetId title] in Hfind2. rewrite Hcells, insert_then_write in Hfind2.
    exists (World (<[TARGET_SPREADSHEET_ID := ss2]> (<[TARGET_SPREADSHEET_ID := ss1]> (drive w)))
              (faulty w) (file w)
              ((trace w ++ [InsertedRows TARGET_SPREADSHEET_ID (sheetId sh) 1 (1 + length rows)])
               ++ [Updated TARGET_SPREADSHEET_ID TARGET_SHEET_NAME 1 rows])).
    split; [|split].
    + change (append_rows rows w) with
        (try_except
           (current_values ← values_get TARGET_SPREADSHEET_ID TARGET_SHEET_NAME A_A;
            match current_values with
            | [] => values_update TARGET_SPREADSHEET_ID TARGET_SHEET_NAME 1 rows
            | _ =>
                sheet_id ← get_sheet_id_from_name TARGET_SPREADSHEET_ID TARGET_SHEET_NAME;
                batch_insert_rows TARGET_SPREADSHEET_ID sheet_id 1 (1 + length rows);;
                values_update TARGET_SPREADSHEET_ID TARGET_SHEET_NAME 1 rows
            end)
           (except_Exception (mret tt)) w).
      unfold try_except, mbind, M_bind.
      rewrite (values_get_ok _ _ _ w ss sh (Hok _) (Hok _) Hd Hfind), Hcells.
      destruct (read_range A_A (header :: olds)) as [|v vs]; [congruence|].
      rewrite (get_sheet_id_from_name_ok _ _ w ss sh (Hok _) (Hok _) Hd Hfind).
      rewrite (batch_insert_rows_ok _ _ _ _ w ss ss1 (Hok _) (Hok _) Hd Hup1).
      erewrite values_update_ok;
        [reflexivity|apply Hok|apply Hok|apply lookup_insert_eq|exact Hup2].
    + unfold target_cells. simpl. rewrite lookup_insert_eq. simpl. rewrite Hfind2. reflexivity.
    + intros _. simpl. rewrite <- app_assoc. reflexivity.
Qed.

(** When the destination tab holds a header row whose first cell, A1, is
    not blank and N data rows, and the service answers, flushing a batch
    of M rows inserts M blank rows at row 2 and writes the batch there: the
    tab then holds the header, the batch in its order, and the N rows that
    were there, each M rows further down. *)
Theorem batch_lands_below_header (w : world) (ss : list sheet) (sh : sheet)
    (a1 : string) (header : row) (olds batch : list row) :
  (forall c, faulty w c = false) ->
  drive w !! TARGET_SPREADSHEET_ID = Some ss ->
  NoDup (map sheetId ss) ->
  find_tab TARGET_SHEET_NAME ss = Some sh ->
  cells sh = (a1 :: header) :: olds ->
  a1 <> "" ->
  exists w',
    append_rows batch w = (Ret tt, w')
    /\ target_cells w' = Some ((a1 :: header) :: batch ++ olds)
    /\ (batch <> [] ->
        trace w' = trace w
                   ++ [InsertedRows TARGET_SPREADSHEET_ID (sheetId sh) 1 (1 + length batch);
                       Updated TARGET_SPREADSHEET_ID TARGET_SHEET_NAME 1 batch]).
Proof.
  intros Hok Hd Hnd Hfind Hcells Ha1.
  apply (append_rows_inserts w ss sh (a1 :: header) olds batch Hok Hd Hnd Hfind Hcells).
  apply first_column_of_headed_sheet. exact Ha1.
Qed.

(** A destination with its header and one row, and a batch of two rows. *)
Lemma batch_lands_below_header_witness :
  exists w',
    append_rows [["Ann"; "Mon"; "Acme"]; ["Bob"; "Tue"; "Acme"]]
      (one_appointment no_fault Absent) = (Ret tt, w')
    /\ target_cells w'
       = Some (["Name"; "Date"; "Company Name"]
               :: [["Ann"; "Mon"; "Acme"]; ["Bob"; "Tue"; "Acme"]] ++ [["Old"; "Sun"; "Acme"]])
    /\ ([["Ann"; "Mon"; "Acme"]; ["Bob"; "Tue"; "Acme"]] <> [] ->
        trace w' = trace (one_appointment no_fault Absent)
                   ++ [InsertedRows TARGET_SPREADSHEET_ID
                         (sheetId (Sheet 0 TARGET_SHEET_NAME
                                     [["Name"; "Date"; "Company Name"]; ["Old"; "Sun"; "Acme"]]))
                         1 (1 + length [["Ann"; "Mon"; "Acme"]; ["Bob"; "Tue"; "Acme"]]);
                       Updated TARGET_SPREADSHEET_ID TARGET_SHEET_NAME 1
                         [["Ann"; "Mon"; "Acme"]; ["Bob"; "Tue"; "Acme"]]]).
Proof.
  apply (batch_lands_below_header (one_appointment no_fault Absent)
           [Sheet 0 TARGET_SHEET_NAME [["Name"; "Date"; "Company Name"]; ["Old"; "Sun"; "Acme"]]]).
  - intros c. reflexivity.
  - vm_compute. reflexivity.
  - apply NoDup_cons. split; [apply not_elem_of_nil|apply NoDup_nil_2].
  - reflexivity.
  - reflexivity.
  - discriminate.
Defined.

(** The test of line 260 reads column A only: a tab whose first column is
    blank throughout is taken for an empty one, nothing is inserted and the
    batch is written over the rows below the first. *)
Example blank_first_column_is_overwritten :
  let w := World {[TARGET_SPREADSHEET_ID :=
                     [Sheet 0 TARGET_SHEET_NAME [[""; "Name"]; [""; "Old"]]]]}
                 no_fault Absent [] in
  target_cells (snd (append_rows [[""; "New"]] w)) = Some [[""; "Name"]; [""; "New"]].
Proof. vm_compute. reflexivity. Qed.

(** C5 fails on the code. A source whose column A is unused gives the
    destination a header and rows whose first cells are blank. The first
    cycle delivers the row of Ann below the header. In the second cycle the
    source holds one more row, that of Bob: the destination then holds a
    header and one data row, but the read of column A (lines 254-260) is
    empty, the tab is taken for an empty one, nothing is inserted, and the
    batch is written over the row of Ann, whose fingerprint stays in the
    ledger. *)
Theorem blank_first_column_batch_overwrites_rows :
  target_cells first_delivery = Some [unused_column_header; [""; "Ann"; "Acme"]]
  /\ target_cells second_delivery = Some [unused_column_header; [""; "Bob"; "Acme"]]
  /\ file second_delivery
     = Stored {["srcA_0" := [get_row_hash [""; "Ann"]; get_row_hash [""; "Bob"]]]}
  /\ trace second_delivery
     = [Checking 1; Found 1; Slept 3;
        Updated TARGET_SPREADSHEET_ID TARGET_SHEET_NAME 0 [unused_column_header]; Printed 242;
        Updated TARGET_SPREADSHEET_ID TARGET_SHEET_NAME 1 [[""; "Bob"; "Acme"]];
        Saved {["srcA_0" := [get_row_hash [""; "Ann"]; get_row_hash [""; "Bob"]]]};
        Slept 14400].
Proof. vm_compute. repeat split. Qed.

(** ** Flushing: the batch write and the ledger *)

(** Whatever the service does, [append_rows] returns normally: its handler
    takes every exception. *)
Lemma append_rows_never_raises (rows : list row) (w : world) :
  exists w', append_rows rows w = (Ret tt, w').
Proof.
  destruct rows as [|r rows]; [exists w; reflexivity|].
  unfold append_rows, try_except.
  match goal with |- context [match ?body w with _ => _ end] => destruct (body w) as [[[]|e] w'] end.
  - exists w'. reflexivity.
  - exists w'. reflexivity.
Qed.

(** Hence, once the headers are prepared, a flush always rewrites the ledger
    file with the pending fingerprints merged in, whether the rows reached
    the destination or not. *)
Lemma flush_always_saves (hashes pending : gmap string (list string)) (batch : list row)
    (header : option row) (w : world) :
  exists w',
    flush (RunState hashes batch header pending true) w
    = (Ret (RunState (commit pending hashes) [] header ∅ true), w')
    /\ file w' = Stored (commit pending hashes)
    /\ last (trace w') = Some (Saved (commit pending hashes)).
Proof.
  unfold flush, mbind, M_bind. simpl.
  destruct (append_rows_never_raises batch w) as [w1 ->].
  eexists. split; [reflexivity|]. split; [reflexivity|]. simpl. apply last_snoc.
Qed.

(** C1 fails on the code. The source holds one new row and the destination
    has its header. When the write of the batch fails, [append_rows] takes
    the exception: the destination has a blank row where the appointment
    should be, and the ledger file is written with the row's fingerprint all
    the same. When the structural edit fails, the destination is left as it
    was and the ledger is written too. In the next cycle, with a service that
    answers again, the row is not found new, so it never reaches the
    destination. *)
Theorem ledger_saved_after_failed_write :
  let ledger : gmap string (list string) := {["srcA_0" := [get_row_hash ["Ann"; "Mon"]]]} in
  let w1 := snd (cycle (one_appointment write_fails Absent)) in
  let w2 := snd (cycle (one_appointment insert_fails Absent)) in
  let again := snd (cycle (World (drive w1) no_fault (file w1) [])) in
  (target_cells w1 = Some [["Name"; "Date"; "Company Name"]; []; ["Old"; "Sun"; "Acme"]]
   /\ file w1 = Stored ledger
   /\ outline (trace w1) = [Source 1; Persist])
  /\ (target_cells w2 = Some [["Name"; "Date"; "Company Name"]; ["Old"; "Sun"; "Acme"]]
      /\ file w2 = Stored ledger
      /\ outline (trace w2) = [Source 1; Persist])
  /\ (trace again = [Checking 1; Slept 3; Slept 14400]
      /\ target_cells again = target_cells w1).
Proof. vm_compute. repeat split. Qed.

(** ** The flush points of a run *)

(** C3 fails on the code. Of two sources the first contributes a new row and
    the second has none: its [continue] skips the batch write logic, so the
    run ends with a batch that is not empty, the source list exhausted, and
    no write to the destination and no ledger file. *)
Theorem no_flush_after_quiet_last_source :
  let w := snd (cycle quiet_last_source) in
  fst (run_sources ∅ [SourceInfo (sheet_url "srcA") "Acme"; SourceInfo (sheet_url "srcB") "Bolt"]
         quiet_last_source)
  = Ret (RunState {["srcA_0" := []]} [["Ann"; "Mon"; "Acme"]]
           (Some ["Name"; "Date"; "Company Name"])
           {["srcA_0" := [get_row_hash ["Ann"; "Mon"]]]} false)
  /\ trace w = [Checking 1; Found 1; Slept 3; Checking 2; Slept 14400]
  /\ target_cells w = Some []
  /\ file w = Absent.
Proof. vm_compute. repeat split. Qed.

(** The example of the specification does hold: sixty sources with one new
    row each are flushed after source 25, after source 50 and after source
    60, and the ledger is saved after each write. *)
Lemma sixty_sources_three_flushes :
  outline (trace (snd (cycle (many_sources 60))))
  = map Source (seq 1 25) ++ [Write 25; Persist]
    ++ map Source (seq 26 25) ++ [Write 25; Persist]
    ++ map Source (seq 51 10) ++ [Write 10; Persist].
Proof. vm_compute. reflexivity. Qed.

(** ** Running the cycle again *)

(** C6 fails on the code, by the same skipped flush. The first cycle over
    the two sources finds the appointment of the first source new and saves
    no ledger; the second cycle, over the same sources and what the first
    left on disk, finds the same row new again. With twenty-six sources that
    hold an appointment and a last one that holds none, the first cycle
    flushes after source 25 and saves a ledger, the row of source 26 stays
    behind, and the second cycle, which starts from that ledger, finds it new
    again; it writes nothing either. *)
Theorem second_cycle_finds_row_again :
  let w1 := snd (cycle quiet_last_source) in
  let w2 := snd (cycle (later w1)) in
  let v1 := snd (cycle (sources_then_quiet 26)) in
  let v2 := snd (cycle (later v1)) in
  (file w1 = Absent
   /\ trace w1 = [Checking 1; Found 1; Slept 3; Checking 2; Slept 14400]
   /\ trace w2 = [Checking 1; Found 1; Slept 3; Checking 2; Slept 14400]
   /\ target_cells w2 = Some [])
  /\ (outline (trace v1) = map Source (seq 1 25) ++ [Write 25; Persist; Source 26; Source 27]
      /\ rows_found_new (trace v1) = 26%nat
      /\ (exists ledger, file v1 = Stored ledger)
      /\ outline (trace v2) = map Source (seq 1 27)
      /\ rows_found_new (trace v2) = 1%nat
      /\ file v2 = file v1
      /\ target_cells v2 = target_cells v1).
Proof.
  cbv zeta. split.
  - vm_compute. repeat split.
  - split; [vm_compute; reflexivity|]. split; [vm_compute; reflexivity|].
    split; [eexists; vm_compute; reflexivity|].
    split; [vm_compute; reflexivity|]. split; [vm_compute; reflexivity|].
    split; vm_compute; reflexivity.
Qed.

(** ** Where a run can write *)

Lemma spreadsheets_get_pure (id : string) (w : world) : snd (spreadsheets_get id w) = w.
Proof.
  unfold spreadsheets_get, request.
  destruct (faulty w (Transport _)); [reflexivity|].
  destruct (faulty w _); [reflexivity|].
  destruct (drive w !! id); reflexivity.
Qed.

Lemma get_sheet_name_from_gid_pure (spreadsheet_id : string) (gid : Z) (w : world) :
  snd (get_sheet_name_from_gid spreadsheet_id gid w) = w.
Proof.
  unfold get_sheet_name_from_gid, try_except, mbind, M_bind.
  pose proof (spreadsheets_get_pure spreadsheet_id w) as Hpure.
  destruct (spreadsheets_get spreadsheet_id w) as [[meta|e] w']; simpl in Hpure; subst w'.
  - destruct (find _ meta); [reflexivity|]. destruct meta; reflexivity.
  - destruct e; reflexivity.
Qed.

Lemma fetch_entire_sheet_pure (spreadsheet_id sheet_name : string) (w : world) :
  snd (fetch_entire_sheet spreadsheet_id sheet_name w) = w.
Proof.
  unfold fetch_entire_sheet, try_except.
  pose proof (values_get_pure spreadsheet_id sheet_name A_Q w) as Hpure.
  destruct (values_get spreadsheet_id sheet_name A_Q w) as [[rows|e] w']; simpl in Hpure; subst w'.
  - reflexivity.
  - destruct e; reflexivity.
Qed.

Lemma read_source_pure (info : source_info) (w : world) : snd (read_source info w) = w.
Proof.
  unfold read_source, mbind, M_bind, lift.
  destruct (extract_spreadsheet_info_from_url (url info)) as [[[ss_id|] gid]|e];
    cbn [fst snd]; [|reflexivity..].
  pose proof (get_sheet_name_from_gid_pure ss_id gid w) as Hpure.
  destruct (get_sheet_name_from_gid ss_id gid w) as [[[sheet_name|]|e] w1];
    simpl in Hpure; subst w1; try reflexivity.
  destruct (negb (truthy sheet_name)); [reflexivity|].
  pose proof (fetch_entire_sheet_pure ss_id sheet_name w) as Hpure.
  destruct (fetch_entire_sheet ss_id sheet_name w) as [[rows|e] w1];
    simpl in Hpure; subst w1; [|reflexivity].
  destruct (length rows <=? 1)%nat; reflexivity.
Qed.

Lemma read_source_eq (info : source_info) (w : world) :
  read_source info w = (fst (read_source info w), w).
Proof. rewrite <- (read_source_pure info w) at 3. apply surjective_pairing. Qed.

(** Between two flush points a source is taken up without a write: no
    spreadsheet changes and the ledger file stays, whatever the source holds. *)
Lemma no_write_between_flush_points (total : nat) (st : run_state) (ss_index : nat)
    (info : source_info) (w : world) :
  (ss_index mod 25)%nat <> 0%nat -> ss_index <> total ->
  same_stores w (snd (process_source total st (ss_index, info) w)).
Proof.
  intros Hmod Hlast. unfold same_stores, process_source. cbn [fst snd].
  apply Nat.eqb_neq in Hmod, Hlast. rewrite Hmod, Hlast. cbn [orb].
  unfold mbind, M_bind, emit. rewrite read_source_eq.
  destruct (fst (read_source info _)) as [[[source_key rows]|]|e]; try (split; reflexivity).
  destruct (snd (collect _ _ rows st)) as [|r found]; [split; reflexivity|].
  simpl. rewrite andb_false_r. split; reflexivity.
Qed.

(** The first of two sources. *)
Lemma no_write_between_flush_points_witness :
  same_stores quiet_last_source
    (snd (process_source 2 (RunState ∅ [] None ∅ false)
            (1%nat, SourceInfo (sheet_url "srcA") "Acme") quiet_last_source)).
Proof.
  apply no_write_between_flush_points.
  - vm_compute. discriminate.
  - discriminate.
Defined.

(** An absent ledger file and one that the JSON decoder rejects both load as
    the empty ledger. *)
Lemma absent_or_malformed_ledger_is_empty (w : world) :
  file w = Absent \/ file w = Malformed -> load_processed_hashes w = (Ret ∅, w).
Proof. intros [H|H]; [apply load_absent|apply load_malformed]; exact H. Qed.

(** A world without a ledger file and one whose file is no JSON. *)
Lemma absent_or_malformed_ledger_witness :
  load_processed_hashes quiet_last_source = (Ret ∅, quiet_last_source)
  /\ load_processed_hashes (one_appointment no_fault Malformed)
     = (Ret ∅, one_appointment no_fault Malformed).
Proof.
  split.
  - apply (absent_or_malformed_ledger_is_empty quiet_last_source). left. reflexivity.
  - apply (absent_or_malformed_ledger_is_empty (one_appointment no_fault Malformed)).
    right. reflexivity.
Defined.


(** ** What a run leaves alone *)

Lemma same_sources_refl (w : world) : same_sources w w.
Proof. split; [reflexivity|]. intros; reflexivity. Qed.

Lemma same_sources_trans (w1 w2 w3 : world) :
  same_sources w1 w2 -> same_sources w2 w3 -> same_sources w1 w3.
Proof.
  intros [Hf1 Hd1] [Hf2 Hd2]. split; [congruence|].
  intros id Hid. rewrite Hd2, Hd1 by exact Hid. reflexivity.
Qed.

Lemma keeps_ret {A} (a : A) : keeps_sources (mret a).
Proof. intros w. apply same_sources_refl. Qed.

Lemma keeps_bind {A B} (m : M A) (k : A -> M B) :
  keeps_sources m -> (forall a, keeps_sources (k a)) -> keeps_sources (m ≫= k).
Proof.
  intros Hm Hk w. unfold mbind, M_bind. specialize (Hm w).
  destruct (m w) as [[a|e] w1]; simpl in *.
  - eapply same_sources_trans; [exact Hm|apply Hk].
  - exact Hm.
Qed.

Lemma keeps_try_except {A} (m : M A) (h : exn -> option (M A)) :
  keeps_sources m -> (forall e handler, h e = Some handler -> keeps_sources handler) ->
  keeps_sources (try_except m h).
Proof.
  intros Hm Hh w. unfold try_except. specialize (Hm w).
  destruct (m w) as [[a|e] w1]; simpl in *; [exact Hm|].
  destruct (h e) as [handler|] eqn:E; [|exact Hm].
  eapply same_sources_trans; [exact Hm|apply (Hh e handler E)].
Qed.

Lemma keeps_emit (e : event) : keeps_sources (emit e).
Proof. intros w. split; [reflexivity|]. intros; reflexivity. Qed.

Lemma keeps_set_file (f : ledger_file) : keeps_sources (set_file f).
Proof. intros w. split; [reflexivity|]. intros; reflexivity. Qed.

Lemma keeps_request_target {A} (c : call) (k : list sheet -> option (M A)) :
  (forall ss m, k ss = Some m -> keeps_sources m) ->
  keeps_sources (request c TARGET_SPREADSHEET_ID k).
Proof.
  intros Hk w. unfold request.
  destruct (faulty w (Transport c)); [apply same_sources_refl|].
  destruct (faulty w c); [apply same_sources_refl|].
  destruct (drive w !! TARGET_SPREADSHEET_ID) as [ss|]; [|apply same_sources_refl].
  destruct (k ss) as [m|] eqn:E; [|apply same_sources_refl].
  apply (Hk ss m E).
Qed.

Lemma keeps_store_target (ss : list sheet) (e : event) :
  keeps_sources (fun w => (set_drive (<[TARGET_SPREADSHEET_ID := ss]> (drive w));; emit e) w).
Proof.
  intros w. split; [reflexivity|].
  intros id Hid. simpl. apply lookup_insert_ne. congruence.
Qed.

Lemma keeps_values_update (tab : string) (first_row : nat) (values : list row) :
  keeps_sources (values_update TARGET_SPREADSHEET_ID tab first_row values).
Proof.
  apply keeps_request_target. intros ss m Hk.
  destruct (update_tab _ _ ss) as [ss'|]; simpl in Hk; [|discriminate].
  injection Hk as <-. apply keeps_store_target.
Qed.

Lemma keeps_batch_insert_rows (sheet_id : Z) (startIndex endIndex : nat) :
  keeps_sources (batch_insert_rows TARGET_SPREADSHEET_ID sheet_id startIndex endIndex).
Proof.
  apply keeps_request_target. intros ss m Hk.
  destruct (update_tab _ _ ss) as [ss'|]; simpl in Hk; [|discriminate].
  injection Hk as <-. apply keeps_store_target.
Qed.

Lemma keeps_batch_add_sheet (tab : string) :
  keeps_sources (batch_add_sheet TARGET_SPREADSHEET_ID tab).
Proof.
  apply keeps_request_target. intros ss m Hk.
  destruct (find_tab tab ss); [discriminate|].
  injection Hk as <-. apply keeps_store_target.
Qed.

Lemma keeps_pure {A} (m : M A) : (forall w, snd (m w) = w) -> keeps_sources m.
Proof. intros Hpure w. rewrite Hpure. apply same_sources_refl. Qed.

Create HintDb frame.
#[local] Hint Resolve keeps_ret keeps_emit keeps_set_file keeps_values_update
  keeps_batch_insert_rows keeps_batch_add_sheet : frame.
#[local] Hint Extern 1 (keeps_sources (spreadsheets_get _)) =>
  apply keeps_pure, spreadsheets_get_pure : frame.
#[local] Hint Extern 1 (keeps_sources (values_get _ _ _)) =>
  apply keeps_pure; intros ?; apply values_get_pure : frame.

(** Splits a sequence of steps into its steps. *)
Ltac keeps_steps :=
  repeat first [apply keeps_bind; [solve [auto with frame]|intros ?] | solve [auto with frame]].

Lemma keeps_prepare_target_sheet (headers : row) : keeps_sources (prepare_target_sheet headers).
Proof.
  unfold prepare_target_sheet.
  apply keeps_bind; [apply keeps_pure, spreadsheets_get_pure|]. intros meta.
  apply keeps_bind.
  { destruct (negb _); [|apply keeps_ret].
    apply keeps_bind; [apply keeps_batch_add_sheet|intros _; apply keeps_emit]. }
  intros _. apply keeps_bind.
  { apply keeps_try_except.
    - apply keeps_bind; [apply keeps_pure; intros w; apply values_get_pure|].
      intros values. apply keeps_ret.
    - intros e handler He. destruct e; try discriminate.
      injection He as <-. apply keeps_bind; [apply keeps_emit|intros _; apply keeps_ret]. }
  intros [[|r rs]|]; [|apply keeps_emit|apply keeps_ret].
  apply keeps_bind; [apply keeps_values_update|intros _; apply keeps_emit].
Qed.

Lemma keeps_append_rows (rows : list row) : keeps_sources (append_rows rows).
Proof.
  unfold append_rows. destruct rows as [|r rows]; [apply keeps_ret|].
  apply keeps_try_except.
  - apply keeps_bind; [apply keeps_pure; intros w; apply values_get_pure|].
    intros [|v vs]; [apply keeps_values_update|].
    apply keeps_bind.
    { unfold get_sheet_id_from_name. apply keeps_try_except.
      - apply keeps_bind; [apply keeps_pure, spreadsheets_get_pure|].
        intros meta. destruct (find_tab _ meta); apply keeps_ret.
      - intros e handler He. destruct e; try discriminate.
        injection He as <-. apply keeps_ret. }
    intros sheet_id. apply keeps_bind; [apply keeps_batch_insert_rows|].
    intros _. apply keeps_values_update.
  - intros e handler He. injection He as <-. apply keeps_ret.
Qed.

Lemma keeps_save_processed_hashes (hashes : gmap string (list string)) :
  keeps_sources (save_processed_hashes hashes).
Proof.
  unfold save_processed_hashes. keeps_steps.
Qed.

Lemma keeps_flush (st : run_state) : keeps_sources (flush st).
Proof.
  unfold flush. apply keeps_bind.
  { destruct (headers_prepared_this_run st); [apply keeps_ret|].
    destruct (master_header_with_company st) as [headers|]; [|apply keeps_ret].
    apply keeps_bind; [apply keeps_prepare_target_sheet|]. intros _. apply keeps_ret. }
  intros prepared. apply keeps_bind; [apply keeps_append_rows|].
  intros _. apply keeps_bind; [apply keeps_save_processed_hashes|].
  intros _. apply keeps_ret.
Qed.

Lemma keeps_process_source (total : nat) (st : run_state) (item : nat * source_info) :
  keeps_sources (process_source total st item).
Proof.
  unfold process_source. apply keeps_bind; [apply keeps_emit|].
  intros _. apply keeps_bind; [apply keeps_pure, read_source_pure|].
  intros [[source_key rows]|]; [|apply keeps_ret].
  cbv zeta. destruct (snd (collect _ _ rows st)) as [|r found].
  - apply keeps_bind; [apply keeps_emit|]. intros _. apply keeps_ret.
  - apply keeps_bind; [apply keeps_emit|]. intros _.
    apply keeps_bind; [apply keeps_emit|]. intros _.
    destruct (_ && _); [apply keeps_flush|apply keeps_ret].
Qed.

Lemma keeps_for_each {A S} (body : S -> A -> M S) (l : list A) :
  (forall s x, keeps_sources (body s x)) -> forall s, keeps_sources (for_each body l s).
Proof.
  intros Hbody. induction l as [|x l IH]; intros s; simpl.
  - apply keeps_ret.
  - apply keeps_bind; [apply Hbody|]. exact IH.
Qed.

(** ** What the reads depend on *)

Lemma request_same {A} (c : call) (id : string) (k : list sheet -> option (M A))
    (w w' : world) :
  same_sources w w' -> id <> TARGET_SPREADSHEET_ID ->
  (forall ss m, k ss = Some m -> fst (m w') = fst (m w)) ->
  fst (request c id k w') = fst (request c id k w).
Proof.
  intros [Hf Hd] Hid Hk. unfold request. rewrite Hf, (Hd id Hid).
  destruct (faulty w (Transport c)); [reflexivity|].
  destruct (faulty w c); [reflexivity|].
  destruct (drive w !! id) as [ss|]; [|reflexivity].
  destruct (k ss) as [m|] eqn:E; [|reflexivity].
  apply (Hk ss m E).
Qed.

Lemma spreadsheets_get_same (id : string) (w w' : world) :
  same_sources w w' -> id <> TARGET_SPREADSHEET_ID ->
  fst (spreadsheets_get id w') = fst (spreadsheets_get id w).
Proof.
  intros Hs Hid. apply request_same; [exact Hs|exact Hid|].
  intros ss m [= <-]. reflexivity.
Qed.

Lemma values_get_same (id tab : string) (rng : range) (w w' : world) :
  same_sources w w' -> id <> TARGET_SPREADSHEET_ID ->
  fst (values_get id tab rng w') = fst (values_get id tab rng w).
Proof.
  intros Hs Hid. apply request_same; [exact Hs|exact Hid|].
  intros ss m Hk. destruct (find_tab tab ss); simpl in Hk; [|discriminate].
  injection Hk as <-. reflexivity.
Qed.

Lemma reads_ret {A} (a : A) : reads_sources (mret a).
Proof. split; intros; reflexivity. Qed.

Lemma reads_raise {A} (e : exn) : reads_sources (@raise A e).
Proof. split; intros; reflexivity. Qed.

Lemma reads_eq {A} (m : M A) (w : world) : reads_sources m -> m w = (fst (m w), w).
Proof. intros [Hpure _]. rewrite <- (Hpure w) at 3. apply surjective_pairing. Qed.

Lemma reads_bind {A B} (m : M A) (k : A -> M B) :
  reads_sources m -> (forall a, reads_sources (k a)) -> reads_sources (m ≫= k).
Proof.
  intros Hm Hk. split.
  - intros w. unfold mbind, M_bind. rewrite (reads_eq m w Hm).
    destruct (fst (m w)) as [a|e]; [apply (Hk a)|reflexivity].
  - intros w w' Hs. unfold mbind, M_bind.
    rewrite (reads_eq m w Hm), (reads_eq m w' Hm), (proj2 Hm w w' Hs).
    destruct (fst (m w)) as [a|e]; [apply (Hk a); exact Hs|reflexivity].
Qed.

Lemma reads_try_except {A} (m : M A) (h : exn -> option (M A)) :
  reads_sources m -> (forall e handler, h e = Some handler -> reads_sources handler) ->
  reads_sources (try_except m h).
Proof.
  intros Hm Hh. split.
  - intros w. unfold try_except. rewrite (reads_eq m w Hm).
    destruct (fst (m w)) as [a|e]; [reflexivity|].
    destruct (h e) as [handler|] eqn:E; [apply (Hh e handler E)|reflexivity].
  - intros w w' Hs. unfold try_except.
    rewrite (reads_eq m w Hm), (reads_eq m w' Hm), (proj2 Hm w w' Hs).
    destruct (fst (m w)) as [a|e]; [reflexivity|].
    destruct (h e) as [handler|] eqn:E; [apply (Hh e handler E); exact Hs|reflexivity].
Qed.

Lemma reads_spreadsheets_get (id : string) :
  id <> TARGET_SPREADSHEET_ID -> reads_sources (spreadsheets_get id).
Proof.
  intros Hid. split; [apply spreadsheets_get_pure|].
  intros w w' Hs. apply spreadsheets_get_same; assumption.
Qed.

Lemma reads_values_get (id tab : string) (rng : range) :
  id <> TARGET_SPREADSHEET_ID -> reads_sources (values_get id tab rng).
Proof.
  intros Hid. split; [intros w; apply values_get_pure|].
  intros w w' Hs. apply values_get_same; assumption.
Qed.

Lemma reads_except_HttpError {A} (handler : M A) :
  reads_sources handler ->
  forall e handler', except_HttpError handler e = Some handler' -> reads_sources handler'.
Proof. intros Hh e handler' He. destruct e; try discriminate. injection He as <-. exact Hh. Qed.

Lemma reads_get_sheet_name_from_gid (spreadsheet_id : string) (gid : Z) :
  spreadsheet_id <> TARGET_SPREADSHEET_ID ->
  reads_sources (get_sheet_name_from_gid spreadsheet_id gid).
Proof.
  intros Hid. unfold get_sheet_name_from_gid. apply reads_try_except.
  - apply reads_bind; [apply reads_spreadsheets_get, Hid|]. intros meta.
    destruct (find _ meta); [apply reads_ret|].
    destruct meta; [apply reads_raise|apply reads_ret].
  - apply reads_except_HttpError, reads_ret.
Qed.

Lemma reads_fetch_entire_sheet (spreadsheet_id sheet_name : string) :
  spreadsheet_id <> TARGET_SPREADSHEET_ID ->
  reads_sources (fetch_entire_sheet spreadsheet_id sheet_name).
Proof.
  intros Hid. unfold fetch_entire_sheet. apply reads_try_except.
  - apply reads_values_get, Hid.
  - apply reads_except_HttpError, reads_ret.
Qed.

Lemma reads_lift_ret {A B} (a : A) (k : A -> M B) :
  reads_sources (k a) -> reads_sources (lift (Ret a) ≫= k).
Proof. intros H. exact H. Qed.

Lemma reads_lift_raise {A B} (e : exn) (k : A -> M B) :
  reads_sources (lift (Raise e) ≫= k).
Proof. split; reflexivity. Qed.

Lemma reads_read_source (info : source_info) : apart info -> reads_sources (read_source info).
Proof.
  unfold apart, read_source.
  destruct (extract_spreadsheet_info_from_url (url info)) as [[[ss_id|] gid]|e];
    intros Hid; [apply reads_lift_ret|apply reads_lift_ret, reads_ret|apply reads_lift_raise].
  cbn [fst snd].
  assert (Hne : ss_id <> TARGET_SPREADSHEET_ID) by (intros ->; exact (Hid gid eq_refl)).
  apply reads_bind; [apply reads_get_sheet_name_from_gid, Hne|].
  intros [sheet_name|]; [|apply reads_ret].
  destruct (negb (truthy sheet_name)); [apply reads_ret|].
  apply reads_bind; [apply reads_fetch_entire_sheet, Hne|].
  intros rows. destruct (length rows <=? 1)%nat; apply reads_ret.
Qed.

Lemma master_is_not_target : MASTER_SPREADSHEET_ID <> TARGET_SPREADSHEET_ID.
Proof. discriminate. Qed.

Lemma reads_get_source_sheet_urls : reads_sources get_source_sheet_urls.
Proof.
  unfold get_source_sheet_urls. apply reads_bind.
  - apply reads_try_except.
    + apply reads_bind; [apply reads_values_get, master_is_not_target|].
      intros header_res. cbv zeta.
      destruct (Z.eqb _ _); [apply reads_ret|].
      destruct (Z.eqb _ _); [apply reads_ret|].
      apply reads_bind; [apply reads_values_get, master_is_not_target|].
      intros values. apply reads_ret.
    + apply reads_except_HttpError, reads_ret.
  - intros [[[c u] values]|]; apply reads_ret.
Qed.

(** ** The ledger and the pending fingerprints, key by key *)

Lemma listed_setdefault_empty (k k' : string) (d : gmap string (list string)) :
  listed (setdefault_empty k d) k' = listed d k'.
Proof.
  unfold listed, setdefault_empty. destruct (d !! k) as [l|] eqn:E; [reflexivity|].
  destruct (decide (k = k')) as [<-|Hne].
  - rewrite lookup_insert_eq, E. reflexivity.
  - rewrite lookup_insert_ne by exact Hne. reflexivity.
Qed.

Lemma listed_append_at (k k' h : string) (d : gmap string (list string)) :
  listed (append_at k h d) k' = listed d k' ++ (if decide (k' = k) then [h] else []).
Proof.
  unfold listed, append_at. destruct (decide (k' = k)) as [->|Hne].
  - rewrite lookup_insert_eq. reflexivity.
  - rewrite lookup_insert_ne by congruence. rewrite app_nil_r. reflexivity.
Qed.

Lemma listed_append_all (k k' : string) (hs : list string) :
  forall d : gmap string (list string),
    listed (fold_left (fun m h => append_at k h m) hs d) k'
    = listed d k' ++ (if decide (k' = k) then hs else []).
Proof.
  induction hs as [|h hs IH]; intros d; simpl.
  - destruct (decide (k' = k)); rewrite app_nil_r; reflexivity.
  - rewrite IH, listed_append_at.
    destruct (decide (k' = k)); rewrite <- app_assoc; reflexivity.
Qed.

Lemma listed_commit_one (acc : gmap string (list string)) (k k' : string) (v : list string) :
  listed (commit_one acc (k, v)) k' = listed acc k' ++ (if decide (k' = k) then v else []).
Proof.
  unfold commit_one. simpl. destruct v as [|h v].
  - destruct (decide (k' = k)); rewrite app_nil_r; reflexivity.
  - unfold listed at 1. destruct (decide (k' = k)) as [->|Hne].
    + rewrite lookup_insert_eq. simpl. fold (listed (setdefault_empty k acc) k).
      rewrite listed_setdefault_empty. reflexivity.
    + rewrite lookup_insert_ne by congruence. rewrite app_nil_r. reflexivity.
Qed.

Lemma listed_commit_all (kvs : list (string * list string)) :
  NoDup (map fst kvs) ->
  forall (acc : gmap string (list string)) (k : string),
    listed (fold_left commit_one kvs acc) k
    = listed acc k ++ listed (list_to_map kvs) k.
Proof.
  induction kvs as [|[k0 v0] kvs IH]; intros Hnd acc k.
  - cbn [fold_left]. rewrite list_to_map_nil. unfold listed.
    rewrite lookup_empty. simpl. rewrite app_nil_r. reflexivity.
  - cbn [map fst] in Hnd. apply NoDup_cons in Hnd. destruct Hnd as [Hnotin Hnd].
    cbn [fold_left]. rewrite IH by exact Hnd. rewrite listed_commit_one.
    rewrite list_to_map_cons. unfold listed.
    destruct (decide (k = k0)) as [->|Hne].
    + rewrite lookup_insert_eq.
      rewrite (not_elem_of_list_to_map_1 _ _ Hnotin). simpl. rewrite app_nil_r. reflexivity.
    + rewrite lookup_insert_ne by congruence. rewrite app_nil_r. reflexivity.
Qed.

(** A flush adds to the list of every key the fingerprints pending for it. *)
Lemma listed_commit (pending hashes : gmap string (list string)) (k : string) :
  listed (commit pending hashes) k = listed hashes k ++ listed pending k.
Proof.
  unfold commit. rewrite listed_commit_all by apply NoDup_fst_map_to_list.
  rewrite list_to_map_to_list. reflexivity.
Qed.

Lemma collect_ledger (company_name source_key : string) (rows : list row) (st : run_state) :
  processed_hashes (fst (collect company_name source_key rows st))
  = setdefault_empty source_key (processed_hashes st).
Proof. unfold collect. destruct (fst (scan_data_rows _ _ _ _)); reflexivity. Qed.

Lemma collect_pending_listed (company_name source_key : string) (rows : list row)
    (st : run_state) (k : string) :
  listed (newly_processed_this_run (fst (collect company_name source_key rows st))) k
  = listed (newly_processed_this_run st) k
    ++ (if decide (k = source_key)
        then map get_row_hash (snd (collect company_name source_key rows st))
        else []).
Proof.
  rewrite collect_found.
  assert (Hnpr : newly_processed_this_run (fst (collect company_name source_key rows st))
    = snd (scan_data_rows source_key
             (list_to_set (default [] (setdefault_empty source_key (processed_hashes st) !! source_key)))
             (tl rows) (setdefault_empty source_key (newly_processed_this_run st)))).
  { unfold collect. destruct (fst (scan_data_rows _ _ _ _)); reflexivity. }
  rewrite Hnpr. unfold scan_data_rows. rewrite scan_data_rows_from. cbn [snd].
  rewrite listed_append_all, listed_setdefault_empty. f_equal.
  destruct (decide (k = source_key)); [|reflexivity].
  f_equal. unfold new_rows. rewrite setdefault_empty_lookup. simpl.
  apply filter_ext_elem. intros r. rewrite elem_of_list_to_set. reflexivity.
Qed.

Lemma flush_result (st st' : run_state) (w w' : world) :
  flush st w = (Ret st', w') ->
  processed_hashes st' = commit (newly_processed_this_run st) (processed_hashes st)
  /\ all_new_rows_for_upload st' = []
  /\ newly_processed_this_run st' = ∅
  /\ file w' = Stored (commit (newly_processed_this_run st) (processed_hashes st)).
Proof.
  unfold flush, mbind, M_bind.
  destruct (headers_prepared_this_run st), (master_header_with_company st) as [headers|];
    simpl;
    try (destruct (prepare_target_sheet headers w) as [[[]|e] w1]; [|discriminate]; simpl);
    match goal with
    | |- context [append_rows ?b ?w0] =>
        destruct (append_rows_never_raises b w0) as [w2 ->]
    end;
    simpl; intros [= <- <-]; repeat split.
Qed.

(** ** A first cycle that leaves nothing pending *)

Lemma load_stored_of (w : world) (hashes : gmap string (list string)) :
  fst (load_processed_hashes w) = Ret hashes ->
  file w <> Undecodable /\ hashes = stored w.
Proof.
  unfold stored. destruct (file w) as [| | |d] eqn:E.
  - rewrite load_absent by exact E. intros [= <-]. split; [discriminate|reflexivity].
  - unfold load_processed_hashes, path_exists, mbind, M_bind, try_except, json_load.
    rewrite E. simpl. rewrite E. discriminate.
  - rewrite load_malformed by exact E. intros [= <-]. split; [discriminate|reflexivity].
  - rewrite (load_stored w d) by exact E. intros [= <-]. split; [discriminate|reflexivity].
Qed.

Lemma load_of_stored (w : world) :
  file w <> Undecodable -> load_processed_hashes w = (Ret (stored w), w).
Proof.
  unfold stored. intros Hf. destruct (file w) as [| | |d] eqn:E.
  - apply load_absent, E.
  - congruence.
  - apply load_malformed, E.
  - apply load_stored, E.
Qed.

Section FirstCycle.

(** The world in which the cycle starts. *)
Variable w0 : world.

Lemma run_inv_start (hashes : gmap string (list string)) :
  fst (load_processed_hashes w0) = Ret hashes ->
  run_inv w0 [] (RunState hashes [] None ∅ false) w0.
Proof.
  intros Hload. apply load_stored_of in Hload. destruct Hload as [Hf ->].
  split; simpl.
  - apply same_sources_refl.
  - intros info Hin. apply elem_of_nil in Hin. contradiction.
  - intros info k rows r Hin. apply elem_of_nil in Hin. contradiction.
  - intros _ k. unfold listed. rewrite lookup_empty. reflexivity.
  - exact Hf.
  - reflexivity.
Qed.

(** Every data row of a fetch is persisted already or found new. *)
Lemma persisted_or_found (company_name source_key : string) (rows : list row)
    (st : run_state) (r : row) :
  r ∈ tl rows ->
  get_row_hash r ∈ listed (processed_hashes st) source_key
  \/ r ∈ snd (collect company_name source_key rows st).
Proof.
  intros Hin. rewrite collect_found. unfold new_rows, listed.
  destruct (decide (get_row_hash r ∈ default [] (processed_hashes st !! source_key)))
    as [Hp|Hp]; [left; exact Hp|right].
  apply list_elem_of_filter. split; assumption.
Qed.

Lemma covered_skip (done : list source_info) (info : source_info)
    (hashes pending : gmap string (list string)) :
  covered w0 done hashes pending -> fst (read_source info w0) = Ret None ->
  covered w0 (done ++ [info]) hashes pending.
Proof.
  intros Hcov Hread info0 k rows r Hin Hread0 Hr.
  apply elem_of_app in Hin. destruct Hin as [Hin|Hin].
  - apply (Hcov info0 k rows r Hin Hread0 Hr).
  - apply list_elem_of_singleton in Hin. subst info0. congruence.
Qed.

Lemma covered_collect (done : list source_info) (info : source_info)
    (source_key : string) (rows : list row) (st : run_state) :
  covered w0 done (processed_hashes st) (newly_processed_this_run st) ->
  fst (read_source info w0) = Ret (Some (source_key, rows)) ->
  covered w0 (done ++ [info])
    (processed_hashes (fst (collect (name info) source_key rows st)))
    (newly_processed_this_run (fst (collect (name info) source_key rows st))).
Proof.
  intros Hcov Hread info0 k rows0 r Hin Hread0 Hr.
  rewrite collect_ledger, listed_setdefault_empty, collect_pending_listed.
  apply elem_of_app in Hin. destruct Hin as [Hin|Hin].
  - specialize (Hcov info0 k rows0 r Hin Hread0 Hr).
    rewrite !elem_of_app in *. tauto.
  - apply list_elem_of_singleton in Hin. subst info0.
    rewrite Hread in Hread0. injection Hread0 as <- <-.
    rewrite decide_True by reflexivity.
    destruct (persisted_or_found (name info) source_key rows st r Hr) as [Hp|Hf].
    + rewrite !elem_of_app. tauto.
    + rewrite !elem_of_app. right. right. apply list_elem_of_fmap_2. exact Hf.
Qed.

Lemma covered_commit (done : list source_info)
    (hashes pending : gmap string (list string)) :
  covered w0 done hashes pending -> covered w0 done (commit pending hashes) ∅.
Proof.
  intros Hcov info k rows r Hin Hread Hr. rewrite listed_commit.
  apply elem_of_app. left. apply (Hcov info k rows r Hin Hread Hr).
Qed.

Lemma read_in_run (w : world) (info : source_info) :
  apart info -> same_sources w0 w ->
  read_source info w = (fst (read_source info w0), w).
Proof.
  intros Hap Hs. rewrite (reads_eq _ w (reads_read_source info Hap)).
  rewrite (proj2 (reads_read_source info Hap) w0 w Hs). reflexivity.
Qed.

Lemma same_sources_emit (w : world) (e : event) :
  same_sources w0 w ->
  same_sources w0 (World (drive w) (faulty w) (file w) (trace w ++ [e])).
Proof. intros [Hf Hd]. split; [exact Hf|exact Hd]. Qed.

Lemma run_inv_step (done : list source_info) (total ss_index : nat)
    (info : source_info) (st st' : run_state) (w w' : world) :
  apart info ->
  run_inv w0 done st w ->
  process_source total st (ss_index, info) w = (Ret st', w') ->
  run_inv w0 (done ++ [info]) st' w'.
Proof.
  intros Hap [Hsrc Hrd Hcov Hpend Hfile Hsto] Hrun.
  assert (Hsrc' : same_sources w0 w').
  { eapply same_sources_trans; [exact Hsrc|].
    pose proof (keeps_process_source total st (ss_index, info) w) as Hk.
    rewrite Hrun in Hk. exact Hk. }
  unfold process_source in Hrun. cbn [fst snd] in Hrun.
  unfold mbind, M_bind, emit in Hrun.
  rewrite (read_in_run _ info Hap (same_sources_emit w _ Hsrc)) in Hrun.
  assert (Hrd' : forall info0, info0 ∈ done ++ [info] ->
                 exists v, fst (read_source info0 w0) = Ret v).
  { intros info0 Hin. apply elem_of_app in Hin. destruct Hin as [Hin|Hin].
    - apply Hrd, Hin.
    - apply list_elem_of_singleton in Hin. subst info0.
      destruct (fst (read_source info w0)) as [v|e]; [eexists; reflexivity|discriminate]. }
  destruct (fst (read_source info w0)) as [[[source_key rows]|]|e] eqn:Eread;
    [| |discriminate].
  - pose proof (covered_collect done info source_key rows st Hcov Eread) as Hcov1.
    pose proof (collect_batch (name info) source_key rows st) as Hbatch.
    pose proof (collect_pending_listed (name info) source_key rows st) as Hpl.
    rewrite <- (collect_found (name info)) in Hbatch.
    destruct (snd (collect (name info) source_key rows st)) as [|r0 found] eqn:Efound.
    + simpl in Hrun. injection Hrun as <- <-.
      split; simpl; try assumption.
      * intros Hb k. rewrite Hpl. destruct (decide (k = source_key)); simpl;
          rewrite app_nil_r; apply Hpend; rewrite Hbatch, app_nil_r in Hb; exact Hb.
      * intros k. rewrite collect_ledger, listed_setdefault_empty. apply Hsto.
    + simpl in Hrun.
      destruct (negb _ && _) eqn:Econd.
      * apply flush_result in Hrun. destruct Hrun as (Hph & Hb & Hnp & Hf).
        split; try assumption.
        -- rewrite Hph, Hnp. apply covered_commit, Hcov1.
        -- intros _ k. rewrite Hnp. unfold listed. rewrite lookup_empty. reflexivity.
        -- rewrite Hf. discriminate.
        -- intros k. unfold stored. rewrite Hf, Hph. reflexivity.
      * injection Hrun as <- <-.
        split; simpl; try assumption.
        -- intros Hb. rewrite Hbatch in Hb. apply app_eq_nil in Hb.
           destruct Hb as [_ Hb]. discriminate Hb.
        -- intros k. rewrite collect_ledger, listed_setdefault_empty. apply Hsto.
  - injection Hrun as <- <-.
    split; simpl; try assumption.
    apply covered_skip; assumption.
Qed.

Lemma enumerate_snd {A} (l : list A) : forall start, map snd (enumerate start l) = l.
Proof.
  unfold enumerate. induction l as [|x l IH]; intros start; simpl; [reflexivity|].
  f_equal. apply IH.
Qed.

Lemma run_inv_for_each (total : nat) (items : list (nat * source_info)) :
  forall (done : list source_info) (st stF : run_state) (w wF : world),
    Forall apart (map snd items) ->
    run_inv w0 done st w ->
    for_each (process_source total) items st w = (Ret stF, wF) ->
    run_inv w0 (done ++ map snd items) stF wF.
Proof.
  induction items as [|[ss_index info] items IH]; intros done st stF w wF Hap Hinv Hrun.
  - simpl in *. injection Hrun as <- <-. rewrite app_nil_r. exact Hinv.
  - simpl in Hap. apply Forall_cons in Hap. destruct Hap as [Hap1 Hap].
    simpl in Hrun. unfold mbind, M_bind in Hrun.
    destruct (process_source total st (ss_index, info) w) as [[st1|e] w1] eqn:Estep;
      [|discriminate].
    simpl. change (done ++ info :: map snd items) with (done ++ [info] ++ map snd items).
    rewrite app_assoc.
    apply (IH _ st1 stF w1 wF Hap); [|exact Hrun].
    apply (run_inv_step done total ss_index info st st1 w w1 Hap1 Hinv Estep).
Qed.

End FirstCycle.

(** ** The cycle after it *)

Lemma filter_none {A} (P : A -> Prop) `{!forall x, Decision (P x)} (l : list A) :
  (forall x, x ∈ l -> ~ P x) -> filter P l = [].
Proof.
  induction l as [|x l IH]; intros Hno; [reflexivity|].
  rewrite filter_cons, decide_False by (apply Hno; left).
  apply IH. intros y Hy. apply Hno. right. exact Hy.
Qed.

Lemma idle_step (w0 w1 : world) (total ss_index : nat) (info : source_info)
    (st : run_state) (w : world) :
  same_sources w0 w1 -> apart info ->
  (exists v, fst (read_source info w0) = Ret v) ->
  (forall k rows r, fst (read_source info w0) = Ret (Some (k, rows)) -> r ∈ tl rows ->
                    get_row_hash r ∈ listed (stored w1) k) ->
  idle_inv w1 st w ->
  exists st' w',
    process_source total st (ss_index, info) w = (Ret st', w') /\ idle_inv w1 st' w'.
Proof.
  intros [Hf01 Hd01] Hap [v Hv] Hsto [Hd Hf Hfile [t [Ht Hidle]] Hb Hl].
  assert (Hs : same_sources w0 (World (drive w) (faulty w) (file w)
                                  (trace w ++ [Checking ss_index]))).
  { split; simpl; [congruence|]. intros id Hid. rewrite Hd. apply Hd01, Hid. }
  unfold process_source. cbn [fst snd]. unfold mbind, M_bind, emit.
  rewrite (read_in_run w0 _ info Hap Hs), Hv.
  destruct v as [[source_key rows]|].
  - assert (Hnone : snd (collect (name info) source_key rows st) = []).
    { rewrite collect_found. apply filter_none. intros r Hr Hnot. apply Hnot.
      fold (listed (processed_hashes st) source_key). rewrite Hl.
      apply (Hsto source_key rows r Hv Hr). }
    pose proof (collect_batch (name info) source_key rows st) as Hbatch.
    rewrite <- (collect_found (name info)), Hnone, Hb in Hbatch.
    rewrite Hnone. simpl. eexists _, _. split; [reflexivity|].
    split; simpl; try assumption.
    + exists ((t ++ [Checking ss_index]) ++ [Slept 3]). split.
      * rewrite Ht, <- !app_assoc. reflexivity.
      * repeat (apply Forall_app; split); try exact Hidle; repeat constructor.
    + intros k. rewrite collect_ledger, listed_setdefault_empty. apply Hl.
  - eexists _, _. split; [reflexivity|].
    split; simpl; try assumption.
    exists (t ++ [Checking ss_index]). split.
    + rewrite Ht, <- app_assoc. reflexivity.
    + apply Forall_app. split; [exact Hidle|]. repeat constructor.
Qed.

Lemma idle_for_each (w0 w1 : world) (total : nat) (items : list (nat * source_info)) :
  same_sources w0 w1 ->
  Forall apart (map snd items) ->
  (forall info, info ∈ map snd items -> exists v, fst (read_source info w0) = Ret v) ->
  (forall info k rows r, info ∈ map snd items ->
     fst (read_source info w0) = Ret (Some (k, rows)) -> r ∈ tl rows ->
     get_row_hash r ∈ listed (stored w1) k) ->
  forall (st : run_state) (w : world),
    idle_inv w1 st w ->
    exists st' w',
      for_each (process_source total) items st w = (Ret st', w') /\ idle_inv w1 st' w'.
Proof.
  intros Hs. induction items as [|[ss_index info] items IH]; intros Hap Hrd Hsto st w Hinv.
  - exists st, w. split; [reflexivity|exact Hinv].
  - simpl in Hap. apply Forall_cons in Hap. destruct Hap as [Hap1 Hap].
    destruct (idle_step w0 w1 total ss_index info st w Hs Hap1) as (st1 & wa & Hstep & Hinv1).
    + apply Hrd. left.
    + intros k rows r. apply Hsto. left.
    + exact Hinv.
    + destruct (IH Hap) with (st := st1) (w := wa) as (st' & w' & Hrest & Hinv').
      * intros info0 Hin. apply Hrd. right. exact Hin.
      * intros info0 k rows r Hin. apply Hsto. right. exact Hin.
      * exact Hinv1.
      * exists st', w'. split; [|exact Hinv'].
        simpl. unfold mbind, M_bind. rewrite Hstep. exact Hrest.
Qed.

Lemma cycle_unfold (w : world) (hashes : gmap string (list string))
    (sources : list source_info) :
  load_processed_hashes w = (Ret hashes, w) ->
  get_source_sheet_urls w = (Ret sources, w) ->
  cycle w = (run_sources hashes sources;; sleep (4 * 60 * 60)) w.
Proof.
  intros Hload Hcat. unfold cycle, mbind, M_bind. rewrite Hload, Hcat.
  destruct sources; reflexivity.
Qed.

Lemma idle_inv_start (w1 : world) :
  idle_inv w1 (RunState (stored w1) [] None ∅ false) w1.
Proof.
  split; simpl; try reflexivity.
  exists []. split; [rewrite app_nil_r; reflexivity|constructor].
Qed.

(** When the first cycle ends with an empty batch, so that every row it
    found new was flushed, a second cycle that starts in the world the first
    one left (the same sources, none of which is the destination
    spreadsheet, the ledger file as left, and a service that fails the same
    requests as in the first cycle) returns normally, finds no row new and
    writes nothing: it leaves the spreadsheets and the ledger file as they
    were and adds only the events of an idle pass to the trace. *)
Theorem second_cycle_is_idle (w0 : world) (hashes : gmap string (list string))
    (sources : list source_info) (stF : run_state) :
  fst (load_processed_hashes w0) = Ret hashes ->
  fst (get_source_sheet_urls w0) = Ret sources ->
  Forall apart sources ->
  fst (run_sources hashes sources w0) = Ret stF ->
  all_new_rows_for_upload stF = [] ->
  fst (cycle w0) = Ret tt
  /\ exists t,
       cycle (snd (cycle w0))
       = (Ret tt, World (drive (snd (cycle w0))) (faulty (snd (cycle w0)))
                        (file (snd (cycle w0))) (trace (snd (cycle w0)) ++ t))
       /\ Forall idle_event t.
Proof.
  intros Hload Hcat Hap Hrun Hbatch.
  destruct (load_stored_of w0 hashes Hload) as [Hfile0 Hh].
  assert (Hload0 : load_processed_hashes w0 = (Ret hashes, w0)).
  { rewrite Hh. apply load_of_stored, Hfile0. }
  assert (Hcat0 : get_source_sheet_urls w0 = (Ret sources, w0)).
  { rewrite (reads_eq _ w0 reads_get_source_sheet_urls), Hcat. reflexivity. }
  destruct (run_sources hashes sources w0) as [o wF] eqn:Erun. simpl in Hrun. subst o.
  assert (Hinv : run_inv w0 sources stF wF).
  { pose proof (run_inv_for_each w0 (length sources) (enumerate 1 sources) []
                  (RunState hashes [] None ∅ false) stF w0 wF) as Hfe.
    rewrite enumerate_snd in Hfe. apply Hfe; [exact Hap|apply run_inv_start, Hload|exact Erun]. }
  destruct Hinv as [Hsrc Hrd Hcov Hpend HfileF Hsto].
  assert (Hc0 : cycle w0 = (Ret tt, World (drive wF) (faulty wF) (file wF)
                                      (trace wF ++ [Slept (4 * 60 * 60)]))).
  { rewrite (cycle_unfold w0 hashes sources Hload0 Hcat0).
    unfold mbind, M_bind. rewrite Erun. reflexivity. }
  rewrite Hc0. cbn [fst snd]. split; [reflexivity|].
  set (w1 := World (drive wF) (faulty wF) (file wF) (trace wF ++ [Slept (4 * 60 * 60)])).
  assert (Hs1 : same_sources w0 w1) by (apply same_sources_emit, Hsrc).
  assert (Hstored1 : stored w1 = stored wF) by reflexivity.
  assert (Hload1 : load_processed_hashes w1 = (Ret (stored w1), w1))
    by (apply load_of_stored; exact HfileF).
  assert (Hcat1 : get_source_sheet_urls w1 = (Ret sources, w1)).
  { rewrite (reads_eq _ w1 reads_get_source_sheet_urls).
    rewrite (proj2 reads_get_source_sheet_urls w0 w1 Hs1), Hcat. reflexivity. }
  destruct (idle_for_each w0 w1 (length sources) (enumerate 1 sources) Hs1)
    with (st := RunState (stored w1) [] None ∅ false) (w := w1)
    as (st2 & w2 & Hrun2 & [Hd2 Hf2 Hfile2 [t [Ht Hidle]] _ _]).
  - rewrite enumerate_snd. exact Hap.
  - rewrite enumerate_snd. exact Hrd.
  - rewrite enumerate_snd. intros info k rows r Hin Hread Hr.
    specialize (Hcov info k rows r Hin Hread Hr).
    rewrite (Hpend Hbatch k), app_nil_r, Hsto in Hcov. exact Hcov.
  - apply idle_inv_start.
  - exists (t ++ [Slept (4 * 60 * 60)]). split.
    + rewrite (cycle_unfold w1 (stored w1) sources Hload1 Hcat1).
      unfold mbind, M_bind. unfold run_sources. rewrite Hrun2.
      unfold sleep, emit. rewrite Hd2, Hf2, Hfile2, Ht, <- app_assoc. reflexivity.
    + apply Forall_app. split; [exact Hidle|]. repeat constructor.
Qed.


(** The catalog of one source: its first cycle flushes the only new row
    after the last source, its second cycle is idle. *)
Lemma second_cycle_is_idle_witness :
  fst (cycle (one_appointment no_fault Absent)) = Ret tt
  /\ exists t,
       cycle (snd (cycle (one_appointment no_fault Absent)))
       = (Ret tt, World (drive (snd (cycle (one_appointment no_fault Absent))))
                        (faulty (snd (cycle (one_appointment no_fault Absent))))
                        (file (snd (cycle (one_appointment no_fault Absent))))
                        (trace (snd (cycle (one_appointment no_fault Absent))) ++ t))
       /\ Forall idle_event t.
Proof.
  apply (second_cycle_is_idle (one_appointment no_fault Absent) ∅
           [SourceInfo (sheet_url "srcA") "Acme"]
           (RunState {["srcA_0" := [get_row_hash ["Ann"; "Mon"]]]} []
                     (Some ["Name"; "Date"; "Company Name"]) ∅ true)).
  - reflexivity.
  - vm_compute. reflexivity.
  - constructor; [|constructor]. unfold apart. vm_compute. discriminate.
  - vm_compute. reflexivity.
  - reflexivity.
Defined.

(** ** The skipped flush, in general *)

(** A source that is skipped, or none of whose rows is found new, leaves
    every spreadsheet and the ledger file as they were, whatever its index:
    the batch gathered so far is not written after it, not even when it is
    the last source. *)
Lemma no_write_after_quiet_source (total : nat) (st : run_state) (ss_index : nat)
    (info : source_info) (w : world) :
  apart info ->
  match fst (read_source info w) with
  | Ret (Some (source_key, rows)) => snd (collect (name info) source_key rows st) = []
  | _ => True
  end ->
  same_stores w (snd (process_source total st (ss_index, info) w)).
Proof.
  intros Hap Hquiet. unfold same_stores, process_source. cbn [fst snd].
  unfold mbind, M_bind, emit.
  rewrite (read_in_run w _ info Hap (same_sources_emit w w _ (same_sources_refl w))).
  destruct (fst (read_source info w)) as [[[source_key rows]|]|e]; try (split; reflexivity).
  rewrite Hquiet. split; reflexivity.
Qed.


(** * Further properties, function by function *)

(** ** The address resolver *)

Lemma span_split (cls : ascii -> bool) (s : string) :
  exists post, s = span cls s +:+ post /\ all_chars cls (span cls s) = true
               /\ starts_with_class cls post = false.
Proof.
  induction s as [|c s IH]; simpl.
  - exists "". auto.
  - destruct (cls c) eqn:E.
    + destruct IH as (post & Hs & Hall & Hpost). exists post. simpl.
      split; [rewrite Hs at 1; reflexivity|]. split; [|exact Hpost].
      unfold all_chars in *. simpl. rewrite E, Hall. reflexivity.
    + exists (String c s). simpl. rewrite E. auto.
Qed.

Lemma prefix_split (lit s : string) :
  String.prefix lit s = true -> s = lit +:+ string_drop (String.length lit) s.
Proof.
  revert s. induction lit as [|a lit IH]; intros [|b s]; try reflexivity.
  - discriminate.
  - simpl. destruct (ascii_dec a b) as [->|]; [|discriminate].
    intros H. change (String b s = String b (lit +:+ string_drop (String.length lit) s)).
    f_equal. apply IH, H.
Qed.

Lemma search_after_match (lit : string) (cls : ascii -> bool) (s run : string) :
  search_after lit cls s = Some run ->
  run <> "" /\ all_chars cls run = true
  /\ exists pre post, s = pre +:+ lit +:+ run +:+ post /\ starts_with_class cls post = false.
Proof.
  induction s as [|c s IH].
  - destruct lit; discriminate.
  - cbn [search_after].
    destruct (String.prefix lit (String c s)) eqn:P.
    + destruct (span_split cls (string_drop (String.length lit) (String c s)))
        as (post & Hs & Hall & Hpost).
      destruct (span cls _) as [|a r] eqn:E.
      * intros H. destruct (IH H) as (? & ? & pre & post' & -> & ?).
        repeat split; auto. exists (String c pre), post'. auto.
      * intros [= <-]. repeat split; [discriminate|exact Hall|].
        exists "", post. split; [|exact Hpost].
        simpl. rewrite <- Hs. apply prefix_split, P.
    + intros H. destruct (IH H) as (? & ? & pre & post' & -> & ?).
      repeat split; auto. exists (String c pre), post'. auto.
Qed.

Lemma search_after_contains (lit : string) (cls : ascii -> bool) (s run : string) :
  search_after lit cls s = Some run -> contains lit s = true.
Proof.
  induction s as [|c s IH]; cbn [search_after contains].
  - destruct (String.prefix lit ""); [reflexivity|discriminate].
  - destruct (String.prefix lit (String c s)); [reflexivity|]. simpl. exact IH.
Qed.

Lemma decimal_value_range (cp d : Z) : decimal_value cp = Some d -> (0 <= d < 10)%Z.
Proof.
  unfold decimal_value.
  destruct (find _ decimal_zeros) as [zero|] eqn:E; [|discriminate].
  apply find_some in E as [_ E]. intros [= <-]. lia.
Qed.

Lemma decimal_run_range (fuel : nat) :
  forall bs, Forall (fun d => 0 <= d < 10)%Z (decimal_run fuel bs).
Proof.
  induction fuel as [|fuel IH]; intros bs; simpl; [constructor|].
  destruct (code_point bs) as [[cp n]|]; [|constructor].
  destruct (decimal_value cp) as [d|] eqn:E; [|constructor].
  constructor; [exact (decimal_value_range cp d E)|apply IH].
Qed.

Lemma decimal_number_from (digits : list Z) (acc : Z) :
  (0 <= acc)%Z -> Forall (fun d => 0 <= d < 10)%Z digits ->
  (0 <= fold_left (fun acc d => (10 * acc + d)%Z) digits acc)%Z.
Proof.
  revert acc. induction digits as [|d digits IH]; intros acc Hacc Hall; simpl; [exact Hacc|].
  inversion Hall as [|? ? Hd Hrest]; subst. apply IH; [lia|exact Hrest].
Qed.

Lemma search_decimals_match (lit s : string) (run : list Z) :
  search_decimals_after lit s = Some run ->
  contains lit s = true /\ run <> [] /\ Forall (fun d => 0 <= d < 10)%Z run.
Proof.
  induction s as [|c s IH]; cbn [search_decimals_after contains].
  - destruct (String.prefix lit ""); [|discriminate].
    destruct (decimal_run _ _) eqn:E; [discriminate|].
    intros [= <-]. rewrite <- E. split; [reflexivity|]. split; [congruence|].
    apply decimal_run_range.
  - destruct (String.prefix lit (String c s)).
    + destruct (decimal_run _ _) eqn:E.
      * intros H. destruct (IH H) as (_ & ? & ?). auto.
      * intros [= <-]. rewrite <- E. split; [reflexivity|]. split; [congruence|].
        apply decimal_run_range.
    + simpl. exact IH.
Qed.

(** The id that the resolver returns is a non-empty run of id characters
    that stands in the URL right after one of the two markers and ends where
    the id characters end. *)
Theorem extracted_id_is_a_marked_run (u id : string) (gid : Z) :
  extract_spreadsheet_info_from_url u = Ret (Some id, gid) ->
  id <> "" /\ all_chars id_char id = true
  /\ exists pre post,
       (u = pre +:+ "/spreadsheets/d/" +:+ id +:+ post \/ u = pre +:+ "id=" +:+ id +:+ post)
       /\ starts_with_class id_char post = false.
Proof.
  unfold extract_spreadsheet_info_from_url. intros H.
  assert (Hid : match search_after "/spreadsheets/d/" id_char u with
                | Some m => Some m
                | None => search_after "id=" id_char u
                end = Some id).
  { destruct (search_decimals_after "gid=" u) as [m|]; [|congruence].
    destruct (int_of_decimals m); congruence. }
  clear H. destruct (search_after "/spreadsheets/d/" id_char u) as [m|] eqn:E.
  - injection Hid as <-.
    destruct (search_after_match _ _ _ _ E) as (Hne & Hall & pre & post & Hu & Hp).
    repeat split; auto. exists pre, post. auto.
  - destruct (search_after_match _ _ _ _ Hid) as (Hne & Hall & pre & post & Hu & Hp).
    repeat split; auto. exists pre, post. auto.
Qed.

(** A URL of the usual form. *)
Lemma extracted_id_witness :
  "abc-1" <> "" /\ all_chars id_char "abc-1" = true
  /\ exists pre post,
       ("https://x/spreadsheets/d/abc-1/edit" = pre +:+ "/spreadsheets/d/" +:+ "abc-1" +:+ post
        \/ "https://x/spreadsheets/d/abc-1/edit" = pre +:+ "id=" +:+ "abc-1" +:+ post)
       /\ starts_with_class id_char post = false.
Proof.
  apply (extracted_id_is_a_marked_run "https://x/spreadsheets/d/abc-1/edit" "abc-1" 0).
  vm_compute. reflexivity.
Defined.

Lemma gid_only_value_error (u : string) (e : exn) :
  extract_spreadsheet_info_from_url u = Raise e -> e = ValueError.
Proof.
  unfold extract_spreadsheet_info_from_url, int_of_decimals.
  destruct (search_decimals_after "gid=" u) as [m|]; [|discriminate].
  destruct (int_max_str_digits <? length m)%nat; [|discriminate].
  intros [= <-]. reflexivity.
Qed.

Lemma code_point_consumes (bs : list Z) (cp : Z) (n : nat) :
  code_point bs = Some (cp, n) -> (1 <= n <= length bs)%nat.
Proof.
  unfold code_point. destruct bs as [|b0 rest]; [discriminate|].
  destruct (b0 <? 0x80)%Z; [intros [= <- <-]; simpl; lia|].
  destruct (b0 <? 0xC2)%Z; [discriminate|].
  destruct (b0 <? 0xE0)%Z.
  { destruct rest as [|b1 rest]; [discriminate|].
    destruct (continuation b1); [|discriminate]. intros [= <- <-]. simpl. lia. }
  destruct (b0 <? 0xF0)%Z.
  { destruct rest as [|b1 [|b2 rest]]; try discriminate.
    match goal with |- context [if ?c then _ else _] => destruct c end; [|discriminate].
    intros [= <- <-]. simpl. lia. }
  destruct (b0 <? 0xF5)%Z; [|discriminate].
  destruct rest as [|b1 [|b2 [|b3 rest]]]; try discriminate.
  match goal with |- context [if ?c then _ else _] => destruct c end; [|discriminate].
  intros [= <- <-]. simpl. lia.
Qed.

Lemma decimal_run_length (fuel : nat) :
  forall bs, (length (decimal_run fuel bs) <= length bs)%nat.
Proof.
  induction fuel as [|fuel IH]; intros bs; simpl; [lia|].
  destruct (code_point bs) as [[cp n]|] eqn:E; [|simpl; lia].
  destruct (decimal_value cp); [|simpl; lia].
  apply code_point_consumes in E. specialize (IH (skipn n bs)).
  rewrite length_skipn in IH. simpl. lia.
Qed.

Lemma bytes_of_length (s : string) : length (bytes_of s) = String.length s.
Proof.
  unfold bytes_of. rewrite length_map. induction s as [|c s IH]; simpl; congruence.
Qed.

Lemma string_drop_length (n : nat) (s : string) :
  (String.length (string_drop n s) <= String.length s)%nat.
Proof.
  revert s. induction n as [|n IH]; intros [|c s]; simpl; try lia.
  specialize (IH s). lia.
Qed.

Lemma search_decimals_length (lit s : string) (run : list Z) :
  search_decimals_after lit s = Some run -> (length run <= String.length s)%nat.
Proof.
  induction s as [|c s IH]; cbn [search_decimals_after].
  - destruct (String.prefix lit ""); [|discriminate].
    destruct (decimal_run _ _) eqn:E; [discriminate|]. intros [= <-]. rewrite <- E.
    etrans; [apply decimal_run_length|]. rewrite bytes_of_length. apply string_drop_length.
  - destruct (String.prefix lit (String c s)).
    + destruct (decimal_run _ _) eqn:E.
      * intros H. specialize (IH H). simpl. lia.
      * intros [= <-]. rewrite <- E.
        etrans; [apply decimal_run_length|]. rewrite bytes_of_length. apply string_drop_length.
    + intros H. specialize (IH H). simpl. lia.
Qed.

(** The gid that the resolver returns is never negative, and it is 0 for a
    URL without [gid=], which never makes the resolver raise. The only
    exception that leaves the resolver is the [ValueError] of [int], and a
    URL of at most 4300 bytes does not meet it. *)
Theorem gid_defaults_to_zero (u : string) :
  (forall id gid, extract_spreadsheet_info_from_url u = Ret (id, gid) -> (0 <= gid)%Z)
  /\ (contains "gid=" u = false ->
      exists id, extract_spreadsheet_info_from_url u = Ret (id, 0%Z))
  /\ (forall e, extract_spreadsheet_info_from_url u = Raise e -> e = ValueError)
  /\ ((String.length u <= int_max_str_digits)%nat ->
      exists id gid, extract_spreadsheet_info_from_url u = Ret (id, gid)).
Proof.
  unfold extract_spreadsheet_info_from_url, int_of_decimals.
  destruct (search_decimals_after "gid=" u) as [m|] eqn:E.
  - destruct (search_decimals_match _ _ _ E) as (Hc & _ & Hrange).
    pose proof (search_decimals_length _ _ _ E) as Hlen.
    destruct (Nat.ltb_spec int_max_str_digits (length m)).
    + split; [discriminate|]. split; [congruence|].
      split; [intros e [= <-]; reflexivity|]. intros Hu. lia.
    + split; [|split; [congruence|split; [discriminate|eauto]]].
      intros id gid [= _ <-]. apply decimal_number_from; [lia|exact Hrange].
  - split; [intros id gid [= _ <-]; lia|]. split; [eauto|]. split; [discriminate|eauto].
Qed.

Lemma append_cons (c : ascii) (a b : string) : String c a +:+ b = String c (a +:+ b).
Proof. reflexivity. Qed.

Lemma append_nil (b : string) : "" +:+ b = b.
Proof. reflexivity. Qed.

Lemma span_app (cls : ascii -> bool) (a rest : string) :
  all_chars cls a = true -> starts_with_class cls rest = false -> span cls (a +:+ rest) = a.
Proof.
  unfold all_chars. induction a as [|c a IH]; intros Hall Hrest.
  - rewrite append_nil. destruct rest as [|c r]; [reflexivity|]. simpl in *. rewrite Hrest. reflexivity.
  - rewrite append_cons. simpl in *. apply andb_prop in Hall as [-> Ha]. f_equal. auto.
Qed.

Lemma search_after_here (lit : string) (cls : ascii -> bool) (run rest : string) :
  run <> "" -> all_chars cls run = true -> starts_with_class cls rest = false ->
  search_after lit cls (lit +:+ run +:+ rest) = Some run.
Proof.
  intros Hne Hall Hrest.
  assert (Hp : String.prefix lit (lit +:+ run +:+ rest) = true).
  { induction lit as [|a lit IH]; [destruct (_ +:+ _); reflexivity|].
    rewrite append_cons. simpl. destruct (ascii_dec a a); [exact IH|congruence]. }
  assert (Hd : string_drop (String.length lit) (lit +:+ run +:+ rest) = run +:+ rest).
  { induction lit as [|a lit IH]; [reflexivity|]. rewrite append_cons. simpl. apply IH.
    destruct (ascii_dec a a); [|congruence].
    rewrite append_cons in Hp. simpl in Hp. destruct (ascii_dec a a); [exact Hp|congruence]. }
  destruct (lit +:+ run +:+ rest) as [|c s] eqn:E; cbn [search_after]; rewrite Hp, Hd,
    (span_app cls run rest Hall Hrest); destruct run; congruence.
Qed.

Lemma search_after_skip (lit : string) (cls : ascii -> bool) (c : ascii) (s : string) :
  String.prefix lit (String c s) = false ->
  search_after lit cls (String c s) = search_after lit cls s.
Proof. intros H. cbn [search_after]. rewrite H. reflexivity. Qed.

Lemma id_char_not_eq (c : ascii) : id_char c = true -> c <> "="%char.
Proof. intros H ->. discriminate. Qed.

Lemma id_char_not_slash (c : ascii) : id_char c = true -> c <> "/"%char.
Proof. intros H ->. discriminate. Qed.

Lemma string_prefix_cons (a b : ascii) (lit s : string) :
  String.prefix (String a lit) (String b s)
  = if Ascii.eqb a b then String.prefix lit s else false.
Proof.
  simpl. destruct (ascii_dec a b) as [->|Hne].
  - rewrite Ascii.eqb_refl. reflexivity.
  - apply Ascii.eqb_neq in Hne. rewrite Hne. reflexivity.
Qed.

Lemma no_gid_in_id (id rest : string) :
  all_chars id_char id = true ->
  String.prefix "gid=" (id +:+ String "/" rest) = false.
Proof.
  unfold all_chars. intros H.
  destruct id as [|c1 [|c2 [|c3 [|c4 id]]]]; rewrite ?append_cons, ?append_nil, ?string_prefix_cons;
    try reflexivity;
    repeat match goal with
           | |- context [Ascii.eqb ?a ?b] =>
               destruct (Ascii.eqb_spec a b); try discriminate; try reflexivity; subst
           end.
  cbn [list_ascii_of_string forallb] in H.
  repeat (apply andb_prop in H as [? H]). discriminate.
Qed.

Lemma bytes_of_app (a b : string) : bytes_of (a +:+ b) = bytes_of a ++ bytes_of b.
Proof.
  unfold bytes_of. induction a as [|c a IH]; [reflexivity|].
  rewrite append_cons. simpl. f_equal. exact IH.
Qed.

Lemma ascii_digit_byte (c : ascii) :
  ascii_digit c = true -> (48 <= byte_of c <= 57)%Z.
Proof.
  unfold ascii_digit, in_range, byte_of. intros H. apply andb_prop in H as [Hlo Hhi].
  apply N.leb_le in Hlo, Hhi.
  change (N_of_ascii "0") with 48%N in Hlo. change (N_of_ascii "9") with 57%N in Hhi. lia.
Qed.

Lemma decimal_value_ascii (b : Z) : (48 <= b <= 57)%Z -> decimal_value b = Some (b - 48)%Z.
Proof.
  intros Hb. unfold decimal_value, decimal_zeros. cbn [find].
  replace ((48 <=? b) && (b <? 48 + 10))%Z with true; [reflexivity|].
  symmetry. apply andb_true_intro. split; [apply Z.leb_le|apply Z.ltb_lt]; lia.
Qed.

Lemma code_point_ascii (b : Z) (rest : list Z) :
  (0 <= b < 128)%Z -> code_point (b :: rest) = Some (b, 1%nat).
Proof.
  intros Hb. unfold code_point.
  replace (b <? 128)%Z with true; [reflexivity|]. symmetry. apply Z.ltb_lt. lia.
Qed.

Lemma decimal_run_ascii (digits : string) (rest : list Z) :
  all_chars ascii_digit digits = true ->
  forall fuel, (String.length digits <= fuel)%nat ->
    decimal_run fuel (bytes_of digits ++ rest)
    = ascii_digit_values digits ++ decimal_run (fuel - String.length digits) rest.
Proof.
  unfold all_chars, ascii_digit_values, bytes_of.
  induction digits as [|c digits IH]; intros Hall fuel Hfuel.
  - simpl. rewrite Nat.sub_0_r. reflexivity.
  - simpl in Hall, Hfuel. apply andb_prop in Hall as [Hc Hall].
    destruct fuel as [|fuel]; [lia|].
    pose proof (ascii_digit_byte c Hc) as Hb.
    cbn [list_ascii_of_string map app decimal_run String.length Nat.sub].
    rewrite code_point_ascii by lia. rewrite decimal_value_ascii by exact Hb.
    f_equal. apply (IH Hall fuel). lia.
Qed.

Lemma decimal_run_stop (bs : list Z) :
  decimal_run 1 bs = [] -> forall fuel, decimal_run fuel bs = [].
Proof.
  intros H [|fuel]; [reflexivity|]. simpl in *.
  destruct (code_point bs) as [[cp n]|]; [|reflexivity].
  destruct (decimal_value cp); [discriminate|reflexivity].
Qed.

Lemma prefix_app (lit rest : string) : String.prefix lit (lit +:+ rest) = true.
Proof.
  induction lit as [|a lit IH]; [destruct (_ +:+ _); reflexivity|].
  rewrite append_cons. simpl. destruct (ascii_dec a a); [exact IH|congruence].
Qed.

Lemma string_drop_app (lit rest : string) :
  string_drop (String.length lit) (lit +:+ rest) = rest.
Proof. induction lit as [|a lit IH]; [reflexivity|]. rewrite append_cons. exact IH. Qed.

Lemma search_decimals_here (lit rest : string) (run : list Z) :
  decimal_run (length (bytes_of rest)) (bytes_of rest) = run ->
  run <> [] ->
  search_decimals_after lit (lit +:+ rest) = Some run.
Proof.
  intros Hrun Hne.
  pose proof (prefix_app lit rest) as Hp. pose proof (string_drop_app lit rest) as Hd.
  destruct (lit +:+ rest) as [|c s]; cbn [search_decimals_after];
    rewrite Hp, Hd, Hrun; destruct run; congruence.
Qed.

Lemma search_decimals_skip (lit : string) (c : ascii) (s : string) :
  String.prefix lit (String c s) = false ->
  search_decimals_after lit (String c s) = search_decimals_after lit s.
Proof. intros H. cbn [search_decimals_after]. rewrite H. reflexivity. Qed.

Lemma search_decimals_skip_id (id rest : string) :
  all_chars id_char id = true ->
  search_decimals_after "gid=" (id +:+ String "/" rest)
  = search_decimals_after "gid=" (String "/" rest).
Proof.
  induction id as [|c id IH]; intros Hall; [reflexivity|].
  rewrite append_cons, search_decimals_skip.
  - apply IH. unfold all_chars in *. simpl in Hall. apply andb_prop in Hall. tauto.
  - rewrite <- append_cons. apply no_gid_in_id, Hall.
Qed.

Lemma ascii_digit_values_length (digits : string) :
  length (ascii_digit_values digits) = String.length digits.
Proof.
  unfold ascii_digit_values. rewrite length_map.
  induction digits as [|c digits IH]; simpl; congruence.
Qed.

(** A URL of the usual form resolves to the id and the gid it was built
    from, when the gid has no more digits than [int] takes and is not
    followed by a further digit of any script. *)
Theorem canonical_url_resolves (id digits post : string) :
  id <> "" -> all_chars id_char id = true ->
  digits <> "" -> all_chars ascii_digit digits = true ->
  (String.length digits <= int_max_str_digits)%nat ->
  starts_with_decimal post = false ->
  extract_spreadsheet_info_from_url
    ("https://docs.google.com/spreadsheets/d/" +:+ id +:+ "/edit#gid=" +:+ digits +:+ post)
  = Ret (Some id, decimal_number (ascii_digit_values digits)).
Proof.
  intros Hid Hidc Hd Hdc Hlen Hpost. unfold extract_spreadsheet_info_from_url.
  assert (H1 : search_after "/spreadsheets/d/" id_char
                 ("https://docs.google.com/spreadsheets/d/" +:+ id +:+ "/edit#gid="
                  +:+ digits +:+ post)
               = Some id).
  { rewrite !append_cons, append_nil. repeat (rewrite search_after_skip by reflexivity).
    apply (search_after_here "/spreadsheets/d/" id_char id ("/edit#gid=" +:+ digits +:+ post));
      auto. }
  assert (H2 : search_decimals_after "gid="
                 ("https://docs.google.com/spreadsheets/d/" +:+ id +:+ "/edit#gid="
                  +:+ digits +:+ post)
               = Some (ascii_digit_values digits)).
  { rewrite !append_cons, append_nil. repeat (rewrite search_decimals_skip by reflexivity).
    rewrite search_decimals_skip_id by exact Hidc.
    repeat (rewrite search_decimals_skip by reflexivity).
    apply (search_decimals_here "gid=" (digits +:+ post)).
    - rewrite bytes_of_app.
      rewrite decimal_run_ascii; [|exact Hdc|].
      + rewrite decimal_run_stop; [apply app_nil_r|].
        unfold starts_with_decimal in Hpost.
        destruct (decimal_run 1 (bytes_of post)); [reflexivity|discriminate].
      + rewrite length_app. unfold bytes_of at 1. rewrite length_map.
        assert (Hl : forall s, length (list_ascii_of_string s) = String.length s)
          by (induction s as [|c s IH]; simpl; congruence).
        rewrite Hl. lia.
    - unfold ascii_digit_values. destruct digits; [congruence|discriminate]. }
  rewrite H1, H2. unfold int_of_decimals. rewrite ascii_digit_values_length.
  apply Nat.ltb_ge in Hlen. rewrite Hlen. reflexivity.
Qed.

(** An id with a hyphen and an underscore, a gid, a range after it. *)
Lemma canonical_url_resolves_witness :
  extract_spreadsheet_info_from_url
    ("https://docs.google.com/spreadsheets/d/" +:+ "1Gk7-x_Q" +:+ "/edit#gid=" +:+ "1804"
     +:+ "&range=A1")
  = Ret (Some "1Gk7-x_Q", decimal_number (ascii_digit_values "1804")).
Proof.
  apply canonical_url_resolves; try discriminate; try reflexivity.
  apply Nat.leb_le. vm_compute. reflexivity.
Defined.

(** ** The reads of a source *)

Lemma find_first {A} (p : A -> bool) (l : list A) (x : A) :
  find p l = Some x ->
  exists before after, l = before ++ x :: after /\ p x = true
                       /\ Forall (fun y => p y = false) before.
Proof.
  induction l as [|a l IH]; simpl; [discriminate|].
  destruct (p a) eqn:E.
  - intros [= <-]. exists [], l. auto.
  - intros H. destruct (IH H) as (before & after & -> & Hx & Hb).
    exists (a :: before), after. auto.
Qed.

Lemma find_none_all {A} (p : A -> bool) (l : list A) :
  find p l = None -> Forall (fun y => p y = false) l.
Proof.
  induction l as [|a l IH]; simpl; [constructor|].
  destruct (p a) eqn:E; [discriminate|]. auto.
Qed.

Lemma spreadsheets_get_ok (id : string) (w : world) (ss : list sheet) :
  faulty w (Transport (SpreadsheetsGet id)) = false ->
  faulty w (SpreadsheetsGet id) = false -> drive w !! id = Some ss ->
  spreadsheets_get id w = (Ret ss, w).
Proof.
  intros Ht Hf Hd. unfold spreadsheets_get, request. rewrite Ht, Hf, Hd. reflexivity.
Qed.

(** The three ways a metadata request ends: answered, refused, lost. *)
Lemma spreadsheets_get_cases (id : string) (w : world) :
  (faulty w (Transport (SpreadsheetsGet id)) = false
   /\ faulty w (SpreadsheetsGet id) = false
   /\ exists ss, drive w !! id = Some ss /\ spreadsheets_get id w = (Ret ss, w))
  \/ (faulty w (Transport (SpreadsheetsGet id)) = false
      /\ (faulty w (SpreadsheetsGet id) = true \/ drive w !! id = None)
      /\ spreadsheets_get id w = (Raise HttpError, w))
  \/ (faulty w (Transport (SpreadsheetsGet id)) = true
      /\ spreadsheets_get id w = (Raise TransportError, w)).
Proof.
  unfold spreadsheets_get, request.
  destruct (faulty w (Transport (SpreadsheetsGet id))); [right; right; auto|].
  destruct (faulty w (SpreadsheetsGet id)); [right; left; auto|].
  destruct (drive w !! id) as [ss|]; [left; eauto|right; left; auto].
Qed.

(** The tab that the resolver names, in a spreadsheet with at least one tab
    whose metadata can be read: the first tab with the gid, or the first
    tab of all when no tab has the gid. *)
Theorem gid_resolves_to_first_match_or_first_tab (id : string) (gid : Z) (w : world)
    (ss : list sheet) :
  faulty w (Transport (SpreadsheetsGet id)) = false ->
  faulty w (SpreadsheetsGet id) = false -> drive w !! id = Some ss -> ss <> [] ->
  exists before sh after,
    ss = before ++ sh :: after
    /\ get_sheet_name_from_gid id gid w = (Ret (Some (title sh)), w)
    /\ Forall (fun x => sheetId x <> gid) before
    /\ (sheetId sh = gid \/ (before = [] /\ Forall (fun x => sheetId x <> gid) ss)).
Proof.
  intros Ht Hf Hd Hne. unfold get_sheet_name_from_gid, try_except, mbind, M_bind.
  rewrite (spreadsheets_get_ok id w ss Ht Hf Hd).
  destruct (find (fun sh => Z.eqb (sheetId sh) gid) ss) as [sh|] eqn:E.
  - destruct (find_first _ _ _ E) as (before & after & -> & Hsh & Hb).
    exists before, sh, after. repeat split; auto.
    + eapply Forall_impl; [exact Hb|]. intros x Hx. apply Z.eqb_neq, Hx.
    + left. apply Z.eqb_eq, Hsh.
  - destruct ss as [|sh ss]; [congruence|].
    exists [], sh, ss. repeat split; auto. right. split; [reflexivity|].
    eapply Forall_impl; [exact (find_none_all _ _ E)|]. intros x Hx. apply Z.eqb_neq, Hx.
Qed.

(** Three tabs, two of which carry the gid 7: the first of the two is named. *)
Lemma gid_resolves_witness :
  exists before sh after,
    [Sheet 0 "Intro" []; Sheet 7 "Appointments" []; Sheet 7 "Copy" []] = before ++ sh :: after
    /\ get_sheet_name_from_gid "srcA" 7
         (world_of [] [] [("srcA", [Sheet 0 "Intro" []; Sheet 7 "Appointments" []; Sheet 7 "Copy" []])]
            no_fault Absent)
       = (Ret (Some (title sh)),
          world_of [] [] [("srcA", [Sheet 0 "Intro" []; Sheet 7 "Appointments" []; Sheet 7 "Copy" []])]
            no_fault Absent)
    /\ Forall (fun x => sheetId x <> 7%Z) before
    /\ (sheetId sh = 7%Z
        \/ (before = [] /\ Forall (fun x => sheetId x <> 7%Z)
                             [Sheet 0 "Intro" []; Sheet 7 "Appointments" []; Sheet 7 "Copy" []])).
Proof.
  apply gid_resolves_to_first_match_or_first_tab.
  - reflexivity.
  - reflexivity.
  - vm_compute. reflexivity.
  - discriminate.
Defined.

(** The resolver gives no name exactly when the metadata request gets an
    answer that refuses it; it changes nothing. *)
Theorem no_sheet_name_iff_request_fails (id : string) (gid : Z) (w : world) :
  snd (get_sheet_name_from_gid id gid w) = w
  /\ (fst (get_sheet_name_from_gid id gid w) = Ret None
      <-> faulty w (Transport (SpreadsheetsGet id)) = false
          /\ (faulty w (SpreadsheetsGet id) = true \/ drive w !! id = None)).
Proof.
  split; [apply get_sheet_name_from_gid_pure|].
  unfold get_sheet_name_from_gid, try_except, mbind, M_bind.
  destruct (spreadsheets_get_cases id w)
    as [(Ht & Hf & ss & Hd & ->)|[(Ht & H & ->)|(Ht & ->)]].
  - split.
    + destruct (find _ ss); [discriminate|]. destruct ss; discriminate.
    + intros [_ [H|H]]; congruence.
  - simpl. tauto.
  - simpl. split; [discriminate|]. intros [H _]. congruence.
Qed.

(** A name that the resolver returns is one of the titles that
    [get_all_sheet_titles] lists for the spreadsheet. *)
Theorem resolved_name_is_a_listed_title (id : string) (gid : Z) (w : world) (t : string) :
  fst (get_sheet_name_from_gid id gid w) = Ret (Some t) ->
  exists titles, get_all_sheet_titles id w = (Ret titles, w) /\ t ∈ titles.
Proof.
  unfold get_sheet_name_from_gid, get_all_sheet_titles, try_except, mbind, M_bind.
  destruct (spreadsheets_get_cases id w)
    as [(Ht & Hf & ss & Hd & ->)|[(Ht & H & ->)|(Ht & ->)]]; [|discriminate..].
  intros Hn. exists (map title ss). split; [reflexivity|].
  destruct (find _ ss) as [sh|] eqn:E.
  - injection Hn as <-. apply list_elem_of_In, in_map. apply find_some in E. tauto.
  - destruct ss as [|sh ss]; [discriminate|]. injection Hn as <-. left.
Qed.

(** The first source of a catalog of two. *)
Lemma resolved_name_witness :
  exists titles,
    get_all_sheet_titles "srcA" quiet_last_source = (Ret titles, quiet_last_source)
    /\ "Appointments" ∈ titles.
Proof. apply (resolved_name_is_a_listed_title "srcA" 0 quiet_last_source). reflexivity. Defined.

Lemma get_sheet_id_from_name_cases (id tab : string) (w : world) :
  (faulty w (Transport (SpreadsheetsGet id)) = true
   /\ get_sheet_id_from_name id tab w = (Raise TransportError, w))
  \/ (faulty w (Transport (SpreadsheetsGet id)) = false
      /\ exists z, get_sheet_id_from_name id tab w = (Ret z, w)
           /\ (z <> 0%Z ->
               exists before sh after,
                 drive w !! id = Some (before ++ sh :: after)
                 /\ title sh = tab /\ sheetId sh = z
                 /\ Forall (fun x => title x <> tab) before)).
Proof.
  unfold get_sheet_id_from_name, try_except, mbind, M_bind.
  destruct (spreadsheets_get_cases id w)
    as [(Ht & Hf & ss & Hd & ->)|[(Ht & H & ->)|(Ht & ->)]].
  - right. split; [exact Ht|]. unfold find_tab. destruct (find _ ss) as [sh|] eqn:E.
    + exists (sheetId sh). split; [reflexivity|]. intros _.
      destruct (find_first _ _ _ E) as (before & after & -> & Hsh & Hb).
      exists before, sh, after. repeat split; auto.
      * apply String.eqb_eq, Hsh.
      * eapply Forall_impl; [exact Hb|]. intros x Hx. apply String.eqb_neq, Hx.
    + exists 0%Z. split; [reflexivity|]. congruence.
  - right. split; [exact Ht|]. exists 0%Z. split; [reflexivity|]. congruence.
  - left. auto.
Qed.


Lemma trim_end_prefix {A} (blank : A -> bool) (l : list A) : trim_end blank l `prefix_of` l.
Proof.
  induction l as [|x l IH]; simpl; [reflexivity|].
  destruct (trim_end blank l) as [|y t].
  - destruct (blank x); [apply prefix_nil|]. apply prefix_cons, prefix_nil.
  - apply prefix_cons, IH.
Qed.

(** The three ways a read of values ends. *)
Lemma values_get_cases (id tab : string) (rng : range) (w : world) :
  (faulty w (Transport (ValuesGet id tab rng)) = false
   /\ faulty w (ValuesGet id tab rng) = false
   /\ exists ss sh, drive w !! id = Some ss /\ find_tab tab ss = Some sh
        /\ values_get id tab rng w = (Ret (read_range rng (cells sh)), w))
  \/ (faulty w (Transport (ValuesGet id tab rng)) = false
      /\ values_get id tab rng w = (Raise HttpError, w))
  \/ (faulty w (Transport (ValuesGet id tab rng)) = true
      /\ values_get id tab rng w = (Raise TransportError, w)).
Proof.
  unfold values_get, request.
  destruct (faulty w (Transport _)); [right; right; auto|].
  destruct (faulty w _); [right; left; auto|].
  destruct (drive w !! id) as [ss|]; [|right; left; auto].
  destruct (find_tab tab ss) as [sh|] eqn:E; simpl; [|right; left; auto].
  left. split; [reflexivity|]. split; [reflexivity|]. exists ss, sh. auto.
Qed.

Lemma read_range_rows (cols : nat) (g : list row) (i : nat) (r : row) :
  read_range (Range 0 None (Some cols)) g !! i = Some r ->
  exists orig, g !! i = Some orig /\ r `prefix_of` orig /\ (length r <= cols)%nat.
Proof.
  unfold read_range. cbn [skip_rows max_rows max_cols take_opt skipn].
  intros Hr.
  destruct (trim_end_prefix blank_row
              (map (fun r0 => trim_end blank_cell (firstn cols r0)) g)) as [rest Hrest].
  assert (Hi : map (fun r0 => trim_end blank_cell (firstn cols r0)) g !! i = Some r).
  { rewrite Hrest. apply lookup_app_l_Some, Hr. }
  change (map ?f g) with (f <$> g) in Hi. rewrite list_lookup_fmap in Hi.
  destruct (g !! i) as [orig|]; [|discriminate]. injection Hi as <-.
  exists orig. split; [reflexivity|]. split.
  - etrans; [apply trim_end_prefix|]. apply prefix_take.
  - etrans; [apply prefix_length, trim_end_prefix|]. rewrite length_firstn. lia.
Qed.

Lemma fetch_entire_sheet_cases (id tab : string) (w : world) :
  (faulty w (Transport (ValuesGet id tab A_Q)) = true
   /\ fetch_entire_sheet id tab w = (Raise TransportError, w))
  \/ (faulty w (Transport (ValuesGet id tab A_Q)) = false
      /\ exists rows, fetch_entire_sheet id tab w = (Ret rows, w)
           /\ forall i r, rows !! i = Some r ->
                (length r <= 17)%nat
                /\ exists ss sh orig,
                     drive w !! id = Some ss /\ find_tab tab ss = Some sh
                     /\ cells sh !! i = Some orig /\ r `prefix_of` orig).
Proof.
  unfold fetch_entire_sheet, try_except.
  destruct (values_get_cases id tab A_Q w)
    as [(Ht & Hf & ss & sh & Hd & Hfind & ->)|[(Ht & ->)|(Ht & ->)]].
  - right. split; [exact Ht|]. exists (read_range A_Q (cells sh)).
    split; [reflexivity|]. intros i r H.
    destruct (read_range_rows 17 _ _ _ H) as (orig & Ho & Hp & Hl). eauto 10.
  - right. split; [exact Ht|]. exists []. split; [reflexivity|].
    intros i r H. rewrite lookup_nil in H. discriminate.
  - left. auto.
Qed.


Lemma source_read_never_http (info : source_info) (w : world) :
  fst (read_source info w) <> Raise HttpError.
Proof.
  unfold read_source, mbind, M_bind, lift.
  destruct (extract_spreadsheet_info_from_url (url info)) as [[[ss_id|] gid]|e] eqn:Ex;
    cbn [fst snd]; [|discriminate|].
  - pose proof (get_sheet_name_from_gid_pure ss_id gid w) as Hw.
    destruct (get_sheet_name_from_gid ss_id gid w) as [[[t|]|e] w1] eqn:E;
      simpl in *; subst.
    + destruct (negb (truthy t)); [discriminate|].
      destruct (fetch_entire_sheet_cases ss_id t w) as [(_ & ->)|(_ & rows & -> & _)];
        [discriminate|].
      destruct (length rows <=? 1)%nat; discriminate.
    + discriminate.
    + unfold get_sheet_name_from_gid, try_except, mbind, M_bind in E.
      destruct (spreadsheets_get_cases ss_id w)
        as [(Ht & Hf & ss & Hd & Hg)|[(Ht & H & Hg)|(Ht & Hg)]]; rewrite Hg in E.
      * destruct (find _ ss); [discriminate|]. destruct ss; [|discriminate].
        inversion E. discriminate.
      * discriminate.
      * inversion E. discriminate.
  - rewrite (gid_only_value_error (url info) e Ex). discriminate.
Qed.

(** Reading a source changes nothing and never raises [HttpError]: a
    source whose metadata request is refused is skipped, and what is handed
    on to the loop has a header row and at least one more row. *)
Theorem failing_source_is_skipped (info : source_info) (w : world) :
  snd (read_source info w) = w
  /\ fst (read_source info w) <> Raise HttpError
  /\ (forall ss_id gid,
       extract_spreadsheet_info_from_url (url info) = Ret (Some ss_id, gid) ->
       faulty w (Transport (SpreadsheetsGet ss_id)) = false ->
       faulty w (SpreadsheetsGet ss_id) = true \/ drive w !! ss_id = None ->
       fst (read_source info w) = Ret None)
  /\ (forall source_key rows, fst (read_source info w) = Ret (Some (source_key, rows)) ->
       (2 <= length rows)%nat).
Proof.
  split; [apply read_source_pure|]. split; [apply source_read_never_http|]. split.
  - intros ss_id gid Hid Ht Hfail. unfold read_source, mbind, M_bind, lift. rewrite Hid.
    cbn [fst snd]. unfold get_sheet_name_from_gid, try_except, mbind, M_bind.
    destruct (spreadsheets_get_cases ss_id w)
      as [(_ & Hf & ss & Hd & ->)|[(_ & H & ->)|(Ht' & ->)]];
      [destruct Hfail; congruence|reflexivity|congruence].
  - intros source_key rows. unfold read_source, mbind, M_bind, lift.
    destruct (extract_spreadsheet_info_from_url (url info)) as [[[ss_id|] gid]|e];
      cbn [fst snd]; [|discriminate..].
    destruct (get_sheet_name_from_gid ss_id gid w) as [[[t|]|e] w1]; try discriminate.
    destruct (negb (truthy t)); [discriminate|].
    destruct (fetch_entire_sheet ss_id t w1) as [[rows'|e] w2]; [|discriminate].
    destruct (Nat.leb_spec (length rows') 1); [discriminate|].
    simpl. intros [= _ <-]. lia.
Qed.

(** ** The catalog, entry by entry *)

Lemma note_column_fold (headers : row) :
  forall (n : nat) (idx : Z * Z),
    let r := fold_left note_column (combine (seq n (length headers)) headers) idx in
    (fst r = fst idx /\ COMPANY_COLUMN_NAME ∉ map strip headers
     \/ exists j : nat, fst r = Z.of_nat (n + j)
          /\ map strip headers !! j = Some COMPANY_COLUMN_NAME
          /\ forall j' : nat, (j < j')%nat -> map strip headers !! j' <> Some COMPANY_COLUMN_NAME)
    /\ (snd r = snd idx /\ URL_COLUMN_NAME ∉ map strip headers
        \/ exists j : nat, snd r = Z.of_nat (n + j)
             /\ map strip headers !! j = Some URL_COLUMN_NAME
             /\ forall j' : nat, (j < j')%nat -> map strip headers !! j' <> Some URL_COLUMN_NAME).
Proof.
  induction headers as [|h hs IH]; intros n idx; cbn zeta.
  - simpl. split; left; (split; [reflexivity|]); intros H; inversion H.
  - cbn [length seq combine fold_left].
    specialize (IH (S n) (note_column idx (n, h))). cbn zeta in IH.
    destruct IH as [IHc IHu]. split.
    + destruct IHc as [[Hr Hno]|(j & Hr & Hj & Hlast)].
      * rewrite Hr. unfold note_column. cbn [fst snd].
        destruct (String.eqb_spec (strip h) COMPANY_COLUMN_NAME) as [E|E].
        -- right. exists 0%nat. rewrite Nat.add_0_r. split; [reflexivity|].
           split; [simpl; rewrite E; reflexivity|].
           intros [|j'] Hlt; [lia|]. simpl. intros Hj'. apply Hno.
           eapply list_elem_of_lookup_2, Hj'.
        -- left. split; [reflexivity|]. simpl. intros H.
           apply elem_of_cons in H as [H|H]; [congruence|auto].
      * right. exists (S j). rewrite Hr. split; [f_equal; lia|]. split; [exact Hj|].
        intros [|j'] Hlt; [lia|]. simpl. apply Hlast. lia.
    + destruct IHu as [[Hr Hno]|(j & Hr & Hj & Hlast)].
      * rewrite Hr. unfold note_column. cbn [fst snd].
        destruct (String.eqb_spec (strip h) URL_COLUMN_NAME) as [E|E].
        -- right. exists 0%nat. rewrite Nat.add_0_r. split; [reflexivity|].
           split; [simpl; rewrite E; reflexivity|].
           intros [|j'] Hlt; [lia|]. simpl. intros Hj'. apply Hno.
           eapply list_elem_of_lookup_2, Hj'.
        -- left. split; [reflexivity|]. simpl. intros H.
           apply elem_of_cons in H as [H|H]; [congruence|auto].
      * right. exists (S j). rewrite Hr. split; [f_equal; lia|]. split; [exact Hj|].
        intros [|j'] Hlt; [lia|]. simpl. apply Hlast. lia.
Qed.

(** The two column positions that the catalog settles on are those of the
    last header cells that read, once stripped, as the two column names;
    [-1] stands for a name that no header cell carries. *)
Theorem find_columns_takes_last_match (headers : row) :
  last_match COMPANY_COLUMN_NAME headers (fst (find_columns headers))
  /\ last_match URL_COLUMN_NAME headers (snd (find_columns headers)).
Proof.
  unfold find_columns, enumerate, last_match.
  destruct (note_column_fold headers 0 ((-1)%Z, (-1)%Z)) as [Hc Hu].
  split; [destruct Hc as [?|(j & Hr & ?)]|destruct Hu as [?|(j & Hr & ?)]];
    [left|right; exists j; split; [exact Hr|]|left|right; exists j; split; [exact Hr|]];
    assumption.
Qed.

Lemma unique_fold (l : list (string * string)) :
  forall (seen : gset string) (out : list source_info),
    (forall u, u ∈ seen <-> u ∈ map url out) -> NoDup (map url out) ->
    let r := fold_left
               (fun (acc : gset string * list source_info) (un : string * string) =>
                  if bool_decide (fst un ∈ fst acc) then acc
                  else ({[fst un]} ∪ fst acc, snd acc ++ [SourceInfo (fst un) (snd un)]))
               l (seen, out) in
    NoDup (map url (snd r))
    /\ exists added, snd r = out ++ added
         /\ sublist added (map source_of_pair l)
         /\ (forall u, u ∈ map url added <-> u ∈ map fst l /\ u ∉ seen)
         /\ forall s, s ∈ added ->
              exists l1 l2, l = l1 ++ (url s, name s) :: l2 /\ url s ∉ map fst l1.
Proof.
  induction l as [|un l IH]; intros seen out Hseen Hnd; cbn zeta.
  - simpl. split; [exact Hnd|]. exists []. rewrite app_nil_r. split; [reflexivity|].
    split; [constructor|]. split.
    + intros u. simpl. split; [intros H; inversion H|intros [H _]; inversion H].
    + intros s H. inversion H.
  - cbn [fold_left fst snd]. destruct (bool_decide_reflect (fst un ∈ seen)) as [Hin|Hout].
    + destruct (IH seen out Hseen Hnd) as (Hnd' & added & Hr & Hsub & Hmem & Hfirst).
      split; [exact Hnd'|]. exists added. split; [exact Hr|].
      split; [simpl; apply sublist_cons, Hsub|]. split.
      * intros u. rewrite Hmem. simpl. rewrite elem_of_cons. split; [tauto|].
        intros [[->|H] Hu]; [contradiction|tauto].
      * intros s Hs. destruct (Hfirst s Hs) as (l1 & l2 & -> & Hl1).
        exists (un :: l1), l2. split; [reflexivity|]. simpl. rewrite elem_of_cons.
        intros [E|H]; [|contradiction].
        assert (url s ∈ map url added) as Hu by (apply list_elem_of_In, in_map, list_elem_of_In, Hs).
        apply Hmem in Hu as [_ Hu]. rewrite E in Hu. contradiction.
    + destruct (IH ({[fst un]} ∪ seen) (out ++ [SourceInfo (fst un) (snd un)]))
        as (Hnd' & added & Hr & Hsub & Hmem & Hfirst).
      * intros u. rewrite map_app, elem_of_union, elem_of_app, elem_of_singleton, Hseen.
        simpl. rewrite list_elem_of_singleton. tauto.
      * rewrite map_app. apply NoDup_app. split; [exact Hnd|]. split.
        -- intros u Hu. simpl. rewrite list_elem_of_singleton. intros ->.
           apply Hout, Hseen, Hu.
        -- simpl. apply NoDup_singleton.
      * split; [exact Hnd'|]. exists (SourceInfo (fst un) (snd un) :: added).
        split; [rewrite Hr, <- app_assoc; reflexivity|].
        split; [simpl; apply sublist_skip, Hsub|]. split.
        -- intros u. simpl. rewrite !elem_of_cons, Hmem, elem_of_union, elem_of_singleton.
           split.
           ++ intros [->|[H1 H2]]; [tauto|tauto].
           ++ intros [[->|H1] H2]; [tauto|].
              destruct (decide (u = fst un)); [tauto|tauto].
        -- intros s Hs. apply elem_of_cons in Hs as [->|Hs].
           ++ exists [], l. simpl. split; [destruct un; reflexivity|]. intros H; inversion H.
           ++ destruct (Hfirst s Hs) as (l1 & l2 & -> & Hl1).
              exists (un :: l1), l2. split; [reflexivity|]. simpl. rewrite elem_of_cons.
              intros [E|H]; [|contradiction].
              assert (url s ∈ map url added) as Hu
                by (apply list_elem_of_In, in_map, list_elem_of_In, Hs).
              apply Hmem in Hu as [_ Hu]. apply Hu, elem_of_union. left.
              apply elem_of_singleton, E.
Qed.

(** Lines 185-191: of the pairs that share a URL only the first stays; the
    others keep their order, and every URL of the input is still there. *)
Theorem unique_sources_keeps_first_occurrences (l : list (string * string)) :
  NoDup (map url (unique_sources l))
  /\ sublist (unique_sources l) (map source_of_pair l)
  /\ (forall u, u ∈ map url (unique_sources l) <-> u ∈ map fst l)
  /\ forall s, s ∈ unique_sources l ->
       exists l1 l2, l = l1 ++ (url s, name s) :: l2 /\ url s ∉ map fst l1.
Proof.
  unfold unique_sources.
  destruct (unique_fold l ∅ []) as (Hnd & added & Hr & Hsub & Hmem & Hfirst).
  - intros u. simpl. split; intros H; [set_solver|inversion H].
  - constructor.
  - cbn zeta in *. rewrite Hr in *. simpl in *. repeat split; auto.
    + apply Hmem.
    + intros H. apply Hmem. split; [exact H|set_solver].
Qed.

Lemma truthy_nonempty (s : string) : truthy s = true -> s <> "".
Proof. unfold truthy. intros H ->. discriminate. Qed.

Lemma source_of_row_some (c u : nat) (r : row) (un : string * string) :
  source_of_row c u r = Some un ->
  fst un <> "" /\ snd un <> "" /\ snd un = strip (nth c r "")
  /\ (c < length r)%nat /\ (u < length r)%nat /\ nth u r "" <> "".
Proof.
  unfold source_of_row.
  destruct (blank_row r); [discriminate|].
  destruct (Nat.leb_spec (length r) (Nat.max c u)); [discriminate|].
  destruct (truthy (strip (nth c r ""))) eqn:Hn; [|discriminate].
  destruct (truthy (nth u r "")) eqn:Hu; [|discriminate]. cbn [negb orb].
  match goal with |- context [truthy ?x] => destruct (truthy x) eqn:Hx; [|discriminate] end.
  intros [= <-]. cbn [fst snd].
  repeat split; auto using truthy_nonempty; lia.
Qed.

Lemma catalog_cases (w : world) :
  ((faulty w (Transport (ValuesGet MASTER_SPREADSHEET_ID MASTER_SHEET_NAME ROW_1)) = true
    \/ faulty w (Transport (ValuesGet MASTER_SPREADSHEET_ID MASTER_SHEET_NAME A2_ZZ)) = true)
   /\ get_source_sheet_urls w = (Raise TransportError, w))
  \/ exists l, get_source_sheet_urls w = (Ret l, w)
       /\ NoDup (map url l)
       /\ Forall (fun s => url s <> "" /\ name s <> "") l
       /\ (faulty w (ValuesGet MASTER_SPREADSHEET_ID MASTER_SHEET_NAME ROW_1) = true
           \/ faulty w (ValuesGet MASTER_SPREADSHEET_ID MASTER_SHEET_NAME A2_ZZ) = true -> l = []).
Proof.
  assert (Hempty : NoDup (map url []) /\ Forall (fun s => url s <> "" /\ name s <> "") [])
    by (split; constructor).
  unfold get_source_sheet_urls, mbind, M_bind, try_except.
  destruct (values_get_cases MASTER_SPREADSHEET_ID MASTER_SHEET_NAME ROW_1 w)
    as [(Ht & Hf & ss & sh & Hd & Hfind & ->)|[(Ht & ->)|(Ht & ->)]].
  2: { right. exists []. simpl. split; [reflexivity|]. tauto. }
  2: { left. simpl. auto. }
  destruct (Z.eqb _ _); [right; exists []; simpl; split; [reflexivity|tauto]|].
  destruct (Z.eqb _ _); [right; exists []; simpl; split; [reflexivity|tauto]|].
  destruct (values_get_cases MASTER_SPREADSHEET_ID MASTER_SHEET_NAME A2_ZZ w)
    as [(Ht' & Hf' & ss' & sh' & Hd' & Hfind' & ->)|[(Ht' & ->)|(Ht' & ->)]].
  2: { right. exists []. simpl. split; [reflexivity|]. tauto. }
  2: { left. simpl. auto. }
  right. cbn [fst snd]. eexists. split; [reflexivity|]. unfold unique_sources.
  destruct (unique_fold
              (omap (source_of_row (Z.to_nat (fst (find_columns (hd [] (read_range ROW_1 (cells sh))))))
                                   (Z.to_nat (snd (find_columns (hd [] (read_range ROW_1 (cells sh)))))))
                    (read_range A2_ZZ (cells sh'))) ∅ [])
    as (Hnd & added & Hr & _ & _ & Hfirst).
  { intros u. simpl. split; intros H; [set_solver|inversion H]. }
  { constructor. }
  cbn zeta in *. split; [exact Hnd|]. split.
  - rewrite Hr. apply Forall_forall. intros s Hs. destruct (Hfirst s Hs) as (l1 & l2 & Hl & _).
    assert (Hin : (url s, name s) ∈ l1 ++ (url s, name s) :: l2)
      by (apply elem_of_app; right; left).
    rewrite <- Hl in Hin. apply list_elem_of_omap in Hin as (r & _ & Hin).
    apply source_of_row_some in Hin as (Hu & Hn & _). split; assumption.
  - intros [H|H]; congruence.
Qed.

(** The catalog. Reading it changes nothing. The one exception that leaves
    the function is that of a read of the master tab that gets no answer,
    which the handler of line 154 does not take; when both reads get an
    answer a catalog is delivered. In a delivered catalog no URL occurs
    twice and no entry has an empty URL or an empty company name, and it is
    empty when the service refuses one of the two reads. *)
Theorem catalog_entries_are_distinct_and_filled (w : world) :
  snd (get_source_sheet_urls w) = w
  /\ (forall e, fst (get_source_sheet_urls w) = Raise e ->
        e = TransportError
        /\ (faulty w (Transport (ValuesGet MASTER_SPREADSHEET_ID MASTER_SHEET_NAME ROW_1)) = true
            \/ faulty w (Transport (ValuesGet MASTER_SPREADSHEET_ID MASTER_SHEET_NAME A2_ZZ)) = true))
  /\ (faulty w (Transport (ValuesGet MASTER_SPREADSHEET_ID MASTER_SHEET_NAME ROW_1)) = false ->
      faulty w (Transport (ValuesGet MASTER_SPREADSHEET_ID MASTER_SHEET_NAME A2_ZZ)) = false ->
      exists l, fst (get_source_sheet_urls w) = Ret l)
  /\ (forall l, fst (get_source_sheet_urls w) = Ret l ->
        NoDup (map url l)
        /\ Forall (fun s => url s <> "" /\ name s <> "") l
        /\ (faulty w (ValuesGet MASTER_SPREADSHEET_ID MASTER_SHEET_NAME ROW_1) = true
            \/ faulty w (ValuesGet MASTER_SPREADSHEET_ID MASTER_SHEET_NAME A2_ZZ) = true ->
            l = [])).
Proof.
  destruct (catalog_cases w) as [(Ht & ->)|(l & -> & Hl)]; cbn [fst snd];
    (split; [reflexivity|]).
  - split; [intros e [= <-]; auto|]. split; [|discriminate].
    intros H1 H2. destruct Ht; congruence.
  - split; [discriminate|]. split; [eauto|]. intros l' [= <-]. exact Hl.
Qed.

(** ** Preparing the destination *)

Lemma read_range_A1 (g : list row) :
  read_range A1_A1 g = if blank_cell (cell_A1 g) then [] else [[cell_A1 g]].
Proof.
  unfold read_range, cell_A1. cbn [skip_rows max_rows max_cols take_opt skipn A1_A1].
  destruct g as [|[|c r] g]; [reflexivity..|].
  simpl. destruct (blank_cell c); reflexivity.
Qed.

Lemma existsb_find_tab (tab : string) (ss : list sheet) :
  existsb (fun sh => String.eqb (title sh) tab) ss
  = match find_tab tab ss with Some _ => true | None => false end.
Proof.
  unfold find_tab. induction ss as [|s ss IH]; [reflexivity|]. simpl.
  destruct (String.eqb (title s) tab); [reflexivity|exact IH].
Qed.

Lemma target_cells_tab (w : world) (g : list row) :
  target_cells w = Some g ->
  exists ss sh, drive w !! TARGET_SPREADSHEET_ID = Some ss
                /\ find_tab TARGET_SHEET_NAME ss = Some sh /\ cells sh = g.
Proof.
  unfold target_cells. destruct (drive w !! TARGET_SPREADSHEET_ID) as [ss|]; [|discriminate].
  simpl. destruct (find_tab TARGET_SHEET_NAME ss) as [sh|] eqn:Hfind; [|discriminate].
  simpl. intros [= <-]. exists ss, sh. auto.
Qed.

Lemma prepare_headed (headers : row) (w : world) (g : list row) :
  target_cells w = Some g -> cell_A1 g <> "" ->
  prepare_target_sheet headers w
  = if faulty w (Transport (SpreadsheetsGet TARGET_SPREADSHEET_ID)) then (Raise TransportError, w)
    else if faulty w (SpreadsheetsGet TARGET_SPREADSHEET_ID) then (Raise HttpError, w)
    else if faulty w (Transport (ValuesGet TARGET_SPREADSHEET_ID TARGET_SHEET_NAME A1_A1))
    then (Raise TransportError, w)
    else if faulty w (ValuesGet TARGET_SPREADSHEET_ID TARGET_SHEET_NAME A1_A1)
    then (Ret tt, printed 230 w)
    else (Ret tt, printed 244 w).
Proof.
  intros Hg Ha1. destruct (target_cells_tab w g Hg) as (ss & sh & Hd & Hfind & <-).
  unfold prepare_target_sheet, mbind, M_bind, try_except.
  destruct (spreadsheets_get_cases TARGET_SPREADSHEET_ID w)
    as [(Ht & Hf & ss0 & Hd0 & ->)|[(Ht & [H|H] & ->)|(Ht & ->)]]; rewrite Ht;
    [|rewrite H; reflexivity|congruence|reflexivity].
  rewrite Hf. rewrite Hd in Hd0. injection Hd0 as <-.
  rewrite existsb_find_tab, Hfind. cbn [negb]. unfold mret at 1, M_ret at 1.
  unfold values_get, request.
  destruct (faulty w (Transport (ValuesGet TARGET_SPREADSHEET_ID TARGET_SHEET_NAME A1_A1)));
    [reflexivity|].
  destruct (faulty w (ValuesGet TARGET_SPREADSHEET_ID TARGET_SHEET_NAME A1_A1)); [reflexivity|].
  rewrite Hd. simpl. rewrite Hfind. simpl. rewrite read_range_A1. unfold blank_cell.
  destruct (String.eqb_spec (cell_A1 (cells sh)) ""); [contradiction|reflexivity].
Qed.

(** A destination tab whose cell A1 holds a value is not written to,
    whatever the header and whatever the service does. The metadata request
    and the read of A1 end the function with their exception when they get
    no answer, and a refused metadata request ends it with [HttpError]; in
    these cases nothing is printed. Otherwise the function returns after one
    print: that of line 230 when the read of A1 is refused, that of line
    244 when it is answered. *)
Theorem prepare_keeps_a_headed_sheet (headers : row) (w : world) (g : list row) :
  target_cells w = Some g -> cell_A1 g <> "" ->
  prepare_target_sheet headers w
  = if faulty w (Transport (SpreadsheetsGet TARGET_SPREADSHEET_ID)) then (Raise TransportError, w)
    else if faulty w (SpreadsheetsGet TARGET_SPREADSHEET_ID) then (Raise HttpError, w)
    else if faulty w (Transport (ValuesGet TARGET_SPREADSHEET_ID TARGET_SHEET_NAME A1_A1))
    then (Raise TransportError, w)
    else if faulty w (ValuesGet TARGET_SPREADSHEET_ID TARGET_SHEET_NAME A1_A1)
    then (Ret tt, printed 230 w)
    else (Ret tt, printed 244 w).
Proof. exact (prepare_headed headers w g). Qed.

(** A destination with its header, and a service that refuses the data write. *)
Lemma prepare_keeps_a_headed_sheet_witness :
  prepare_target_sheet ["Other"; "Header"] (one_appointment write_fails Absent)
  = (Ret tt, printed 244 (one_appointment write_fails Absent)).
Proof.
  apply (prepare_keeps_a_headed_sheet ["Other"; "Header"] (one_appointment write_fails Absent)
           [["Name"; "Date"; "Company Name"]; ["Old"; "Sun"; "Acme"]]).
  - vm_compute. reflexivity.
  - discriminate.
Defined.

Lemma find_tab_app_new (tab : string) (ss : list sheet) (sh : sheet) :
  find_tab tab ss = None -> title sh = tab -> find_tab tab (ss ++ [sh]) = Some sh.
Proof.
  unfold find_tab. intros Hnone Ht. induction ss as [|s ss IH]; simpl in *.
  - rewrite Ht, String.eqb_refl. reflexivity.
  - destruct (String.eqb (title s) tab); [discriminate|]. apply IH, Hnone.
Qed.

Lemma prepare_blank (headers : row) (w : world) (ss : list sheet) :
  (forall c, faulty w c = false) ->
  drive w !! TARGET_SPREADSHEET_ID = Some ss ->
  (forall sh, find_tab TARGET_SHEET_NAME ss = Some sh -> cell_A1 (cells sh) = "") ->
  exists w',
    prepare_target_sheet headers w = (Ret tt, w')
    /\ target_cells w'
       = Some ((headers ++ skipn (length headers) (hd [] (tab_cells TARGET_SHEET_NAME ss)))
               :: tl (tab_cells TARGET_SHEET_NAME ss))
    /\ trace w' = trace w
                  ++ match find_tab TARGET_SHEET_NAME ss with
                     | Some _ => []
                     | None => [AddedSheet TARGET_SPREADSHEET_ID TARGET_SHEET_NAME; Printed 221]
                     end
                  ++ [Updated TARGET_SPREADSHEET_ID TARGET_SHEET_NAME 0 [headers]; Printed 242]
    /\ faulty w' = faulty w /\ file w' = file w.
Proof.
  intros Hok Hd Hblank. unfold tab_cells.
  unfold prepare_target_sheet, mbind, M_bind, try_except.
  rewrite (spreadsheets_get_ok _ w ss (Hok _) (Hok _) Hd), existsb_find_tab.
  destruct (find_tab TARGET_SHEET_NAME ss) as [sh|] eqn:Hfind; cbn [negb].
  - unfold mret, M_ret.
    rewrite (values_get_ok _ _ _ w ss sh (Hok _) (Hok _) Hd Hfind), read_range_A1.
    rewrite (Hblank sh eq_refl). cbn [blank_cell String.eqb].
    destruct (update_tab_by_title TARGET_SHEET_NAME (write_rows 0 [headers]) ss sh Hfind)
      as (ss' & Hup & Hfind' & _).
    rewrite (values_update_ok _ _ _ _ w ss ss' (Hok _) (Hok _) Hd Hup).
    eexists. split; [reflexivity|]. unfold target_cells. cbn [drive trace faulty file].
    rewrite lookup_insert_eq. simpl. rewrite Hfind'. rewrite <- !app_assoc. auto.
  - set (new := Sheet (fresh_sheet_id ss) TARGET_SHEET_NAME []).
    set (w1 := World (<[TARGET_SPREADSHEET_ID := ss ++ [new]]> (drive w)) (faulty w) (file w)
                 (trace w ++ [AddedSheet TARGET_SPREADSHEET_ID TARGET_SHEET_NAME])).
    assert (Hadd : batch_add_sheet TARGET_SPREADSHEET_ID TARGET_SHEET_NAME w = (Ret tt, w1)).
    { unfold batch_add_sheet. erewrite request_ok; [|apply Hok|apply Hok|exact Hd|rewrite Hfind; reflexivity].
      reflexivity. }
    rewrite Hadd. unfold emit at 1. fold (printed 221 w1).
    assert (Hd1 : drive (printed 221 w1) !! TARGET_SPREADSHEET_ID = Some (ss ++ [new]))
      by apply lookup_insert_eq.
    assert (Hfind1 : find_tab TARGET_SHEET_NAME (ss ++ [new]) = Some new)
      by (apply find_tab_app_new; [exact Hfind|reflexivity]).
    rewrite (values_get_ok _ _ _ (printed 221 w1) _ new (Hok _) (Hok _) Hd1 Hfind1), read_range_A1.
    cbn [blank_cell cell_A1 cells new hd String.eqb]. unfold mret, M_ret.
    destruct (update_tab_by_title TARGET_SHEET_NAME (write_rows 0 [headers]) _ new Hfind1)
      as (ss' & Hup & Hfind' & _).
    rewrite (values_update_ok _ _ _ _ (printed 221 w1) _ ss' (Hok _) (Hok _) Hd1 Hup).
    eexists. split; [reflexivity|]. unfold target_cells. cbn [drive trace faulty file w1 printed].
    rewrite lookup_insert_eq. simpl. rewrite Hfind'. rewrite <- !app_assoc. auto.
Qed.

(** On a destination whose tab is missing, or whose cell A1 is blank, and
    with a service that answers: the tab is created if need be, the header
    is written into row 1 (cells to the right of it and the rows below
    stay), each of the two followed by its print, and, when the first
    header cell is not blank, preparing again with whatever header only
    prints line 244. *)
Theorem header_is_written_once (headers : row) (w : world) (ss : list sheet) :
  (forall c, faulty w c = false) ->
  drive w !! TARGET_SPREADSHEET_ID = Some ss ->
  (forall sh, find_tab TARGET_SHEET_NAME ss = Some sh -> cell_A1 (cells sh) = "") ->
  exists w',
    prepare_target_sheet headers w = (Ret tt, w')
    /\ target_cells w'
       = Some ((headers ++ skipn (length headers) (hd [] (tab_cells TARGET_SHEET_NAME ss)))
               :: tl (tab_cells TARGET_SHEET_NAME ss))
    /\ trace w' = trace w
                  ++ match find_tab TARGET_SHEET_NAME ss with
                     | Some _ => []
                     | None => [AddedSheet TARGET_SPREADSHEET_ID TARGET_SHEET_NAME; Printed 221]
                     end
                  ++ [Updated TARGET_SPREADSHEET_ID TARGET_SHEET_NAME 0 [headers]; Printed 242]
    /\ (hd "" headers <> "" ->
        forall headers', prepare_target_sheet headers' w' = (Ret tt, printed 244 w')).
Proof.
  intros Hok Hd Hblank.
  destruct (prepare_blank headers w ss Hok Hd Hblank) as (w' & Hrun & Hcells & Htrace & Hf & _).
  exists w'. repeat split; [exact Hrun|exact Hcells|exact Htrace|].
  intros Hfirst headers'.
  rewrite (prepare_headed headers' w' _ Hcells).
  - rewrite !Hf, !Hok. reflexivity.
  - unfold cell_A1. cbn [hd]. destruct headers as [|h hs]; [contradiction|exact Hfirst].
Qed.

(** A destination spreadsheet that has another tab only. *)
Lemma header_is_written_once_witness :
  exists w',
    prepare_target_sheet ["Name"; "Company Name"]
      (world_of [] [Sheet 5 "Notes" [["x"]]] [] no_fault Absent) = (Ret tt, w')
    /\ target_cells w'
       = Some ((["Name"; "Company Name"]
                ++ skipn (length ["Name"; "Company Name"])
                     (hd [] (tab_cells TARGET_SHEET_NAME [Sheet 5 "Notes" [["x"]]])))
               :: tl (tab_cells TARGET_SHEET_NAME [Sheet 5 "Notes" [["x"]]]))
    /\ trace w' = trace (world_of [] [Sheet 5 "Notes" [["x"]]] [] no_fault Absent)
                  ++ match find_tab TARGET_SHEET_NAME [Sheet 5 "Notes" [["x"]]] with
                     | Some _ => []
                     | None => [AddedSheet TARGET_SPREADSHEET_ID TARGET_SHEET_NAME; Printed 221]
                     end
                  ++ [Updated TARGET_SPREADSHEET_ID TARGET_SHEET_NAME 0 [["Name"; "Company Name"]];
                      Printed 242]
    /\ (hd "" ["Name"; "Company Name"] <> "" ->
        forall headers', prepare_target_sheet headers' w' = (Ret tt, printed 244 w')).
Proof.
  apply (header_is_written_once ["Name"; "Company Name"]
           (world_of [] [Sheet 5 "Notes" [["x"]]] [] no_fault Absent) [Sheet 5 "Notes" [["x"]]]).
  - intros c. reflexivity.
  - vm_compute. reflexivity.
  - intros sh H. discriminate H.
Defined.

(** ** What the writes into the destination spare *)

Section Preserves.
Variable R : world -> world -> Prop.
Hypothesis R_refl : forall w, R w w.
Hypothesis R_trans : forall w1 w2 w3, R w1 w2 -> R w2 w3 -> R w1 w3.

Lemma preserves_ret {A} (a : A) : preserves R (mret a).
Proof. intros w. apply R_refl. Qed.

Lemma preserves_pure {A} (m : M A) : (forall w, snd (m w) = w) -> preserves R m.
Proof. intros H w. rewrite H. apply R_refl. Qed.

Lemma preserves_bind {A B} (m : M A) (k : A -> M B) :
  preserves R m -> (forall a, preserves R (k a)) -> preserves R (m ≫= k).
Proof.
  intros Hm Hk w. unfold mbind, M_bind. specialize (Hm w).
  destruct (m w) as [[a|e] w1]; simpl in *; [|exact Hm].
  eapply R_trans; [exact Hm|apply Hk].
Qed.

Lemma preserves_try_except {A} (m : M A) (h : exn -> option (M A)) :
  preserves R m -> (forall e handler, h e = Some handler -> preserves R handler) ->
  preserves R (try_except m h).
Proof.
  intros Hm Hh w. unfold try_except. specialize (Hm w).
  destruct (m w) as [[a|e] w1]; simpl in *; [exact Hm|].
  destruct (h e) as [handler|] eqn:E; [|exact Hm].
  eapply R_trans; [exact Hm|apply (Hh e handler E)].
Qed.

Lemma preserves_request {A} (c : call) (id : string) (k : list sheet -> option (M A)) :
  (forall w ss m, drive w !! id = Some ss -> k ss = Some m -> R w (snd (m w))) ->
  preserves R (request c id k).
Proof.
  intros Hk w. unfold request.
  destruct (faulty w (Transport c)); [apply R_refl|].
  destruct (faulty w c); [apply R_refl|].
  destruct (drive w !! id) as [ss|] eqn:Hd; [|apply R_refl].
  destruct (k ss) as [m|] eqn:E; [|apply R_refl].
  apply (Hk w ss m Hd E).
Qed.

Lemma preserves_for_each {A S} (body : S -> A -> M S) (l : list A) :
  (forall s x, preserves R (body s x)) -> forall s, preserves R (for_each body l s).
Proof.
  intros Hbody. induction l as [|x l IH]; intros s; simpl.
  - apply preserves_ret.
  - apply preserves_bind; [apply Hbody|exact IH].
Qed.

End Preserves.

Lemma same_file_refl (w : world) : same_file w w.
Proof. reflexivity. Qed.

Lemma same_file_trans (w1 w2 w3 : world) : same_file w1 w2 -> same_file w2 w3 -> same_file w1 w3.
Proof. unfold same_file. congruence. Qed.

Lemma same_headlines_refl (w : world) : same_headlines w w.
Proof. reflexivity. Qed.

Lemma same_headlines_trans (w1 w2 w3 : world) :
  same_headlines w1 w2 -> same_headlines w2 w3 -> same_headlines w1 w3.
Proof. unfold same_headlines. congruence. Qed.

(** Requests change spreadsheets, never the ledger file. *)
Lemma request_same_file {A} (c : call) (id : string) (k : list sheet -> option (M A)) :
  (forall ss m, k ss = Some m -> preserves same_file m) -> preserves same_file (request c id k).
Proof.
  intros Hk. apply preserves_request; [apply same_file_refl|].
  intros w ss m _ E. apply (Hk ss m E).
Qed.

Lemma values_update_same_file (id tab : string) (first_row : nat) (values : list row) :
  preserves same_file (values_update id tab first_row values).
Proof.
  apply request_same_file. intros ss m E.
  destruct (update_tab _ _ ss); [|discriminate]. injection E as <-. intros w. reflexivity.
Qed.

Lemma batch_insert_rows_same_file (id : string) (sheet_id : Z) (startIndex endIndex : nat) :
  preserves same_file (batch_insert_rows id sheet_id startIndex endIndex).
Proof.
  apply request_same_file. intros ss m E.
  destruct (update_tab _ _ ss); [|discriminate]. injection E as <-. intros w. reflexivity.
Qed.


Lemma get_sheet_id_from_name_pure (id tab : string) (w : world) :
  snd (get_sheet_id_from_name id tab w) = w.
Proof.
  destruct (get_sheet_id_from_name_cases id tab w) as [(_ & ->)|(_ & z & -> & _)]; reflexivity.
Qed.



Lemma append_rows_same_file (rows : list row) : preserves same_file (append_rows rows).
Proof.
  destruct rows as [|r rows]; [apply (preserves_ret _ same_file_refl)|].
  set (batch := r :: rows). unfold append_rows. fold batch.
  apply (preserves_try_except _ same_file_trans).
  - apply (preserves_bind _ same_file_trans);
      [apply (preserves_pure _ same_file_refl); intros w; apply values_get_pure|].
    intros [|v vs]; [apply values_update_same_file|].
    apply (preserves_bind _ same_file_trans);
      [apply (preserves_pure _ same_file_refl); intros w; apply get_sheet_id_from_name_pure|].
    intros sheet_id. apply (preserves_bind _ same_file_trans);
      [apply batch_insert_rows_same_file|intros _; apply values_update_same_file].
  - intros e handler [= <-]. apply (preserves_ret _ same_file_refl).
Qed.

Lemma update_tab_headlines (p : sheet -> bool) (f : list row -> list row) (ss ss' : list sheet) :
  (forall g, hd [] (f g) = hd [] g) ->
  update_tab p f ss = Some ss' -> map headline ss' = map headline ss.
Proof.
  intros Hf. revert ss'. induction ss as [|s ss IH]; intros ss'; simpl; [discriminate|].
  destruct (p s).
  - intros [= <-]. simpl. unfold headline at 1 3. simpl. rewrite Hf. reflexivity.
  - destruct (update_tab p f ss) as [ss1|]; [|discriminate]. intros [= <-].
    simpl. f_equal. apply IH. reflexivity.
Qed.

Lemma store_same_headlines (w : world) (id : string) (ss ss' : list sheet) (e : event) :
  drive w !! id = Some ss -> map headline ss' = map headline ss ->
  same_headlines w (snd ((set_drive (<[id := ss']> (drive w));; emit e) w)).
Proof.
  intros Hd Hh. unfold same_headlines. simpl. rewrite fmap_insert, Hh.
  apply insert_id. rewrite lookup_fmap, Hd. reflexivity.
Qed.

Lemma insert_rows_first_row (n : nat) (g : list row) :
  hd [] (insert_rows 1 n g) = hd [] g.
Proof. unfold insert_rows. destruct g as [|r g]; reflexivity. Qed.

Lemma write_rows_first_row (values g : list row) : hd [] (write_rows 1 values g) = hd [] g.
Proof. reflexivity. Qed.

Lemma values_update_same_headlines (id tab : string) (values : list row) :
  preserves same_headlines (values_update id tab 1 values).
Proof.
  apply preserves_request; [apply same_headlines_refl|]. intros w ss m Hd E.
  destruct (update_tab _ _ ss) as [ss'|] eqn:Hup; [|discriminate]. injection E as <-.
  apply (store_same_headlines w id ss ss' _ Hd).
  apply (update_tab_headlines _ _ _ _ (write_rows_first_row values) Hup).
Qed.

Lemma batch_insert_rows_same_headlines (id : string) (sheet_id : Z) (n : nat) :
  preserves same_headlines (batch_insert_rows id sheet_id 1 n).
Proof.
  apply preserves_request; [apply same_headlines_refl|]. intros w ss m Hd E.
  destruct (update_tab _ _ ss) as [ss'|] eqn:Hup; [|discriminate]. injection E as <-.
  apply (store_same_headlines w id ss ss' _ Hd).
  apply (update_tab_headlines _ _ _ _ (insert_rows_first_row n) Hup).
Qed.

Lemma append_rows_same_headlines (rows : list row) : preserves same_headlines (append_rows rows).
Proof.
  destruct rows as [|r rows]; [apply (preserves_ret _ same_headlines_refl)|].
  set (batch := r :: rows). unfold append_rows. fold batch.
  apply (preserves_try_except _ same_headlines_trans).
  - apply (preserves_bind _ same_headlines_trans);
      [apply (preserves_pure _ same_headlines_refl); intros w; apply values_get_pure|].
    intros [|v vs]; [apply values_update_same_headlines|].
    apply (preserves_bind _ same_headlines_trans);
      [apply (preserves_pure _ same_headlines_refl); intros w; apply get_sheet_id_from_name_pure|].
    intros sheet_id. apply (preserves_bind _ same_headlines_trans);
      [apply batch_insert_rows_same_headlines|intros _; apply values_update_same_headlines].
  - intros e handler [= <-]. apply (preserves_ret _ same_headlines_refl).
Qed.

(** Whatever the batch and whatever the service does, [append_rows] returns
    normally and touches neither the ledger file, nor a spreadsheet other
    than the destination, nor the first row, the title or the id of any
    tab; without rows it does nothing at all. *)
Theorem append_rows_spares_header_and_ledger (rows : list row) (w : world) :
  exists w',
    append_rows rows w = (Ret tt, w')
    /\ same_headlines w w' /\ same_file w w' /\ same_sources w w'
    /\ (rows = [] -> w' = w).
Proof.
  destruct (append_rows_never_raises rows w) as [w' Hrun]. exists w'.
  pose proof (append_rows_same_headlines rows w) as Hh.
  pose proof (append_rows_same_file rows w) as Hf.
  pose proof (keeps_append_rows rows w) as Hs.
  rewrite Hrun in Hh, Hf, Hs. repeat split; try assumption; try apply Hs.
  intros ->. injection Hrun as <-. reflexivity.
Qed.

Lemma trim_end_nil {A} (blank : A -> bool) (l : list A) :
  trim_end blank l = [] <-> forallb blank l = true.
Proof.
  induction l as [|x l IH]; simpl; [tauto|].
  destruct (trim_end blank l) as [|y t].
  - destruct (blank x); simpl; [tauto|]. split; discriminate.
  - split; [discriminate|]. intros H. apply andb_prop in H as [_ H].
    apply IH in H. discriminate.
Qed.

(** Column A reads as empty exactly when the first cell of every row is
    blank. *)
Lemma read_range_A_A_nil (g : list row) :
  read_range A_A g = [] <-> Forall (fun r => hd "" r = "") g.
Proof.
  unfold read_range. cbn [skip_rows max_rows max_cols take_opt skipn A_A].
  rewrite trim_end_nil, forallb_forall, Forall_forall. split.
  - intros H r Hr. specialize (H (trim_end blank_cell (firstn 1 r))).
    destruct r as [|c r]; [reflexivity|]. simpl in *.
    destruct (String.eqb_spec c ""); [assumption|].
    assert (Hin : In [c] (map (fun r0 => trim_end blank_cell (firstn 1 r0)) g)).
    { apply in_map_iff. exists (c :: r). split; [|apply list_elem_of_In, Hr].
      simpl. unfold blank_cell. destruct (String.eqb_spec c ""); [contradiction|reflexivity]. }
    unfold blank_cell in H. destruct (String.eqb_spec c ""); [contradiction|].
    specialize (H Hin). discriminate.
  - intros H r Hr. apply in_map_iff in Hr as (r0 & <- & Hr0).
    apply list_elem_of_In, H in Hr0. destruct r0 as [|c r0]; [reflexivity|].
    simpl in *. subst c. reflexivity.
Qed.

(** A destination tab whose column A is blank in every row is taken for an
    empty one when the two requests get their answers: no rows are
    inserted, the batch is written from row 2 on over the rows that are
    there, and row 1 stays. *)
Theorem batch_overwrites_below_blank_first_column (rows : list row) (w : world)
    (ss : list sheet) (sh : sheet) :
  faulty w (Transport (ValuesGet TARGET_SPREADSHEET_ID TARGET_SHEET_NAME A_A)) = false ->
  faulty w (ValuesGet TARGET_SPREADSHEET_ID TARGET_SHEET_NAME A_A) = false ->
  faulty w (Transport (ValuesUpdate TARGET_SPREADSHEET_ID TARGET_SHEET_NAME 1)) = false ->
  faulty w (ValuesUpdate TARGET_SPREADSHEET_ID TARGET_SHEET_NAME 1) = false ->
  drive w !! TARGET_SPREADSHEET_ID = Some ss ->
  find_tab TARGET_SHEET_NAME ss = Some sh ->
  Forall (fun r => hd "" r = "") (cells sh) ->
  rows <> [] ->
  exists w',
    append_rows rows w = (Ret tt, w')
    /\ target_cells w' = Some (hd [] (cells sh) :: overwrite_rows rows (tl (cells sh)))
    /\ trace w' = trace w ++ [Updated TARGET_SPREADSHEET_ID TARGET_SHEET_NAME 1 rows].
Proof.
  intros Ht1 Hf1 Ht2 Hf2 Hd Hfind Hblank Hrows.
  destruct rows as [|r rows]; [contradiction|].
  unfold append_rows, try_except, mbind, M_bind.
  rewrite (values_get_ok _ _ _ w ss sh Ht1 Hf1 Hd Hfind).
  apply read_range_A_A_nil in Hblank. rewrite Hblank.
  destruct (update_tab_by_title TARGET_SHEET_NAME (write_rows 1 (r :: rows)) ss sh Hfind)
    as (ss' & Hup & Hfind' & _).
  rewrite (values_update_ok _ _ _ _ w ss ss' Ht2 Hf2 Hd Hup).
  eexists. split; [reflexivity|]. unfold target_cells. cbn [drive trace].
  rewrite lookup_insert_eq. simpl. rewrite Hfind'. auto.
Qed.

(** A tab whose column A is blank: the row below the first is overwritten up to
    the width of the batch row. *)
Lemma batch_overwrites_witness :
  exists w',
    append_rows [[""; "New"]]
      (world_of [] [Sheet 0 TARGET_SHEET_NAME [[""; "Name"]; [""; "Old"; "kept"]]] []
         no_fault Absent) = (Ret tt, w')
    /\ target_cells w'
       = Some (hd [] (cells (Sheet 0 TARGET_SHEET_NAME [[""; "Name"]; [""; "Old"; "kept"]]))
               :: overwrite_rows [[""; "New"]]
                    (tl (cells (Sheet 0 TARGET_SHEET_NAME [[""; "Name"]; [""; "Old"; "kept"]]))))
    /\ trace w'
       = trace (world_of [] [Sheet 0 TARGET_SHEET_NAME [[""; "Name"]; [""; "Old"; "kept"]]] []
                  no_fault Absent)
         ++ [Updated TARGET_SPREADSHEET_ID TARGET_SHEET_NAME 1 [[""; "New"]]].
Proof.
  apply (batch_overwrites_below_blank_first_column _ _
           [Sheet 0 TARGET_SHEET_NAME [[""; "Name"]; [""; "Old"; "kept"]]]).
  - reflexivity.
  - reflexivity.
  - reflexivity.
  - reflexivity.
  - vm_compute. reflexivity.
  - reflexivity.
  - repeat constructor.
  - discriminate.
Defined.

(** ** The ledger only grows *)






Lemma flush_last_saved (st st' : run_state) (w w' : world) :
  flush st w = (Ret st', w') -> last (trace w') = Some (Saved (processed_hashes st')).
Proof.
  unfold flush, mbind, M_bind.
  destruct (headers_prepared_this_run st), (master_header_with_company st) as [headers|];
    simpl;
    try (destruct (prepare_target_sheet headers w) as [[[]|e] w1]; [|discriminate]; simpl);
    match goal with
    | |- context [append_rows ?b ?w0] =>
        destruct (append_rows_never_raises b w0) as [w2 ->]
    end;
    simpl; intros [= <- <-]; simpl; apply last_snoc.
Qed.

(** What a flush leaves: the ledger in memory is the one on disk, it holds
    for every key the fingerprints it held followed by those that were
    pending, and nothing is pending any more. *)
Theorem flush_persists_the_pending (st st' : run_state) (w w' : world) :
  flush st w = (Ret st', w') ->
  load_processed_hashes w' = (Ret (processed_hashes st'), w')
  /\ (forall k, listed (processed_hashes st') k
                = listed (processed_hashes st) k ++ listed (newly_processed_this_run st) k)
  /\ all_new_rows_for_upload st' = []
  /\ newly_processed_this_run st' = ∅
  /\ last (trace w') = Some (Saved (processed_hashes st')).
Proof.
  intros Hrun. destruct (flush_result st st' w w' Hrun) as (Hph & Hb & Hp & Hfile).
  split; [apply load_stored; rewrite Hfile, Hph; reflexivity|].
  split; [intros k; rewrite Hph; apply listed_commit|].
  split; [exact Hb|]. split; [exact Hp|].
  apply (flush_last_saved st st' w w' Hrun).
Qed.

(** One row in the batch, one fingerprint pending. *)
Lemma flush_persists_witness :
  load_processed_hashes (snd (flush one_pending (one_appointment no_fault Absent)))
  = (Ret (processed_hashes
            (result_or one_pending (flush one_pending) (one_appointment no_fault Absent))),
     snd (flush one_pending (one_appointment no_fault Absent)))
  /\ (forall k,
        listed (processed_hashes
                  (result_or one_pending (flush one_pending) (one_appointment no_fault Absent))) k
        = listed (processed_hashes one_pending) k
          ++ listed (newly_processed_this_run one_pending) k)
  /\ all_new_rows_for_upload
       (result_or one_pending (flush one_pending) (one_appointment no_fault Absent)) = []
  /\ newly_processed_this_run
       (result_or one_pending (flush one_pending) (one_appointment no_fault Absent)) = ∅
  /\ last (trace (snd (flush one_pending (one_appointment no_fault Absent))))
     = Some (Saved (processed_hashes
                      (result_or one_pending (flush one_pending)
                         (one_appointment no_fault Absent)))).
Proof.
  apply (flush_persists_the_pending one_pending _ (one_appointment no_fault Absent)).
  vm_compute. reflexivity.
Defined.




Lemma get_source_sheet_urls_eq (w : world) :
  get_source_sheet_urls w = (fst (get_source_sheet_urls w), w).
Proof. apply reads_eq, reads_get_source_sheet_urls. Qed.



(** ** Sources are only read *)

Lemma keeps_cycle : keeps_sources cycle.
Proof.
  unfold cycle. apply keeps_bind; [apply keeps_pure, load_processed_hashes_pure|].
  intros hashes. apply keeps_bind.
  { apply keeps_pure. intros w. rewrite get_source_sheet_urls_eq. reflexivity. }
  intros [|s sources]; [apply keeps_emit|].
  apply keeps_bind; [|intros _; apply keeps_emit].
  apply keeps_for_each. intros st item. apply keeps_process_source.
Qed.

(** However many turns the loop takes and whatever fails, the master
    spreadsheet and every spreadsheet other than the destination end as
    they started: the script writes into the destination only. *)
Theorem only_the_destination_is_written (turns : nat) (w : world) :
  same_sources w (snd (main turns w)).
Proof.
  change (main turns) with (poll turns). revert w.
  induction turns as [|n IH]; intros w; [apply same_sources_refl|].
  simpl. apply keeps_bind; [apply keeps_cycle|]. intros _ w1. apply IH.
Qed.

(** ** When the ledger is saved *)

Lemma collect_batch_nonempty (company_name source_key : string) (rows : list row)
    (st : run_state) :
  snd (collect company_name source_key rows st) <> [] ->
  is_nil (all_new_rows_for_upload (fst (collect company_name source_key rows st))) = false.
Proof.
  rewrite collect_batch, <- (collect_found company_name).
  destruct (snd (collect company_name source_key rows st)) as [|r found]; [congruence|].
  intros _. destruct (all_new_rows_for_upload st); reflexivity.
Qed.

Lemma flush_point_test (total ss_index : nat) :
  ((ss_index mod 25 =? 0)%nat || (ss_index =? total)%nat) = true <-> flush_point total ss_index.
Proof.
  unfold flush_point. rewrite orb_true_iff, !Nat.eqb_eq. reflexivity.
Qed.

(** Taking up a source that is not the destination, when it returns: the
    trace ends with a save of the ledger exactly when the source was read,
    some of its rows were found new, and its index is a multiple of 25 or
    that of the last source, and what is saved then is the ledger that the
    loop goes on with. In every other case the trace ends with the pause
    of three seconds when the source was read, and with the line that
    takes up the source when it was skipped. *)
Theorem ledger_is_saved_exactly_at_flush_points (total ss_index : nat) (info : source_info)
    (st st' : run_state) (w w' : world) :
  apart info ->
  process_source total st (ss_index, info) w = (Ret st', w') ->
  ((exists hashes, last (trace w') = Some (Saved hashes))
   <-> reaches_flush total ss_index info st w)
  /\ (reaches_flush total ss_index info st w ->
      last (trace w') = Some (Saved (processed_hashes st')))
  /\ (~ reaches_flush total ss_index info st w ->
      ((exists source_key rows, fst (read_source info w) = Ret (Some (source_key, rows)))
       /\ last (trace w') = Some (Slept 3))
      \/ (fst (read_source info w) = Ret None
          /\ last (trace w') = Some (Checking ss_index))).
Proof.
  intros Hap. unfold reaches_flush, process_source. cbn [fst snd].
  unfold mbind, M_bind, emit, sleep.
  rewrite (read_in_run w _ info Hap (same_sources_emit w w _ (same_sources_refl w))).
  destruct (fst (read_source info w)) as [[[source_key rows]|]|e]; cbn [fst snd].
  - destruct (snd (collect (name info) source_key rows st)) as [|r found] eqn:Hfound.
    + unfold emit. intros [= <- <-]. cbn [trace]. rewrite last_snoc.
      assert (Hno : ~ (flush_point total ss_index
                       /\ exists k rows', Ret (Some (source_key, rows)) = Ret (Some (k, rows'))
                            /\ snd (collect (name info) k rows' st) <> [])).
      { intros (_ & k & rows' & [= <- <-] & Hne). congruence. }
      split; [split; [intros [hashes [=]]|intros H; destruct (Hno H)]|].
      split; [intros H; destruct (Hno H)|]. intros _. left. eauto.
    + unfold emit. cbn [fst snd drive faulty file trace].
      rewrite (collect_batch_nonempty (name info) source_key rows st) by congruence.
      cbn [negb andb].
      destruct ((ss_index mod 25 =? 0)%nat || (ss_index =? total)%nat) eqn:Htest.
      * intros Hflush. apply flush_last_saved in Hflush.
        assert (Hyes : flush_point total ss_index
                       /\ exists k rows', Ret (Some (source_key, rows)) = Ret (Some (k, rows'))
                            /\ snd (collect (name info) k rows' st) <> []).
        { split; [apply flush_point_test, Htest|].
          exists source_key, rows. split; [reflexivity|congruence]. }
        split; [split; [intros _; exact Hyes|intros _; eauto]|].
        split; [intros _; exact Hflush|]. intros H. destruct (H Hyes).
      * intros [= <- <-]. cbn [trace]. rewrite last_snoc.
        assert (Hno : ~ (flush_point total ss_index
                         /\ exists k rows', Ret (Some (source_key, rows)) = Ret (Some (k, rows'))
                              /\ snd (collect (name info) k rows' st) <> [])).
        { intros [Hfp _]. apply flush_point_test in Hfp. congruence. }
        split; [split; [intros [hashes [=]]|intros H; destruct (Hno H)]|].
        split; [intros H; destruct (Hno H)|]. intros _. left. eauto.
  - intros [= <- <-]. cbn [trace]. rewrite last_snoc.
    assert (Hno : ~ (flush_point total ss_index
                     /\ exists k rows', @Ret (option (string * list row)) None = Ret (Some (k, rows'))
                          /\ snd (collect (name info) k rows' st) <> [])).
    { intros (_ & k & rows' & [=] & _). }
    split; [split; [intros [hashes [=]]|intros H; destruct (Hno H)]|].
    split; [intros H; destruct (Hno H)|]. intros _. right. auto.
  - discriminate.
Qed.

(** A source with one new row, taken up as the last of two. *)
Lemma ledger_is_saved_witness :
  ((exists hashes,
      last (trace (snd (process_source 2 (RunState ∅ [] None ∅ false)
                          (2%nat, SourceInfo (sheet_url "srcA") "Acme") quiet_last_source)))
      = Some (Saved hashes))
   <-> reaches_flush 2 2 (SourceInfo (sheet_url "srcA") "Acme") (RunState ∅ [] None ∅ false)
         quiet_last_source)
  /\ (reaches_flush 2 2 (SourceInfo (sheet_url "srcA") "Acme") (RunState ∅ [] None ∅ false)
        quiet_last_source ->
      last (trace (snd (process_source 2 (RunState ∅ [] None ∅ false)
                          (2%nat, SourceInfo (sheet_url "srcA") "Acme") quiet_last_source)))
      = Some (Saved (processed_hashes
                       (result_or one_pending
                          (process_source 2 (RunState ∅ [] None ∅ false)
                             (2%nat, SourceInfo (sheet_url "srcA") "Acme"))
                          quiet_last_source))))
  /\ (~ reaches_flush 2 2 (SourceInfo (sheet_url "srcA") "Acme") (RunState ∅ [] None ∅ false)
          quiet_last_source ->
      ((exists source_key rows,
          fst (read_source (SourceInfo (sheet_url "srcA") "Acme") quiet_last_source)
          = Ret (Some (source_key, rows)))
       /\ last (trace (snd (process_source 2 (RunState ∅ [] None ∅ false)
                              (2%nat, SourceInfo (sheet_url "srcA") "Acme") quiet_last_source)))
          = Some (Slept 3))
      \/ (fst (read_source (SourceInfo (sheet_url "srcA") "Acme") quiet_last_source) = Ret None
          /\ last (trace (snd (process_source 2 (RunState ∅ [] None ∅ false)
                                 (2%nat, SourceInfo (sheet_url "srcA") "Acme") quiet_last_source)))
             = Some (Checking 2))).
Proof.
  apply (ledger_is_saved_exactly_at_flush_points 2 2 (SourceInfo (sheet_url "srcA") "Acme")
           (RunState ∅ [] None ∅ false)
           (result_or one_pending
              (process_source 2 (RunState ∅ [] None ∅ false)
                 (2%nat, SourceInfo (sheet_url "srcA") "Acme"))
              quiet_last_source)
           quiet_last_source).
  - unfold apart. vm_compute. discriminate.
  - vm_compute. reflexivity.
Defined.

(** ** The destination header of a run *)

Lemma collect_keeps_header (company_name source_key : string) (rows : list row)
    (st : run_state) (h : row) :
  master_header_with_company st = Some h ->
  master_header_with_company (fst (collect company_name source_key rows st)) = Some h.
Proof.
  intros Hh. unfold collect. destruct (fst (scan_data_rows _ _ _ _)); simpl; rewrite Hh;
    reflexivity.
Qed.

Lemma flush_keeps_header (st st' : run_state) (w : world) :
  fst (flush st w) = Ret st' ->
  master_header_with_company st' = master_header_with_company st.
Proof.
  unfold flush, mbind, M_bind.
  destruct (headers_prepared_this_run st), (master_header_with_company st) as [headers|];
    simpl;
    try (destruct (prepare_target_sheet headers w) as [[[]|e] w1]; [|discriminate]; simpl);
    match goal with
    | |- context [append_rows ?b ?w0] =>
        destruct (append_rows_never_raises b w0) as [w2 ->]
    end;
    simpl; intros [= <-]; reflexivity.
Qed.

Lemma process_source_keeps_header (total : nat) (st st' : run_state)
    (item : nat * source_info) (w : world) (h : row) :
  master_header_with_company st = Some h ->
  fst (process_source total st item w) = Ret st' ->
  master_header_with_company st' = Some h.
Proof.
  intros Hh. unfold process_source, mbind, M_bind, emit, sleep. cbn [fst snd].
  rewrite read_source_eq.
  destruct (fst (read_source (snd item) _)) as [[[source_key rows]|]|e]; cbn [fst snd].
  - pose proof (collect_keeps_header (name (snd item)) source_key rows st h Hh) as Hc.
    destruct (snd (collect _ _ rows st)) as [|r found]; cbn [fst snd].
    + intros [= <-]. exact Hc.
    + unfold emit. cbn [fst snd]. destruct (negb _ && _).
      * intros Hf. rewrite (flush_keeps_header _ _ _ Hf). exact Hc.
      * intros [= <-]. exact Hc.
  - intros [= <-]. exact Hh.
  - discriminate.
Qed.

(** The destination header is captured once in a run: the sources that
    follow, whatever their own header rows, leave it as it is. *)
Theorem destination_header_is_captured_once (total : nat) (items : list (nat * source_info))
    (st st' : run_state) (w : world) (h : row) :
  master_header_with_company st = Some h ->
  fst (for_each (process_source total) items st w) = Ret st' ->
  master_header_with_company st' = Some h.
Proof.
  revert st w. induction items as [|item items IH]; intros st w Hh; simpl.
  - intros [= <-]. exact Hh.
  - unfold mbind, M_bind.
    destruct (process_source total st item w) as [[st1|e] w1] eqn:E; [|discriminate].
    intros Hrest. apply (IH st1 w1); [|exact Hrest].
    apply (process_source_keeps_header total st st1 item w h Hh). rewrite E. reflexivity.
Qed.

(** Two sources with narrower header rows, after a header of four cells. *)
Lemma destination_header_witness :
  master_header_with_company
    (result_or one_pending
       (for_each (process_source 2)
          (enumerate 1 [SourceInfo (sheet_url "srcA") "Acme"; SourceInfo (sheet_url "srcB") "Bolt"])
          (RunState ∅ [] (Some ["Wide"; "Header"; "Of"; "Before"]) ∅ false))
       two_widths)
  = Some ["Wide"; "Header"; "Of"; "Before"].
Proof.
  apply (destination_header_is_captured_once 2
           (enumerate 1 [SourceInfo (sheet_url "srcA") "Acme"; SourceInfo (sheet_url "srcB") "Bolt"])
           (RunState ∅ [] (Some ["Wide"; "Header"; "Of"; "Before"]) ∅ false) _ two_widths).
  - reflexivity.
  - vm_compute. reflexivity.
Defined.

(** ** A flush that fails *)



(** ** One pending fingerprint for each row of the batch *)

Lemma pending_count_insert_new (k : string) (l : list string) (d : gmap string (list string)) :
  d !! k = None -> pending_count (<[k := l]> d) = (length l + pending_count d)%nat.
Proof.
  intros Hk. unfold pending_count.
  apply (map_fold_insert_L (fun _ (l : list string) n => (length l + n)%nat)); [|exact Hk].
  intros. lia.
Qed.

Lemma pending_count_insert (k : string) (l : list string) (d : gmap string (list string)) :
  (pending_count (<[k := l]> d) + length (listed d k) = pending_count d + length l)%nat.
Proof.
  unfold listed. destruct (d !! k) as [old|] eqn:Hk; simpl.
  - rewrite <- (insert_delete_id d k old Hk) at 2.
    rewrite <- (insert_delete_eq d k l).
    rewrite !pending_count_insert_new by apply lookup_delete_eq. lia.
  - rewrite pending_count_insert_new by exact Hk. lia.
Qed.

Lemma pending_count_append_at (k h : string) (d : gmap string (list string)) :
  pending_count (append_at k h d) = S (pending_count d).
Proof.
  unfold append_at. pose proof (pending_count_insert k (default [] (d !! k) ++ [h]) d) as H.
  unfold listed in H. rewrite length_app in H. simpl in H. lia.
Qed.

Lemma pending_count_append_all (k : string) (hs : list string) :
  forall d : gmap string (list string),
    pending_count (fold_left (fun m h => append_at k h m) hs d)
    = (pending_count d + length hs)%nat.
Proof.
  induction hs as [|h hs IH]; intros d; simpl; [lia|].
  rewrite IH, pending_count_append_at. lia.
Qed.

Lemma pending_count_setdefault_empty (k : string) (d : gmap string (list string)) :
  pending_count (setdefault_empty k d) = pending_count d.
Proof.
  unfold setdefault_empty. destruct (d !! k) eqn:Hk; [reflexivity|].
  rewrite pending_count_insert_new by exact Hk. reflexivity.
Qed.

Lemma collect_counts (company_name source_key : string) (rows : list row) (st : run_state) :
  length (all_new_rows_for_upload st) = pending_count (newly_processed_this_run st) ->
  length (all_new_rows_for_upload (fst (collect company_name source_key rows st)))
  = pending_count (newly_processed_this_run (fst (collect company_name source_key rows st))).
Proof.
  intros Hinv.
  assert (Hnpr : newly_processed_this_run (fst (collect company_name source_key rows st))
    = snd (scan_data_rows source_key
             (list_to_set (default [] (setdefault_empty source_key (processed_hashes st) !! source_key)))
             (tl rows) (setdefault_empty source_key (newly_processed_this_run st)))).
  { unfold collect. destruct (fst (scan_data_rows _ _ _ _)); reflexivity. }
  assert (Hbatch : all_new_rows_for_upload (fst (collect company_name source_key rows st))
    = all_new_rows_for_upload st
      ++ map (padded_with_company (hd [] rows) company_name)
           (fst (scan_data_rows source_key
             (list_to_set (default [] (setdefault_empty source_key (processed_hashes st) !! source_key)))
             (tl rows) (setdefault_empty source_key (newly_processed_this_run st))))).
  { unfold collect. destruct (fst (scan_data_rows _ _ _ _)); simpl;
      [rewrite app_nil_r|]; reflexivity. }
  rewrite Hnpr, Hbatch. unfold scan_data_rows. rewrite scan_data_rows_from. cbn [fst snd].
  rewrite pending_count_append_all, pending_count_setdefault_empty.
  rewrite length_app, !length_map. simpl. lia.
Qed.

Lemma process_source_counts (total : nat) (st st' : run_state) (item : nat * source_info)
    (w : world) :
  length (all_new_rows_for_upload st) = pending_count (newly_processed_this_run st) ->
  fst (process_source total st item w) = Ret st' ->
  length (all_new_rows_for_upload st') = pending_count (newly_processed_this_run st').
Proof.
  intros Hinv. unfold process_source, mbind, M_bind, emit, sleep. cbn [fst snd].
  rewrite read_source_eq.
  destruct (fst (read_source (snd item) _)) as [[[source_key rows]|]|e]; cbn [fst snd].
  - pose proof (collect_counts (name (snd item)) source_key rows st Hinv) as Hc.
    destruct (snd (collect _ _ rows st)) as [|r found]; cbn [fst snd].
    + intros [= <-]. exact Hc.
    + unfold emit. cbn [fst snd]. destruct (negb _ && _).
      * destruct (flush _ _) as [[st1|e] w1] eqn:Hflush; [|discriminate].
        intros [= <-]. destruct (flush_result _ _ _ _ Hflush) as (_ & -> & -> & _).
        reflexivity.
      * intros [= <-]. exact Hc.
  - intros [= <-]. exact Hinv.
  - discriminate.
Qed.

(** At every point of a run the batch holds as many rows as fingerprints
    are pending, so that each flush commits one fingerprint for each row
    it hands to the destination. *)
Theorem batch_rows_match_pending_fingerprints (total : nat) (hashes : gmap string (list string))
    (sources : list source_info) (w : world) (st : run_state) :
  fst (for_each (process_source total) (enumerate 1 sources)
         (RunState hashes [] None ∅ false) w) = Ret st ->
  length (all_new_rows_for_upload st) = pending_count (newly_processed_this_run st).
Proof.
  assert (Hgen : forall (items : list (nat * source_info)) (st0 : run_state) (w0 : world),
             length (all_new_rows_for_upload st0) = pending_count (newly_processed_this_run st0) ->
             fst (for_each (process_source total) items st0 w0) = Ret st ->
             length (all_new_rows_for_upload st) = pending_count (newly_processed_this_run st)).
  { induction items as [|item items IH]; intros st0 w0 Hinv; simpl.
    - intros [= <-]. exact Hinv.
    - unfold mbind, M_bind.
      destruct (process_source total st0 item w0) as [[st1|e] w1] eqn:E; [|discriminate].
      apply IH. apply (process_source_counts total st0 st1 item w0 Hinv).
      rewrite E. reflexivity. }
  apply Hgen. reflexivity.
Qed.

(** Two of three sources, one new row each. *)
Lemma batch_rows_match_witness :
  length (all_new_rows_for_upload
            (result_or one_pending
               (for_each (process_source 3)
                  (enumerate 1 [SourceInfo (sheet_url "srcA") "Acme";
                                SourceInfo (sheet_url "srcB") "Bolt"])
                  (RunState ∅ [] None ∅ false))
               two_widths))
  = pending_count
      (newly_processed_this_run
         (result_or one_pending
            (for_each (process_source 3)
               (enumerate 1 [SourceInfo (sheet_url "srcA") "Acme";
                             SourceInfo (sheet_url "srcB") "Bolt"])
               (RunState ∅ [] None ∅ false))
            two_widths)).
Proof.
  apply (batch_rows_match_pending_fingerprints 3 ∅
           [SourceInfo (sheet_url "srcA") "Acme"; SourceInfo (sheet_url "srcB") "Bolt"]
           two_widths).
  vm_compute. reflexivity.
Defined.

(** ** The keys of the ledger *)

Lemma string_of_uint_no_underscore (u : Decimal.uint) :
  all_chars (fun c => negb (Ascii.eqb c "_")) (NilEmpty.string_of_uint u) = true.
Proof. unfold all_chars. induction u; simpl; auto. Qed.

Lemma string_of_int_no_underscore (d : Decimal.int) :
  all_chars (fun c => negb (Ascii.eqb c "_")) (NilZero.string_of_int d) = true.
Proof.
  assert (H : forall u, all_chars (fun c => negb (Ascii.eqb c "_")) (NilZero.string_of_uint u)
                        = true)
    by (intros u; destruct u; try reflexivity; apply string_of_uint_no_underscore).
  destruct d as [u|u]; [apply H|exact (H u)].
Qed.

Lemma str_of_int_inj (z1 z2 : Z) : str_of_int z1 = str_of_int z2 -> z1 = z2.
Proof.
  unfold str_of_int. intros H. apply DecimalZ.to_int_inj.
  assert (Hisi : forall z, NilZero.int_of_string (NilZero.string_of_int (Z.to_int z))
                           = Some (Z.to_int z)).
  { intros z. apply NilZero.isi; destruct z as [|p|p]; simpl; try discriminate;
      intros [= E]; exact (DecimalPos.Unsigned.to_uint_nonnil p E). }
  pose proof (Hisi z1) as H1. rewrite H, Hisi in H1. congruence.
Qed.

Lemma no_underscore_split (s a b : string) :
  all_chars (fun c => negb (Ascii.eqb c "_")) s = true -> s <> a +:+ String "_" b.
Proof.
  unfold all_chars. revert s. induction a as [|c a IH]; intros s Hs ->.
  - rewrite append_nil in Hs. discriminate.
  - rewrite append_cons in Hs. simpl in Hs. apply andb_prop in Hs as [_ Hs].
    exact (IH _ Hs eq_refl).
Qed.

Lemma key_split (id1 id2 s1 s2 : string) :
  all_chars (fun c => negb (Ascii.eqb c "_")) s1 = true ->
  all_chars (fun c => negb (Ascii.eqb c "_")) s2 = true ->
  id1 +:+ String "_" s1 = id2 +:+ String "_" s2 -> id1 = id2 /\ s1 = s2.
Proof.
  intros H1 H2. revert id2. induction id1 as [|c id1 IH]; intros [|c2 id2];
    rewrite ?append_nil, ?append_cons.
  - intros [= ->]. auto.
  - intros [= <- E]. destruct (no_underscore_split s1 id2 s2 H1 E).
  - intros [= -> E]. symmetry in E. destruct (no_underscore_split s2 id1 s1 H2 E).
  - intros [= <- E]. destruct (IH id2 E) as [-> ->]. auto.
Qed.

(** Two sources share a ledger key only when they have the same
    spreadsheet id and the same gid. *)
Theorem source_keys_do_not_collide (id1 id2 : string) (gid1 gid2 : Z) :
  source_key_of id1 gid1 = source_key_of id2 gid2 <-> id1 = id2 /\ gid1 = gid2.
Proof.
  split; [|intros [-> ->]; reflexivity].
  unfold source_key_of. intros H.
  destruct (key_split id1 id2 (str_of_int gid1) (str_of_int gid2)) as [Hid Hs].
  - apply string_of_int_no_underscore.
  - apply string_of_int_no_underscore.
  - exact H.
  - split; [exact Hid|apply str_of_int_inj, Hs].
Qed.

(** ** What can end a run *)

Lemma collect_keeps_prepared (company_name source_key : string) (rows : list row)
    (st : run_state) :
  headers_prepared_this_run (fst (collect company_name source_key rows st))
  = headers_prepared_this_run st.
Proof. unfold collect. destruct (fst (scan_data_rows _ _ _ _)); reflexivity. Qed.

Lemma flush_raises_unprepared (st : run_state) (w : world) (e : exn) :
  fst (flush st w) = Raise e -> headers_prepared_this_run st = false.
Proof.
  unfold flush, mbind, M_bind.
  destruct (headers_prepared_this_run st), (master_header_with_company st) as [headers|];
    simpl; try reflexivity;
    match goal with
    | |- context [append_rows ?b ?w0] =>
        destruct (append_rows_never_raises b w0) as [w2 ->]
    end; simpl; discriminate.
Qed.

(** A request that fails while a source is taken up ends the run only in
    one place: at a flush point, in a run that has not prepared the
    destination yet. Every other [HttpError] is caught. *)
Theorem http_error_ends_a_run_only_at_its_first_flush (total ss_index : nat)
    (info : source_info) (st : run_state) (w : world) :
  fst (process_source total st (ss_index, info) w) = Raise HttpError ->
  flush_point total ss_index /\ headers_prepared_this_run st = false.
Proof.
  unfold process_source, mbind, M_bind, emit, sleep. cbn [fst snd].
  pose proof (source_read_never_http info
                (World (drive w) (faulty w) (file w) (trace w ++ [Checking ss_index]))) as Hread.
  rewrite read_source_eq in *.
  destruct (fst (read_source info _)) as [[[source_key rows]|]|e]; cbn [fst snd].
  - destruct (snd (collect (name info) source_key rows st)) as [|r found] eqn:Hfound;
      [discriminate|].
    unfold emit. cbn [fst snd].
    destruct (negb _) eqn:Hbatch; cbn [andb]; [|discriminate].
    destruct ((ss_index mod 25 =? 0)%nat || (ss_index =? total)%nat) eqn:Htest; [|discriminate].
    intros Hflush. apply flush_raises_unprepared in Hflush.
    rewrite collect_keeps_prepared in Hflush.
    split; [apply flush_point_test, Htest|exact Hflush].
  - discriminate.
  - intros [= ->]. contradiction.
Qed.

(** The metadata of the destination cannot be read. *)
Lemma http_error_witness :
  flush_point 1 1 /\ headers_prepared_this_run (RunState ∅ [] None ∅ false) = false.
Proof.
  apply (http_error_ends_a_run_only_at_its_first_flush 1 1
           (SourceInfo (sheet_url "srcA") "Acme") (RunState ∅ [] None ∅ false)
           (one_appointment (fun c => match c with
                                      | SpreadsheetsGet id => String.eqb id TARGET_SPREADSHEET_ID
                                      | _ => false
                                      end) Absent)).
  vm_compute. reflexivity.
Defined.
